(** * go-digital-twin: twins, features, registry and the publish/subscribe bus

    A shallow embedding of the Go packages [twin], [registry] and
    [messaging_sim].  Go maps, pointers and channels are reference
    values, so they live in an explicit store and the methods are
    written in a small state-and-panic monad over that store.  The
    mutexes only serialize callers; every method body is modelled as one
    atomic step and the locks are left out. *)

From Stdlib Require Import PrimFloat ZArith.
From stdpp Require Import gmap strings list fin_maps.

Open Scope Z_scope.

#[local] Set Warnings "-register-all".

(* ================================================================== *)
(** * Values held in an [interface{}] *)
(* ================================================================== *)

(** Store locations.  A location that is absent from the store plays the
    role of a nil pointer or nil channel. *)
Definition loc := positive.

(** The dynamic values that reach attributes, properties and payloads:
    nil, bool, int, float64, string, []interface{} and
    map[string]interface{}. *)
Inductive Value : Type :=
  | VNil
  | VBool (b : bool)
  | VInt (n : Z)
  | VFloat (f : float)
  | VString (s : string)
  | VSlice (l : list Value)
  | VMap (m : list (string * Value)).

Inductive DynType : Type :=
  TNil | TBool | TInt | TFloat64 | TString | TSlice | TMap.

Global Instance DynType_eq_dec : EqDecision DynType.
Proof. solve_decision. Defined.

Definition type_of (v : Value) : DynType :=
  match v with
  | VNil => TNil
  | VBool _ => TBool
  | VInt _ => TInt
  | VFloat _ => TFloat64
  | VString _ => TString
  | VSlice _ => TSlice
  | VMap _ => TMap
  end.

(** Slices and maps are the Go types for which [==] is not defined. *)
Definition comparable (t : DynType) : bool :=
  match t with
  | TSlice | TMap => false
  | _ => true
  end.

(** [a == b] on two interface values.  Different dynamic types compare
    unequal; identical comparable types compare their values; identical
    non-comparable types are a run-time panic, written [None]. *)
Definition iface_eq (a b : Value) : option bool :=
  match a, b with
  | VNil, VNil => Some true
  | VBool x, VBool y => Some (bool_decide (x = y))
  | VInt x, VInt y => Some (bool_decide (x = y))
  | VFloat x, VFloat y => Some (PrimFloat.eqb x y)
  | VString x, VString y => Some (bool_decide (x = y))
  | VSlice _, VSlice _ => None
  | VMap _, VMap _ => None
  | _, _ => Some false
  end.

(** The equality a value carries by its own type: same dynamic type and
    same contents (IEEE equality on float64).  It relates nothing to a
    slice or a map. *)
Inductive natural_eq : Value → Value → Prop :=
  | neq_nil : natural_eq VNil VNil
  | neq_bool b : natural_eq (VBool b) (VBool b)
  | neq_int n : natural_eq (VInt n) (VInt n)
  | neq_float f g : PrimFloat.eqb f g = true → natural_eq (VFloat f) (VFloat g)
  | neq_string s : natural_eq (VString s) (VString s).

(** [time.Time], as ticks since the zero time.  A method that calls
    [time.Now()] takes the instant it reads as its argument [now]. *)
Definition Time := Z.

(* ================================================================== *)
(** * The store *)
(* ================================================================== *)

(** [FeatureState] is a struct stored and passed by value.  Its two
    property maps are Go maps, that is references ([None] is the nil
    map).  [Definition] is a slice whose cells no method writes in
    place, so it is kept as the list of its elements. *)
Record FeatureState : Type := mkFeatureState {
  Properties : option loc;
  DesiredProps : option loc;
  FeatureDefinition : list string;
  LastModified : Time
}.

(** [DigitalTwin] is always handled through a pointer. *)
Record DigitalTwin : Type := mkDigitalTwin {
  ID : string;
  TwinType : string;
  TwinDefinition : string;
  Attributes : option loc;
  Features : option loc;
  CreatedAt : Time;
  ModifiedAt : Time
}.

Record Heap : Type := mkHeap {
  h_vmaps : gmap loc (gmap string Value);         (* map[string]interface{} *)
  h_fmaps : gmap loc (gmap string FeatureState);  (* map[string]FeatureState *)
  h_twins : gmap loc DigitalTwin                  (* *DigitalTwin *)
}.

Definition empty_heap : Heap := mkHeap ∅ ∅ ∅.

Definition alloc_loc {A : Type} (m : gmap loc A) : loc := fresh (dom m).

(** State-and-panic monad: [None] is a run-time panic. *)
Definition M (A : Type) : Type := Heap → option (A * Heap).

Definition ret {A : Type} (a : A) : M A := λ h, Some (a, h).

Definition bind {A B : Type} (m : M A) (k : A → M B) : M B :=
  λ h, match m h with
       | Some (a, h') => k a h'
       | None => None
       end.

Definition panic {A : Type} : M A := λ _, None.

Notation "'do' x <- m ; k" := (bind m (λ x, k))
  (at level 10, x pattern, m at level 100, k at level 200).
Notation "'run' m ; k" := (bind m (λ _, k))
  (at level 10, m at level 100, k at level 200).

(** ** Go maps of interface values *)

Definition vmap_contents (h : Heap) (r : option loc) : gmap string Value :=
  default ∅ (r ≫= λ l, h_vmaps h !! l).

Definition vmap_live (h : Heap) (r : option loc) : Prop :=
  ∃ l m, r = Some l ∧ h_vmaps h !! l = Some m.

(** [make(map[string]interface{})] *)
Definition vmap_make : M (option loc) :=
  λ h, let l := alloc_loc (h_vmaps h) in
       Some (Some l, mkHeap (<[l := ∅]> (h_vmaps h)) (h_fmaps h) (h_twins h)).

(** [val, exists := m[key]]; a nil map reads as empty. *)
Definition vmap_get (r : option loc) (key : string) : M (Value * bool) :=
  λ h, match vmap_contents h r !! key with
       | Some v => Some ((v, true), h)
       | None => Some ((VNil, false), h)
       end.

(** [m[key] = value]; assignment to an entry of a nil map panics. *)
Definition vmap_set (r : option loc) (key : string) (value : Value) : M unit :=
  λ h, match r with
       | Some l =>
           match h_vmaps h !! l with
           | Some m =>
               Some (tt, mkHeap (<[l := <[key := value]> m]> (h_vmaps h))
                                (h_fmaps h) (h_twins h))
           | None => None
           end
       | None => None
       end.

(** [delete(m, key)]; a no-op on a nil map. *)
Definition vmap_delete (r : option loc) (key : string) : M unit :=
  λ h, match r with
       | Some l =>
           Some (tt, mkHeap (alter (delete key) l (h_vmaps h))
                            (h_fmaps h) (h_twins h))
       | None => Some (tt, h)
       end.

(** [c := make(...); for k, v := range m { c[k] = v }] *)
Definition vmap_copy (r : option loc) : M (option loc) :=
  λ h, let l := alloc_loc (h_vmaps h) in
       Some (Some l, mkHeap (<[l := vmap_contents h r]> (h_vmaps h))
                            (h_fmaps h) (h_twins h)).

(** ** Go maps of feature states *)

Definition fmap_contents (h : Heap) (r : option loc) : gmap string FeatureState :=
  default ∅ (r ≫= λ l, h_fmaps h !! l).

Definition fmap_live (h : Heap) (r : option loc) : Prop :=
  ∃ l m, r = Some l ∧ h_fmaps h !! l = Some m.

Definition fmap_make : M (option loc) :=
  λ h, let l := alloc_loc (h_fmaps h) in
       Some (Some l, mkHeap (h_vmaps h) (<[l := ∅]> (h_fmaps h)) (h_twins h)).

(** The zero [FeatureState]: what a map read yields for an absent key. *)
Definition zero_FeatureState : FeatureState := mkFeatureState None None [] 0.

Definition fmap_get (r : option loc) (id : string) : M (FeatureState * bool) :=
  λ h, match fmap_contents h r !! id with
       | Some f => Some ((f, true), h)
       | None => Some ((zero_FeatureState, false), h)
       end.

Definition fmap_set (r : option loc) (id : string) (f : FeatureState) : M unit :=
  λ h, match r with
       | Some l =>
           match h_fmaps h !! l with
           | Some m =>
               Some (tt, mkHeap (h_vmaps h) (<[l := <[id := f]> m]> (h_fmaps h))
                                (h_twins h))
           | None => None
           end
       | None => None
       end.

Definition fmap_delete (r : option loc) (id : string) : M unit :=
  λ h, match r with
       | Some l =>
           Some (tt, mkHeap (h_vmaps h) (alter (delete id) l (h_fmaps h))
                            (h_twins h))
       | None => Some (tt, h)
       end.

Definition fmap_copy (r : option loc) : M (option loc) :=
  λ h, let l := alloc_loc (h_fmaps h) in
       Some (Some l, mkHeap (h_vmaps h) (<[l := fmap_contents h r]> (h_fmaps h))
                            (h_twins h)).

(** ** Twin structs behind pointers *)

(** Reading a field through a nil pointer panics. *)
Definition load_twin (p : loc) : M DigitalTwin :=
  λ h, match h_twins h !! p with
       | Some t => Some (t, h)
       | None => None
       end.

Definition store_twin (p : loc) (t : DigitalTwin) : M unit :=
  λ h, match h_twins h !! p with
       | Some _ => Some (tt, mkHeap (h_vmaps h) (h_fmaps h) (<[p := t]> (h_twins h)))
       | None => None
       end.

(** [&DigitalTwin{...}] *)
Definition new_twin (t : DigitalTwin) : M loc :=
  λ h, let p := alloc_loc (h_twins h) in
       Some (p, mkHeap (h_vmaps h) (h_fmaps h) (<[p := t]> (h_twins h))).

(* ================================================================== *)
(** * Package twin: FeatureState *)
(* ================================================================== *)

(** The methods have pointer receivers; the struct the receiver points
    to is passed in and, for the mutating methods, handed back. *)
Module FeatureState.

Definition NewFeatureState (now : Time) : M FeatureState :=
  do props <- vmap_make;
  do desired <- vmap_make;
  ret (mkFeatureState props desired [] now).

Definition GetProperty (fs : FeatureState) (key : string) : M (Value * bool) :=
  vmap_get (Properties fs) key.

Definition SetProperty (fs : FeatureState) (now : Time) (key : string)
    (value : Value) : M FeatureState :=
  run vmap_set (Properties fs) key value;
  ret (mkFeatureState (Properties fs) (DesiredProps fs)
                      (FeatureDefinition fs) now).

Definition RemoveProperty (fs : FeatureState) (now : Time) (key : string)
    : M FeatureState :=
  run vmap_delete (Properties fs) key;
  ret (mkFeatureState (Properties fs) (DesiredProps fs)
                      (FeatureDefinition fs) now).

Definition GetAllProperties (fs : FeatureState) : M (option loc) :=
  vmap_copy (Properties fs).

Definition GetDesiredProperty (fs : FeatureState) (key : string)
    : M (Value * bool) :=
  vmap_get (DesiredProps fs) key.

Definition SetDesiredProperty (fs : FeatureState) (now : Time) (key : string)
    (value : Value) : M FeatureState :=
  run vmap_set (DesiredProps fs) key value;
  ret (mkFeatureState (Properties fs) (DesiredProps fs)
                      (FeatureDefinition fs) now).

Definition RemoveDesiredProperty (fs : FeatureState) (now : Time)
    (key : string) : M FeatureState :=
  run vmap_delete (DesiredProps fs) key;
  ret (mkFeatureState (Properties fs) (DesiredProps fs)
                      (FeatureDefinition fs) now).

Definition GetAllDesiredProperties (fs : FeatureState) : M (option loc) :=
  vmap_copy (DesiredProps fs).

(** [make] and [copy] give the struct a slice of its own. *)
Definition SetDefinition (fs : FeatureState) (now : Time)
    (definitions : list string) : M FeatureState :=
  ret (mkFeatureState (Properties fs) (DesiredProps fs) definitions now).

Definition GetDefinition (fs : FeatureState) : M (list string) :=
  ret (FeatureDefinition fs).

End FeatureState.

(* ================================================================== *)
(** * Package twin: DigitalTwin *)
(* ================================================================== *)

Inductive TwinError : Type :=
  | ErrFeatureNotFound
  | ErrFeatureAlreadyExists
  | ErrPropertyNotFound
  | ErrInvalidValue.

Definition touch (t : DigitalTwin) (now : Time) : DigitalTwin :=
  mkDigitalTwin (ID t) (TwinType t) (TwinDefinition t) (Attributes t)
                (Features t) (CreatedAt t) now.

(** The receiver [dt] is a [*DigitalTwin].  An [error] result is
    [None] for nil. *)
Module DigitalTwin.

Definition NewDigitalTwin (now : Time) (id twinType : string) : M loc :=
  do attrs <- vmap_make;
  do feats <- fmap_make;
  new_twin (mkDigitalTwin id twinType "" attrs feats now now).

Definition SetDefinition (dt : loc) (now : Time) (definition : string)
    : M unit :=
  do t <- load_twin dt;
  store_twin dt (mkDigitalTwin (ID t) (TwinType t) definition (Attributes t)
                               (Features t) (CreatedAt t) now).

Definition GetDefinition (dt : loc) : M string :=
  do t <- load_twin dt;
  ret (TwinDefinition t).

Definition GetAttribute (dt : loc) (key : string) : M (Value * bool) :=
  do t <- load_twin dt;
  vmap_get (Attributes t) key.

Definition SetAttribute (dt : loc) (now : Time) (key : string)
    (value : Value) : M unit :=
  do t <- load_twin dt;
  run vmap_set (Attributes t) key value;
  store_twin dt (touch t now).

Definition RemoveAttribute (dt : loc) (now : Time) (key : string) : M unit :=
  do t <- load_twin dt;
  run vmap_delete (Attributes t) key;
  store_twin dt (touch t now).

Definition GetAllAttributes (dt : loc) : M (option loc) :=
  do t <- load_twin dt;
  vmap_copy (Attributes t).

Definition GetFeature (dt : loc) (id : string) : M (FeatureState * bool) :=
  do t <- load_twin dt;
  fmap_get (Features t) id.

Definition AddFeature (dt : loc) (now : Time) (id : string)
    (feature : FeatureState) : M (option TwinError) :=
  do t <- load_twin dt;
  do (_, exists_) <- fmap_get (Features t) id;
  if exists_ : bool then ret (Some ErrFeatureAlreadyExists)
  else
    run fmap_set (Features t) id feature;
    run store_twin dt (touch t now);
    ret None.

Definition UpdateFeature (dt : loc) (now : Time) (id : string)
    (feature : FeatureState) : M (option TwinError) :=
  do t <- load_twin dt;
  do (_, exists_) <- fmap_get (Features t) id;
  if negb exists_ then ret (Some ErrFeatureNotFound)
  else
    run fmap_set (Features t) id feature;
    run store_twin dt (touch t now);
    ret None.

Definition RemoveFeature (dt : loc) (now : Time) (id : string)
    : M (option TwinError) :=
  do t <- load_twin dt;
  do (_, exists_) <- fmap_get (Features t) id;
  if negb exists_ then ret (Some ErrFeatureNotFound)
  else
    run fmap_delete (Features t) id;
    run store_twin dt (touch t now);
    ret None.

Definition GetAllFeatures (dt : loc) : M (option loc) :=
  do t <- load_twin dt;
  fmap_copy (Features t).

End DigitalTwin.

(* ================================================================== *)
(** * Package registry *)
(* ================================================================== *)

Inductive RegistryError : Type :=
  | ErrTwinNotFound
  | ErrTwinAlreadyExists.

(** The registry's map is private and set up by [NewRegistry] only; the
    struct is threaded through its methods. *)
Record Registry : Type := mkRegistry {
  twins : gmap string loc
}.

Module Registry.

Definition NewRegistry : Registry := mkRegistry ∅.

Definition Create (r : Registry) (dt : loc)
    : M (option RegistryError * Registry) :=
  do t <- load_twin dt;
  match twins r !! ID t with
  | Some _ => ret (Some ErrTwinAlreadyExists, r)
  | None => ret (None, mkRegistry (<[ID t := dt]> (twins r)))
  end.

(** The result is the Go pair: [(nil, ErrTwinNotFound)] or [(dt, nil)]. *)
Definition Get (r : Registry) (id : string)
    : M (option loc * option RegistryError) :=
  match twins r !! id with
  | None => ret (None, Some ErrTwinNotFound)
  | Some dt => ret (Some dt, None)
  end.

Definition Update (r : Registry) (dt : loc)
    : M (option RegistryError * Registry) :=
  do t <- load_twin dt;
  match twins r !! ID t with
  | None => ret (Some ErrTwinNotFound, r)
  | Some _ => ret (None, mkRegistry (<[ID t := dt]> (twins r)))
  end.

Definition Delete (r : Registry) (id : string)
    : M (option RegistryError * Registry) :=
  match twins r !! id with
  | None => ret (Some ErrTwinNotFound, r)
  | Some _ => ret (None, mkRegistry (delete id (twins r)))
  end.

(** [for _, dt := range r.twins]: Go leaves the order open; the
    entries are visited in the order of [map_to_list]. *)
Definition List (r : Registry) : M (list loc) :=
  ret ((map_to_list (twins r)).*2).

(** The loop [for _, dt := range r.twins { if test(dt) { result =
    append(result, dt) } }]. *)
Fixpoint scan (test : loc → M bool) (entries : list (string * loc))
    (result : list loc) : M (list loc) :=
  match entries with
  | [] => ret result
  | (_, dt) :: rest =>
      do b <- test dt;
      scan test rest (if b : bool then result ++ [dt] else result)
  end.

(** [exists && attrValue == value]: the comparison is evaluated only
    when the attribute is present. *)
Definition attr_matches (key : string) (value : Value) (dt : loc) : M bool :=
  do (attrValue, exists_) <- DigitalTwin.GetAttribute dt key;
  if exists_ : bool then
    match iface_eq attrValue value with
    | Some b => ret b
    | None => panic
    end
  else ret false.

Definition FindByAttribute (r : Registry) (key : string) (value : Value)
    : M (list loc) :=
  scan (attr_matches key value) (map_to_list (twins r)) [].



End Registry.

(* ================================================================== *)
(** * Package messaging_sim *)
(* ================================================================== *)

Record Message : Type := mkMessage {
  Topic : string;
  Payload : Value
}.

(** A buffered [chan Message]: the messages waiting in its buffer, its
    capacity and whether it has been closed. *)
Record Chan : Type := mkChan {
  queue : list Message;
  cap : nat;
  closed : bool
}.

(** [subscribers] is the struct's map; the channels it refers to are
    handed out to the subscribers as well, so they sit in [channels],
    the channel part of the store, under their locations. *)
Record PubSub : Type := mkPubSub {
  subscribers : gmap string (list loc);
  channels : gmap loc Chan
}.

Module PubSub.

Definition NewPubSub : PubSub := mkPubSub ∅ ∅.

Definition Subscribe (ps : PubSub) (topic : string) : loc * PubSub :=
  let ch := alloc_loc (channels ps) in
  (ch,
   mkPubSub
     (<[topic := default [] (subscribers ps !! topic) ++ [ch]]> (subscribers ps))
     (<[ch := mkChan [] 10 false]> (channels ps))).

Definition Unsubscribe (ps : PubSub) (topic : string) (ch : loc) : PubSub :=
  match subscribers ps !! topic with
  | None => ps
  | Some subs =>
      let subscribers' :=
        match list_find (λ sub, sub = ch) subs with
        | Some (i, _) =>
            <[topic := take i subs ++ drop (S i) subs]> (subscribers ps)
        | None => subscribers ps
        end in
      if bool_decide (length (default [] (subscribers' !! topic)) = 0%nat)
      then mkPubSub (delete topic subscribers') (channels ps)
      else mkPubSub subscribers' (channels ps)
  end.

(** [select { case ch <- msg: default: }].  A nil channel is never
    ready, a full buffer is not ready either, and a send on a closed
    channel panics. *)
Definition send (msg : Message) (ch : loc) (cs : gmap loc Chan)
    : option (gmap loc Chan) :=
  match cs !! ch with
  | None => Some cs
  | Some c =>
      if closed c then None
      else if bool_decide (length (queue c) < cap c)%nat
      then Some (<[ch := mkChan (queue c ++ [msg]) (cap c) false]> cs)
      else Some cs
  end.

Fixpoint send_all (msg : Message) (subs : list loc) (cs : gmap loc Chan)
    : option (gmap loc Chan) :=
  match subs with
  | [] => Some cs
  | ch :: rest => cs' ← send msg ch cs; send_all msg rest cs'
  end.

Definition Publish (ps : PubSub) (topic : string) (payload : Value)
    : option PubSub :=
  match subscribers ps !! topic with
  | None => Some ps
  | Some subs =>
      cs' ← send_all (mkMessage topic payload) subs (channels ps);
      Some (mkPubSub (subscribers ps) cs')
  end.

(** [close(ch)] panics on a nil channel and on a closed one. *)
Definition close_chan (ch : loc) (cs : gmap loc Chan)
    : option (gmap loc Chan) :=
  match cs !! ch with
  | None => None
  | Some c =>
      if closed c then None
      else Some (<[ch := mkChan (queue c) (cap c) true]> cs)
  end.

Fixpoint close_all (subs : list loc) (cs : gmap loc Chan)
    : option (gmap loc Chan) :=
  match subs with
  | [] => Some cs
  | ch :: rest => cs' ← close_chan ch cs; close_all rest cs'
  end.

(** One round of the outer loop of [Close], then the rest of it.  The
    topics are visited in the order of [map_to_list]. *)
Fixpoint close_topics (entries : list (string * list loc)) (ps : PubSub)
    : option PubSub :=
  match entries with
  | [] => Some ps
  | (topic, subs) :: rest =>
      cs' ← close_all subs (channels ps);
      close_topics rest (mkPubSub (delete topic (subscribers ps)) cs')
  end.

Definition Close (ps : PubSub) : option PubSub :=
  close_topics (map_to_list (subscribers ps)) ps.

(** [Publish(topic, p)] for each [p] of [payloads], in order. *)
Fixpoint publish_each (ps : PubSub) (topic : string) (payloads : list Value)
    : option PubSub :=
  match payloads with
  | [] => Some ps
  | p :: rest => ps' ← Publish ps topic p; publish_each ps' topic rest
  end.

End PubSub.

(* ================================================================== *)
(** * Derived notions used by the statements *)
(* ================================================================== *)

(** The five mutating methods of [FeatureState], as one call. *)
Inductive Mutation : Type :=
  | MSetProperty (key : string) (value : Value)
  | MRemoveProperty (key : string)
  | MSetDesiredProperty (key : string) (value : Value)
  | MRemoveDesiredProperty (key : string)
  | MSetDefinition (definitions : list string).

Definition mutate (fs : FeatureState) (now : Time) (mu : Mutation)
    : M FeatureState :=
  match mu with
  | MSetProperty key value => FeatureState.SetProperty fs now key value
  | MRemoveProperty key => FeatureState.RemoveProperty fs now key
  | MSetDesiredProperty key value => FeatureState.SetDesiredProperty fs now key value
  | MRemoveDesiredProperty key => FeatureState.RemoveDesiredProperty fs now key
  | MSetDefinition definitions => FeatureState.SetDefinition fs now definitions
  end.

(** A feature state whose two maps were made, as [NewFeatureState]
    leaves it and as every method keeps it. *)
Definition feature_live (h : Heap) (fs : FeatureState) : Prop :=
  vmap_live h (Properties fs) ∧ vmap_live h (DesiredProps fs).

(** What a reader sees of property [key] of feature [id] of twin [dt]:
    [f, _ := dt.GetFeature(id); f.GetProperty(key)]. *)
Definition stored_property (dt : loc) (id key : string) : M (Value * bool) :=
  do (f, _) <- DigitalTwin.GetFeature dt id;
  FeatureState.GetProperty f key.

(** Every pointer the registry holds points to a twin: [Create] and
    [Update] read [dt.ID] before they store [dt]. *)
Definition registry_live (h : Heap) (r : Registry) : Prop :=
  ∀ id dt, twins r !! id = Some dt → is_Some (h_twins h !! dt).

(** Twin [dt], registered under [id], has attribute [key] with value [a]. *)
Definition holds_attribute (h : Heap) (r : Registry) (id : string) (dt : loc)
    (key : string) (a : Value) : Prop :=
  ∃ t, twins r !! id = Some dt ∧ h_twins h !! dt = Some t ∧
       vmap_contents h (Attributes t) !! key = Some a.


(** The bus keeps a topic only while it has a subscriber. *)
Definition topics_nonempty (ps : PubSub) : Prop :=
  ∀ topic subs, subscribers ps !! topic = Some subs → subs ≠ [].

(** The subscribed channels, topic after topic. *)
Definition all_subscribed (ps : PubSub) : list loc :=
  mjoin (map_to_list (subscribers ps)).*2.

(** Every subscribed channel was made and has not been closed. *)
Definition channels_open (ps : PubSub) : Prop :=
  ∀ topic subs ch, subscribers ps !! topic = Some subs → ch ∈ subs →
    ∃ c, channels ps !! ch = Some c ∧ closed c = false.

(* ================================================================== *)
(** * Auxiliary notions and sample states *)
(* ================================================================== *)

(** A feature state as [NewFeatureState] makes it in the empty store. *)
Definition sample_feature : FeatureState :=
  mkFeatureState (Some 1%positive) (Some 2%positive) [] 1.

Definition sample_feature_heap : Heap :=
  mkHeap (<[2%positive := ∅]> (<[1%positive := ∅]> ∅)) ∅ ∅.

(** A scenario in the empty store: a feature with [value = 22] is added
    to a new twin under the name [temp]. *)
Definition shared_setup : M loc :=
  do fs <- FeatureState.NewFeatureState 1;
  do fs <- FeatureState.SetProperty fs 2 "value" (VInt 22);
  do dt <- DigitalTwin.NewDigitalTwin 3 "t1" "sensor";
  do _ <- DigitalTwin.AddFeature dt 4 "temp" fs;
  ret dt.

Definition shared_heap : Heap :=
  default empty_heap (snd <$> shared_setup empty_heap).

Definition shared_copy : FeatureState :=
  mkFeatureState (Some 1%positive) (Some 2%positive) [] 2.

Definition shared_heap_after : Heap :=
  default empty_heap
    (snd <$> FeatureState.SetProperty shared_copy 5 "value" (VInt 99) shared_heap).

Definition shared_twin : DigitalTwin :=
  mkDigitalTwin "t1" "sensor" "" (Some 3%positive) (Some 1%positive) 3 4.

(** A registry holding the twin of the scenario above. *)
Definition shared_registry : Registry := mkRegistry {["t1" := 1%positive]}.

(** What the test of [FindByAttribute] computes on one twin. *)
Definition attr_test (h : Heap) (key : string) (value : Value) (dt : loc)
    : option bool :=
  match h_twins h !! dt with
  | None => None
  | Some t =>
      match vmap_contents h (Attributes t) !! key with
      | Some a => iface_eq a value
      | None => Some false
      end
  end.



(** A scenario in the empty store: twin [t1] with the attribute
    [tags], a slice. *)
Definition tagged_setup : M loc :=
  do dt <- DigitalTwin.NewDigitalTwin 1 "t1" "sensor";
  run DigitalTwin.SetAttribute dt 2 "tags" (VSlice [VString "a"]);
  ret dt.

Definition tagged_heap : Heap :=
  default empty_heap (snd <$> tagged_setup empty_heap).

Definition tagged_twin : DigitalTwin :=
  mkDigitalTwin "t1" "sensor" "" (Some 1%positive) (Some 1%positive) 1 2.

Definition tagged_registry : Registry := mkRegistry {["t1" := 1%positive]}.

(** Channel [ch] exists in [cs] and is not closed. *)
Definition open_in (cs : gmap loc Chan) (ch : loc) : Prop :=
  ∃ c, cs !! ch = Some c ∧ closed c = false.

(** What a non-blocking send does to an open channel. *)
Definition deliver (msg : Message) (c : Chan) : Chan :=
  if bool_decide (length (queue c) < cap c)%nat
  then mkChan (queue c ++ [msg]) (cap c) false
  else c.

(** A bus with one subscriber on the topic [events]. *)
Definition events_bus : PubSub := (PubSub.Subscribe PubSub.NewPubSub "events").2.

(* ================================================================== *)
(** * Further notions: references, call sequences *)
(* ================================================================== *)

(** A map reference that is nil or points to a map in the store; Go has
    no other kind. *)
Definition ref_ok (h : Heap) (r : option loc) : Prop :=
  ∀ l, r = Some l → is_Some (h_vmaps h !! l).

Definition fref_ok (h : Heap) (r : option loc) : Prop :=
  ∀ l, r = Some l → is_Some (h_fmaps h !! l).

(** The six mutating methods of [DigitalTwin], as one call; the three
    that return no error are given the nil error. *)
Inductive TwinCall : Type :=
  | TSetDefinition (definition : string)
  | TSetAttribute (key : string) (value : Value)
  | TRemoveAttribute (key : string)
  | TAddFeature (id : string) (feature : FeatureState)
  | TUpdateFeature (id : string) (feature : FeatureState)
  | TRemoveFeature (id : string).

Definition twin_call (dt : loc) (now : Time) (c : TwinCall)
    : M (option TwinError) :=
  match c with
  | TSetDefinition definition =>
      run DigitalTwin.SetDefinition dt now definition; ret None
  | TSetAttribute key value =>
      run DigitalTwin.SetAttribute dt now key value; ret None
  | TRemoveAttribute key =>
      run DigitalTwin.RemoveAttribute dt now key; ret None
  | TAddFeature id feature => DigitalTwin.AddFeature dt now id feature
  | TUpdateFeature id feature => DigitalTwin.UpdateFeature dt now id feature
  | TRemoveFeature id => DigitalTwin.RemoveFeature dt now id
  end.

(** The four bus operations, as one call on the bus state. *)
Inductive BusCall : Type :=
  | BSubscribe (topic : string)
  | BUnsubscribe (topic : string) (ch : loc)
  | BPublish (topic : string) (payload : Value)
  | BClose.

Definition bus_call (ps : PubSub) (c : BusCall) : option PubSub :=
  match c with
  | BSubscribe topic => Some (PubSub.Subscribe ps topic).2
  | BUnsubscribe topic ch => Some (PubSub.Unsubscribe ps topic ch)
  | BPublish topic payload => PubSub.Publish ps topic payload
  | BClose => PubSub.Close ps
  end.

Fixpoint bus_calls (ps : PubSub) (cs : list BusCall) : option PubSub :=
  match cs with
  | [] => Some ps
  | c :: rest => ps' ← bus_call ps c; bus_calls ps' rest
  end.

(** No channel is subscribed twice, under one topic or under two. *)
Definition subscribed_once (ps : PubSub) : Prop :=
  (∀ topic subs, subscribers ps !! topic = Some subs → NoDup subs)
  ∧ (∀ t1 t2 l1 l2 x,
       subscribers ps !! t1 = Some l1 → subscribers ps !! t2 = Some l2 →
       x ∈ l1 → x ∈ l2 → t1 = t2).

(* ================================================================== *)
(** * Package api: one handler *)
(* ================================================================== *)

(** What a handler works on: the registry and the bus of the [Server]
    struct, and the store their pointers lead into. *)
Record Server : Type := mkServer {
  ServerRegistry : Registry;
  ServerStore : Heap;
  ServerPubSub : PubSub
}.

Definition StatusOK : nat := 200.
Definition StatusBadRequest : nat := 400.
Definition StatusNotFound : nat := 404.
Definition StatusInternalServerError : nat := 500.

(** The handler of [PUT /twins/{twinID}/features/{featureID}/properties/{propKey}].
    The request is given by its three URL parameters and by the outcome
    of decoding its body ([None] when the decoder fails); the response
    is given by its status code.  The encoding of the response body and
    the wait group are left out.  [now1] and [now2] are the instants
    read by [SetProperty] and by [UpdateFeature]; [None] is a panic. *)
Module Server.

Definition UpdateProperty (s : Server) (now1 now2 : Time)
    (twinID featureID propKey : string) (body : option Value)
    : option (nat * Server) :=
  if bool_decide (twinID = "" ∨ featureID = "" ∨ propKey = "")
  then Some (StatusBadRequest, s)
  else
    match Registry.Get (ServerRegistry s) twinID (ServerStore s) with
    | None => None
    | Some ((_, Some err), _) =>
        match err with
        | ErrTwinNotFound => Some (StatusNotFound, s)
        | _ => Some (StatusInternalServerError, s)
        end
    | Some ((None, None), _) => None
    | Some ((Some dt, None), h0) =>
        match DigitalTwin.GetFeature dt featureID h0 with
        | None => None
        | Some ((feature, exists_), h1) =>
            if negb exists_ then Some (StatusNotFound, s)
            else
              match body with
              | None => Some (StatusBadRequest, s)
              | Some propValue =>
                  match FeatureState.SetProperty feature now1 propKey propValue h1 with
                  | None => None
                  | Some (feature', h2) =>
                      match DigitalTwin.UpdateFeature dt now2 featureID feature' h2 with
                      | None => None
                      | Some (Some _, h3) =>
                          Some (StatusInternalServerError,
                                mkServer (ServerRegistry s) h3 (ServerPubSub s))
                      | Some (None, h3) =>
                          match Registry.Update (ServerRegistry s) dt h3 with
                          | None => None
                          | Some ((Some _, r'), h4) =>
                              Some (StatusInternalServerError,
                                    mkServer r' h4 (ServerPubSub s))
                          | Some ((None, r'), h4) =>
                              match PubSub.Publish (ServerPubSub s) "property.updated"
                                      (VMap [("twinId", VString twinID);
                                             ("featureId", VString featureID);
                                             ("propertyKey", VString propKey);
                                             ("value", propValue)]) with
                              | None => None
                              | Some ps' => Some (StatusOK, mkServer r' h4 ps')
                              end
                          end
                      end
                  end
              end
        end
    end.

End Server.

(** The scenario of [shared_heap] behind a server whose bus has a
    subscriber on [property.updated]. *)
Definition sample_server : Server :=
  mkServer shared_registry shared_heap
           (PubSub.Subscribe PubSub.NewPubSub "property.updated").2.

(* ================================================================== *)
(** * Store lemmas *)
(* ================================================================== *)

Ltac unfold_monad :=
  unfold bind, ret, panic, load_twin, store_twin, new_twin,
    vmap_get, vmap_set, vmap_delete, vmap_copy, vmap_make,
    fmap_get, fmap_set, fmap_delete, fmap_copy, fmap_make in *.

Lemma alloc_loc_fresh {A : Type} (m : gmap loc A) : m !! alloc_loc m = None.
Proof. apply not_elem_of_dom, is_fresh. Qed.

Lemma fmap_contents_Some h r id f :
  fmap_contents h r !! id = Some f →
  ∃ l, r = Some l ∧ h_fmaps h !! l = Some (fmap_contents h r).
Proof.
  unfold fmap_contents. destruct r as [l|]; simpl; [|by rewrite lookup_empty].
  destruct (h_fmaps h !! l) as [m|] eqn:Hm; simpl; [|by rewrite lookup_empty].
  intros _. by exists l.
Qed.

Lemma mutate_total h fs now mu :
  feature_live h fs →
  ∃ fs' h', mutate fs now mu h = Some (fs', h') ∧ LastModified fs' = now.
Proof.
  intros [(lp & mp & Hp & Hmp) (ld & md & Hd & Hmd)].
  destruct mu; simpl;
    unfold FeatureState.SetProperty, FeatureState.RemoveProperty,
      FeatureState.SetDesiredProperty, FeatureState.RemoveDesiredProperty,
      FeatureState.SetDefinition; unfold_monad;
    rewrite ?Hp, ?Hd, ?Hmp, ?Hmd; eauto.
Qed.

(** A mutating method writes to the property maps only. *)
Lemma mutate_frame h fs now mu fs' h' :
  mutate fs now mu h = Some (fs', h') →
  h_fmaps h' = h_fmaps h ∧ h_twins h' = h_twins h.
Proof.
  destruct mu; simpl;
    unfold FeatureState.SetProperty, FeatureState.RemoveProperty,
      FeatureState.SetDesiredProperty, FeatureState.RemoveDesiredProperty,
      FeatureState.SetDefinition; unfold_monad; intros Hrun;
    repeat case_match; simplify_eq; simpl; auto.
Qed.

Lemma vmap_set_live r key value h u h' r' :
  vmap_set r key value h = Some (u, h') → vmap_live h r' → vmap_live h' r'.
Proof.
  unfold vmap_set. destruct r as [l|]; [|done].
  destruct (h_vmaps h !! l) as [m|] eqn:Hm; [|done].
  intros [= <- <-] (l' & m' & -> & Hm'). unfold vmap_live. simpl.
  destruct (decide (l = l')) as [->|Hne].
  - eexists _, _. split; [done|]. apply lookup_insert_eq.
  - exists l', m'. split; [done|]. by rewrite lookup_insert_ne.
Qed.

Lemma vmap_delete_live r key h u h' r' :
  vmap_delete r key h = Some (u, h') → vmap_live h r' → vmap_live h' r'.
Proof.
  unfold vmap_delete. destruct r as [l|]; [|by intros [= <- <-]].
  intros [= <- <-] (l' & m' & -> & Hm'). unfold vmap_live. simpl.
  destruct (decide (l = l')) as [->|Hne].
  - eexists _, _. split; [done|]. rewrite lookup_alter_eq, Hm'. done.
  - exists l', m'. split; [done|]. by rewrite lookup_alter_ne.
Qed.

(** The mutating methods keep the two maps of a feature state made. *)
Lemma mutate_live h fs now mu fs' h' :
  feature_live h fs →
  mutate fs now mu h = Some (fs', h') → feature_live h' fs'.
Proof.
  intros [Hp Hd].
  destruct mu; simpl;
    unfold FeatureState.SetProperty, FeatureState.RemoveProperty,
      FeatureState.SetDesiredProperty, FeatureState.RemoveDesiredProperty,
      FeatureState.SetDefinition, bind, ret; intros Hrun.
  - destruct (vmap_set _ _ _ h) as [[u h1]|] eqn:Hset; [|done]. simplify_eq.
    split; simpl; by eapply vmap_set_live.
  - destruct (vmap_delete _ _ h) as [[u h1]|] eqn:Hdel; [|done]. simplify_eq.
    split; simpl; by eapply vmap_delete_live.
  - destruct (vmap_set _ _ _ h) as [[u h1]|] eqn:Hset; [|done]. simplify_eq.
    split; simpl; by eapply vmap_set_live.
  - destruct (vmap_delete _ _ h) as [[u h1]|] eqn:Hdel; [|done]. simplify_eq.
    split; simpl; by eapply vmap_delete_live.
  - simplify_eq. by split.
Qed.

Lemma GetFeature_stored h dt t id :
  h_twins h !! dt = Some t →
  DigitalTwin.GetFeature dt id h =
    Some (match fmap_contents h (Features t) !! id with
          | Some f => (f, true)
          | None => (zero_FeatureState, false)
          end, h).
Proof.
  intros Ht. unfold DigitalTwin.GetFeature. unfold_monad. rewrite Ht.
  by destruct (fmap_contents h (Features t) !! id).
Qed.

(* ================================================================== *)
(** * FeatureState *)
(* ================================================================== *)

Lemma mutate_stamp h fs now mu fs' h' :
  mutate fs now mu h = Some (fs', h') → LastModified fs' = now.
Proof.
  destruct mu; simpl;
    unfold FeatureState.SetProperty, FeatureState.RemoveProperty,
      FeatureState.SetDesiredProperty, FeatureState.RemoveDesiredProperty,
      FeatureState.SetDefinition; unfold_monad; intros Hrun;
    repeat case_match; by simplify_eq.
Qed.

(** C6.  Whenever one of the five mutating methods of a feature state
    returns, [LastModified] is the instant the method read from the
    clock; and on a feature state whose maps were made, each of them
    does return. *)
Theorem mutators_update_LastModified (h : Heap) (fs : FeatureState)
    (now : Time) (mu : Mutation) :
  (∀ fs' h', mutate fs now mu h = Some (fs', h') → LastModified fs' = now)
  ∧ (feature_live h fs →
     ∃ fs' h', mutate fs now mu h = Some (fs', h') ∧ LastModified fs' = now).
Proof.
  split; [intros fs' h'; apply mutate_stamp | apply mutate_total].
Qed.

Example NewFeatureState_sample :
  FeatureState.NewFeatureState 1 empty_heap
  = Some (sample_feature, sample_feature_heap).
Proof. vm_compute. reflexivity. Qed.

Lemma sample_feature_live : feature_live sample_feature_heap sample_feature.
Proof.
  split.
  - exists 1%positive, ∅. split; [reflexivity | vm_compute; reflexivity].
  - exists 2%positive, ∅. split; [reflexivity | vm_compute; reflexivity].
Qed.

Lemma mutators_update_LastModified_witness :
  feature_live sample_feature_heap sample_feature
  ∧ ∃ fs' h',
      mutate sample_feature 7 (MSetProperty "power" (VBool true))
             sample_feature_heap = Some (fs', h')
      ∧ LastModified fs' = 7.
Proof.
  split; [apply sample_feature_live|].
  apply (proj2 (mutators_update_LastModified sample_feature_heap sample_feature 7
                  (MSetProperty "power" (VBool true)))).
  apply sample_feature_live.
Defined.

(* ================================================================== *)
(** * DigitalTwin: features *)
(* ================================================================== *)

Lemma fmap_contents_frame h h' r :
  h_fmaps h' = h_fmaps h → fmap_contents h' r = fmap_contents h r.
Proof. intros Hf. unfold fmap_contents. by rewrite Hf. Qed.

Lemma UpdateFeature_present h dt t id old now feature :
  h_twins h !! dt = Some t →
  fmap_contents h (Features t) !! id = Some old →
  ∃ h', DigitalTwin.UpdateFeature dt now id feature h = Some (None, h')
        ∧ DigitalTwin.GetFeature dt id h' = Some ((feature, true), h').
Proof.
  intros Ht Hold.
  destruct (fmap_contents_Some _ _ _ _ Hold) as (l & Hl & Hm).
  unfold DigitalTwin.UpdateFeature. unfold_monad.
  rewrite Ht, Hold. simpl. rewrite Hl, Hm. simpl. rewrite Ht.
  eexists. split; [reflexivity|].
  unfold DigitalTwin.GetFeature. unfold_monad. simpl.
  rewrite lookup_insert_eq. simpl.
  unfold fmap_contents at 1. rewrite Hl. simpl.
  rewrite lookup_insert_eq. simpl. by rewrite lookup_insert_eq.
Qed.

(** C1, as stated, fails.  The copy that [GetFeature] hands out shares
    its property map with the stored feature: after [SetProperty] on the
    copy alone, reading the property through the twin gives the new
    value 99 and no longer 22. *)
Lemma GetFeature_copy_is_not_disconnected :
  ¬ (∀ (h : Heap) (dt : loc) (id key : string) (f f' : FeatureState)
       (now : Time) (value : Value) (h' : Heap),
       DigitalTwin.GetFeature dt id h = Some ((f, true), h) →
       FeatureState.SetProperty f now key value h = Some (f', h') →
       ∀ k, fst <$> stored_property dt id k h' = fst <$> stored_property dt id k h).
Proof.
  intros Hall.
  specialize (Hall shared_heap 1%positive "temp" "value" shared_copy
                (mkFeatureState (Some 1%positive) (Some 2%positive) [] 5)
                5 (VInt 99) shared_heap_after).
  assert (Hget : DigitalTwin.GetFeature 1%positive "temp" shared_heap
                 = Some ((shared_copy, true), shared_heap))
    by (vm_compute; reflexivity).
  assert (Hset : FeatureState.SetProperty shared_copy 5 "value" (VInt 99) shared_heap
                 = Some (mkFeatureState (Some 1%positive) (Some 2%positive) [] 5,
                         shared_heap_after))
    by (vm_compute; reflexivity).
  specialize (Hall Hget Hset "value").
  vm_compute in Hall. discriminate Hall.
Qed.

(** C1, amended.  [GetFeature] returns the stored struct and the flag
    [true].  A mutating method applied to that copy leaves the struct
    stored in the twin, and the twin itself, as they were, until the
    copy is handed to [UpdateFeature], which stores it.  The property
    maps are shared all the same: a property set through the copy is
    read back through the twin at once. *)
Theorem GetFeature_shallow_copy (h : Heap) (dt : loc) (t : DigitalTwin)
    (id : string) (fs : FeatureState) :
  h_twins h !! dt = Some t →
  fmap_contents h (Features t) !! id = Some fs →
  DigitalTwin.GetFeature dt id h = Some ((fs, true), h)
  ∧ (∀ now mu fs' h',
       mutate fs now mu h = Some (fs', h') →
       DigitalTwin.GetFeature dt id h' = Some ((fs, true), h')
       ∧ h_twins h' !! dt = Some t
       ∧ ∀ now2, ∃ h'',
           DigitalTwin.UpdateFeature dt now2 id fs' h' = Some (None, h'')
           ∧ DigitalTwin.GetFeature dt id h'' = Some ((fs', true), h''))
  ∧ (∀ now key value,
       vmap_live h (Properties fs) →
       ∃ fs' h',
         FeatureState.SetProperty fs now key value h = Some (fs', h')
         ∧ stored_property dt id key h' = Some ((value, true), h')).
Proof.
  intros Ht Hfs. split; [|split].
  - rewrite (GetFeature_stored _ _ _ _ Ht). by rewrite Hfs.
  - intros now mu fs' h' Hmu.
    destruct (mutate_frame _ _ _ _ _ _ Hmu) as [Hf Htw].
    assert (Ht' : h_twins h' !! dt = Some t) by (by rewrite Htw).
    assert (Hfs' : fmap_contents h' (Features t) !! id = Some fs)
      by (by rewrite (fmap_contents_frame h h')).
    split; [|split; [done|]].
    + rewrite (GetFeature_stored _ _ _ _ Ht'). by rewrite Hfs'.
    + intros now2. by eapply UpdateFeature_present.
  - intros now key value (l & m & Hl & Hm).
    unfold FeatureState.SetProperty. unfold_monad. rewrite Hl, Hm.
    eexists _, _. split; [reflexivity|].
    unfold stored_property, DigitalTwin.GetFeature, FeatureState.GetProperty.
    unfold_monad. simpl. rewrite Ht.
    change (fmap_contents _ (Features t)) with (fmap_contents h (Features t)).
    rewrite Hfs. simpl. rewrite Hl. unfold vmap_contents. simpl.
    rewrite lookup_insert_eq. simpl. by rewrite lookup_insert_eq.
Qed.

Lemma GetFeature_shallow_copy_witness :
  h_twins shared_heap !! 1%positive = Some shared_twin
  ∧ fmap_contents shared_heap (Features shared_twin) !! "temp" = Some shared_copy
  ∧ DigitalTwin.GetFeature 1%positive "temp" shared_heap
    = Some ((shared_copy, true), shared_heap)
  ∧ ∃ fs' h',
      FeatureState.SetProperty shared_copy 5 "value" (VInt 99) shared_heap
      = Some (fs', h')
      ∧ stored_property 1%positive "temp" "value" h' = Some ((VInt 99, true), h').
Proof.
  assert (H1 : h_twins shared_heap !! 1%positive = Some shared_twin)
    by (vm_compute; reflexivity).
  assert (H2 : fmap_contents shared_heap (Features shared_twin) !! "temp"
               = Some shared_copy)
    by (vm_compute; reflexivity).
  destruct (GetFeature_shallow_copy shared_heap 1%positive shared_twin "temp"
              shared_copy H1 H2) as (Hget & _ & Hset).
  split; [exact H1|]. split; [exact H2|]. split; [exact Hget|].
  apply Hset. exists 1%positive, {["value" := VInt 22]}.
  split; [reflexivity | vm_compute; reflexivity].
Defined.

Lemma feature_absent h dt t id :
  h_twins h !! dt = Some t →
  fmap_contents h (Features t) !! id = None →
  ∀ now feature,
    DigitalTwin.UpdateFeature dt now id feature h = Some (Some ErrFeatureNotFound, h)
    ∧ DigitalTwin.RemoveFeature dt now id h = Some (Some ErrFeatureNotFound, h).
Proof.
  intros Ht Hid now feature.
  unfold DigitalTwin.UpdateFeature, DigitalTwin.RemoveFeature. unfold_monad.
  by rewrite Ht, Hid.
Qed.

Lemma AddFeature_present h dt t id old now feature :
  h_twins h !! dt = Some t →
  fmap_contents h (Features t) !! id = Some old →
  DigitalTwin.AddFeature dt now id feature h = Some (Some ErrFeatureAlreadyExists, h).
Proof.
  intros Ht Hid. unfold DigitalTwin.AddFeature. unfold_monad.
  by rewrite Ht, Hid.
Qed.

Lemma AddFeature_absent h dt t id now feature :
  h_twins h !! dt = Some t →
  fmap_live h (Features t) →
  fmap_contents h (Features t) !! id = None →
  ∃ h', DigitalTwin.AddFeature dt now id feature h = Some (None, h')
        ∧ h_twins h' !! dt = Some (touch t now)
        ∧ fmap_contents h' (Features t) !! id = Some feature.
Proof.
  intros Ht (l & m & Hl & Hm) Hid.
  unfold DigitalTwin.AddFeature. unfold_monad.
  rewrite Ht, Hid. simpl. rewrite Hl, Hm. simpl. rewrite Ht.
  eexists. split; [reflexivity|]. simpl. split.
  - by rewrite lookup_insert_eq.
  - unfold fmap_contents. simpl. rewrite lookup_insert_eq. simpl.
    by rewrite lookup_insert_eq.
Qed.

(** C8.  On a twin whose feature map was made, two [AddFeature] calls
    with the same id both return, the second one with
    [ErrFeatureAlreadyExists] and without touching the store, so the
    feature the first call stored stays; [UpdateFeature] and
    [RemoveFeature] on an id the twin does not have return
    [ErrFeatureNotFound]. *)
Theorem feature_identity_errors (h : Heap) (dt : loc) (t : DigitalTwin)
    (id : string) (now1 now2 : Time) (f1 f2 : FeatureState) :
  h_twins h !! dt = Some t →
  fmap_live h (Features t) →
  (∃ e1 h1,
     DigitalTwin.AddFeature dt now1 id f1 h = Some (e1, h1)
     ∧ DigitalTwin.AddFeature dt now2 id f2 h1
       = Some (Some ErrFeatureAlreadyExists, h1)
     ∧ (fmap_contents h (Features t) !! id = None →
        e1 = None
        ∧ DigitalTwin.GetFeature dt id h1 = Some ((f1, true), h1)))
  ∧ (fmap_contents h (Features t) !! id = None →
     DigitalTwin.UpdateFeature dt now1 id f1 h = Some (Some ErrFeatureNotFound, h)
     ∧ DigitalTwin.RemoveFeature dt now1 id h = Some (Some ErrFeatureNotFound, h)).
Proof.
  intros Ht Hlive. split; [|intros Hid; by eapply feature_absent].
  destruct (fmap_contents h (Features t) !! id) as [old|] eqn:Hid.
  - exists (Some ErrFeatureAlreadyExists), h.
    rewrite !(AddFeature_present h dt t id old) by done.
    split; [done|]. split; [done|]. intros; discriminate.
  - destruct (AddFeature_absent h dt t id now1 f1 Ht Hlive Hid)
      as (h1 & Hadd & Ht1 & Hf1).
    exists None, h1. split; [done|]. split.
    + by eapply (AddFeature_present h1 dt (touch t now1) id f1).
    + intros _. split; [done|].
      rewrite (GetFeature_stored _ _ _ _ Ht1). simpl. by rewrite Hf1.
Qed.

Lemma feature_identity_errors_witness :
  ∃ e1 h1,
    DigitalTwin.AddFeature 1%positive 8 "humidity" sample_feature shared_heap
    = Some (e1, h1)
    ∧ DigitalTwin.AddFeature 1%positive 9 "humidity" shared_copy h1
      = Some (Some ErrFeatureAlreadyExists, h1)
    ∧ (fmap_contents shared_heap (Features shared_twin) !! "humidity" = None →
       e1 = None
       ∧ DigitalTwin.GetFeature 1%positive "humidity" h1
         = Some ((sample_feature, true), h1)).
Proof.
  refine (proj1 (feature_identity_errors shared_heap 1%positive shared_twin
                   "humidity" 8 9 sample_feature shared_copy _ _)).
  - vm_compute; reflexivity.
  - exists 1%positive, {["temp" := shared_copy]}.
    split; [reflexivity | vm_compute; reflexivity].
Defined.

(* ================================================================== *)
(** * Registry: create, get, update, delete *)
(* ================================================================== *)

(** [Create], [Update] and [Delete] store live pointers only. *)
Lemma registry_live_kept h r dt id :
  registry_live h r →
  (∀ e r' h', Registry.Create r dt h = Some ((e, r'), h') →
              h' = h ∧ registry_live h r')
  ∧ (∀ e r' h', Registry.Update r dt h = Some ((e, r'), h') →
                h' = h ∧ registry_live h r')
  ∧ (∀ e r' h', Registry.Delete r id h = Some ((e, r'), h') →
                h' = h ∧ registry_live h r').
Proof.
  intros Hlive.
  assert (Hins : ∀ t, h_twins h !! dt = Some t →
            registry_live h (mkRegistry (<[ID t := dt]> (twins r)))).
  { intros t Ht k p. simpl. rewrite lookup_insert_Some.
    intros [[_ <-]|[_ Hk]]; [by exists t | by eapply Hlive]. }
  split; [|split]; intros e r' h';
    unfold Registry.Create, Registry.Update, Registry.Delete; unfold_monad.
  - destruct (h_twins h !! dt) as [t|] eqn:Ht; [|done].
    destruct (twins r !! ID t); intros [= <- <- <-]; split; auto.
  - destruct (h_twins h !! dt) as [t|] eqn:Ht; [|done].
    destruct (twins r !! ID t); intros [= <- <- <-]; split; auto.
  - destruct (twins r !! id); intros [= <- <- <-]; split; auto.
    intros k p. simpl. rewrite lookup_delete_Some. intros [_ Hk].
    by eapply Hlive.
Qed.

(** C4.  When the registry has an entry for the id of the twin handed
    to [Create], the call returns [ErrTwinAlreadyExists]; the registry
    it leaves is the one it found, entry included, and the store is
    untouched. *)
Theorem Create_duplicate (r : Registry) (h : Heap) (X : string)
    (existing dt : loc) (t : DigitalTwin) :
  twins r !! X = Some existing →
  h_twins h !! dt = Some t →
  ID t = X →
  Registry.Create r dt h = Some ((Some ErrTwinAlreadyExists, r), h)
  ∧ ∀ r' h', Registry.Create r dt h = Some ((Some ErrTwinAlreadyExists, r'), h') →
             twins r' !! X = Some existing ∧ twins r' = twins r ∧ h' = h.
Proof.
  intros HX Ht Hid.
  assert (Hrun : Registry.Create r dt h = Some ((Some ErrTwinAlreadyExists, r), h)).
  { unfold Registry.Create. unfold_monad. rewrite Ht, Hid, HX. reflexivity. }
  split; [exact Hrun|].
  intros r' h' Hrun'. rewrite Hrun in Hrun'. by simplify_eq.
Qed.

(** C7.  For an id the registry has no entry for, [Get], [Update] of a
    twin with that id and [Delete] each return [ErrTwinNotFound], and
    leave registry and store as they were. *)
Theorem absent_id_not_found (r : Registry) (h : Heap) (id : string)
    (dt : loc) (t : DigitalTwin) :
  twins r !! id = None →
  h_twins h !! dt = Some t →
  ID t = id →
  Registry.Get r id h = Some ((None, Some ErrTwinNotFound), h)
  ∧ Registry.Update r dt h = Some ((Some ErrTwinNotFound, r), h)
  ∧ Registry.Delete r id h = Some ((Some ErrTwinNotFound, r), h).
Proof.
  intros Hid Ht HID.
  unfold Registry.Get, Registry.Update, Registry.Delete. unfold_monad.
  by rewrite Ht, HID, Hid.
Qed.

(** C9.  A twin made by [NewDigitalTwin now id type] and handed to
    [Create] on a registry without an entry for [id] is stored; [Get id]
    then returns the pointer to it, and the twin behind that pointer has
    that id, that type and [CreatedAt = ModifiedAt]. *)
Theorem Create_then_Get (r : Registry) (h : Heap) (now : Time)
    (id twinType : string) :
  twins r !! id = None →
  ∃ dt h1 r1 t,
    DigitalTwin.NewDigitalTwin now id twinType h = Some (dt, h1)
    ∧ Registry.Create r dt h1 = Some ((None, r1), h1)
    ∧ Registry.Get r1 id h1 = Some ((Some dt, None), h1)
    ∧ h_twins h1 !! dt = Some t
    ∧ ID t = id ∧ TwinType t = twinType ∧ CreatedAt t = ModifiedAt t.
Proof.
  intros Hid.
  unfold DigitalTwin.NewDigitalTwin, Registry.Create, Registry.Get.
  unfold_monad. simpl.
  eexists _, _, _, _. split; [reflexivity|].
  simpl. rewrite lookup_insert_eq. simpl. rewrite Hid.
  split; [reflexivity|]. simpl. rewrite lookup_insert_eq.
  split; [reflexivity|]. split; [reflexivity|]. done.
Qed.

Lemma Create_duplicate_witness :
  Registry.Create shared_registry 1%positive shared_heap
  = Some ((Some ErrTwinAlreadyExists, shared_registry), shared_heap)
  ∧ ∀ r' h',
      Registry.Create shared_registry 1%positive shared_heap
      = Some ((Some ErrTwinAlreadyExists, r'), h') →
      twins r' !! "t1" = Some 1%positive
      ∧ twins r' = twins shared_registry ∧ h' = shared_heap.
Proof.
  apply (Create_duplicate shared_registry shared_heap "t1" 1%positive
           1%positive shared_twin).
  - vm_compute; reflexivity.
  - vm_compute; reflexivity.
  - reflexivity.
Defined.

Lemma absent_id_not_found_witness :
  Registry.Get Registry.NewRegistry "t1" shared_heap
  = Some ((None, Some ErrTwinNotFound), shared_heap)
  ∧ Registry.Update Registry.NewRegistry 1%positive shared_heap
    = Some ((Some ErrTwinNotFound, Registry.NewRegistry), shared_heap)
  ∧ Registry.Delete Registry.NewRegistry "t1" shared_heap
    = Some ((Some ErrTwinNotFound, Registry.NewRegistry), shared_heap).
Proof.
  apply (absent_id_not_found Registry.NewRegistry shared_heap "t1" 1%positive
           shared_twin).
  - vm_compute; reflexivity.
  - vm_compute; reflexivity.
  - reflexivity.
Defined.

Lemma Create_then_Get_witness :
  ∃ dt h1 r1 t,
    DigitalTwin.NewDigitalTwin 10 "t2" "actuator" shared_heap = Some (dt, h1)
    ∧ Registry.Create shared_registry dt h1 = Some ((None, r1), h1)
    ∧ Registry.Get r1 "t2" h1 = Some ((Some dt, None), h1)
    ∧ h_twins h1 !! dt = Some t
    ∧ ID t = "t2" ∧ TwinType t = "actuator" ∧ CreatedAt t = ModifiedAt t.
Proof.
  apply (Create_then_Get shared_registry shared_heap 10 "t2" "actuator").
  vm_compute; reflexivity.
Defined.

(* ================================================================== *)
(** * Registry: the two scans *)
(* ================================================================== *)

(** [==] panics exactly on two values of one non-comparable type. *)
Lemma iface_eq_None a v :
  iface_eq a v = None ↔ type_of a = type_of v ∧ comparable (type_of v) = false.
Proof. destruct a, v; simpl; split; (intros [??] || intros ?); done. Qed.

(** When it returns, [==] is the natural equality. *)
Lemma iface_eq_Some a v b :
  iface_eq a v = Some b → (b = true ↔ natural_eq a v).
Proof.
  destruct a, v; simpl; intros Hb; simplify_eq;
    try (split; [intros Heq | intros Heq; inversion Heq]; done).
  - split; [constructor | done].
  - rewrite bool_decide_eq_true. split; [intros ->; constructor | by inversion 1].
  - rewrite bool_decide_eq_true. split; [intros ->; constructor | by inversion 1].
  - split; [by constructor | by inversion 1].
  - rewrite bool_decide_eq_true. split; [intros ->; constructor | by inversion 1].
Qed.

Lemma attr_matches_run h key value dt :
  Registry.attr_matches key value dt h
  = (λ b, (b, h)) <$> attr_test h key value dt.
Proof.
  unfold Registry.attr_matches, DigitalTwin.GetAttribute, attr_test.
  unfold_monad. destruct (h_twins h !! dt) as [t|]; [|done].
  destruct (vmap_contents h (Attributes t) !! key) as [a|]; [|done].
  by destruct (iface_eq a value).
Qed.


Section scan.
Context (test : loc → M bool) (tb : loc → option bool) (h : Heap).
Hypothesis test_run : ∀ dt, test dt h = (λ b, (b, h)) <$> tb dt.

Lemma scan_total entries acc :
  (∀ e, e ∈ entries → is_Some (tb e.2)) →
  Registry.scan test entries acc h
  = Some (acc ++ (filter (λ e, tb e.2 = Some true) entries).*2, h).
Proof.
  revert acc. induction entries as [|[id dt] rest IH]; intros acc Hall; simpl.
  - by rewrite app_nil_r.
  - unfold bind. rewrite test_run.
    destruct (Hall (id, dt)) as [b Hb]; [left|]. simpl in Hb. rewrite Hb. simpl.
    rewrite IH by (intros e He; apply Hall; by right).
    rewrite filter_cons. simpl. destruct b.
    + rewrite decide_True by done. simpl. by rewrite <- app_assoc.
    + rewrite decide_False by (by rewrite Hb). done.
Qed.

Lemma scan_None entries acc :
  Registry.scan test entries acc h = None ↔ ∃ e, e ∈ entries ∧ tb e.2 = None.
Proof.
  revert acc. induction entries as [|[id dt] rest IH]; intros acc; simpl.
  - split; [done|]. intros (e & He & _). by apply elem_of_nil in He.
  - unfold bind. rewrite test_run. destruct (tb dt) as [b|] eqn:Hb; simpl.
    + rewrite IH. split.
      * intros (e & He & Hn). exists e. split; [by right | done].
      * intros (e & He & Hn). apply elem_of_cons in He as [->|He].
        -- simpl in Hn. congruence.
        -- by exists e.
    + split; [|done]. intros _. exists (id, dt). split; [left | done].
Qed.
End scan.

(** The matching entries of a scan that returns: one per registered id. *)
Lemma scan_registry test tb h r :
  (∀ dt, test dt h = (λ b, (b, h)) <$> tb dt) →
  (∀ id dt, twins r !! id = Some dt → is_Some (tb dt)) →
  ∃ found : list (string * loc),
    Registry.scan test (map_to_list (twins r)) [] h = Some (found.*2, h)
    ∧ NoDup found.*1
    ∧ ∀ id dt, (id, dt) ∈ found ↔ twins r !! id = Some dt ∧ tb dt = Some true.
Proof.
  intros Hrun Hall.
  exists (filter (λ e, tb e.2 = Some true) (map_to_list (twins r))).
  split; [|split].
  - rewrite (scan_total test tb h Hrun); [done|].
    intros [id dt] He. apply elem_of_map_to_list in He. by eapply Hall.
  - apply (sublist_NoDup _ (map_to_list (twins r)).*1);
      [apply NoDup_fst_map_to_list | apply fmap_sublist, sublist_filter].
  - intros id dt. rewrite list_elem_of_filter, elem_of_map_to_list. simpl.
    tauto.
Qed.

Lemma attr_test_None h r key value id dt :
  registry_live h r →
  twins r !! id = Some dt →
  attr_test h key value dt = None
  ↔ ∃ a, holds_attribute h r id dt key a
         ∧ type_of a = type_of value ∧ comparable (type_of value) = false.
Proof.
  intros Hlive Hid. destruct (Hlive _ _ Hid) as [t Ht].
  unfold attr_test, holds_attribute. rewrite Ht.
  destruct (vmap_contents h (Attributes t) !! key) as [a|] eqn:Ha.
  - rewrite iface_eq_None. split.
    + intros [??]. exists a. split; [|done]. by exists t.
    + intros (a' & (t' & _ & Ht' & Ha') & ? & ?). by simplify_eq.
  - split; [done|]. intros (a' & (t' & _ & Ht' & Ha') & _). by simplify_eq.
Qed.

Lemma attr_test_true h r key value id dt :
  twins r !! id = Some dt →
  attr_test h key value dt = Some true
  ↔ ∃ a, holds_attribute h r id dt key a ∧ natural_eq a value.
Proof.
  intros Hid. unfold attr_test, holds_attribute. split.
  - destruct (h_twins h !! dt) as [t|] eqn:Ht; [|done].
    destruct (vmap_contents h (Attributes t) !! key) as [a|] eqn:Ha; [|done].
    intros Heq. exists a. split; [by exists t|].
    by apply (iface_eq_Some _ _ _ Heq).
  - intros (a & (t & _ & Ht & Ha) & Hnat). rewrite Ht, Ha.
    destruct (iface_eq a value) as [b|] eqn:Heq.
    + f_equal. by apply (iface_eq_Some _ _ _ Heq).
    + apply iface_eq_None in Heq as [_ Hcmp].
      by destruct Hnat.
Qed.


Lemma tagged_registry_live : registry_live tagged_heap tagged_registry.
Proof.
  intros id dt Hid. unfold tagged_registry in Hid. simpl in Hid.
  apply lookup_singleton_Some in Hid as [_ <-].
  exists tagged_twin. vm_compute. reflexivity.
Qed.




(** C10, as stated, fails: a stored value without [==] is compared
    without a panic when the query value is of another dynamic type.
    Here twin [t1] holds a slice under [tags], the query is a string,
    and the scan returns (the empty result). *)
Lemma FindByAttribute_other_type_returns :
  registry_live tagged_heap tagged_registry
  ∧ holds_attribute tagged_heap tagged_registry "t1" 1%positive "tags"
      (VSlice [VString "a"])
  ∧ comparable (type_of (VSlice [VString "a"])) = false
  ∧ Registry.FindByAttribute tagged_registry "tags" (VString "a") tagged_heap
    = Some ([], tagged_heap).
Proof.
  split; [apply tagged_registry_live|].
  split; [exists tagged_twin; repeat split; vm_compute; reflexivity|].
  split; [reflexivity | vm_compute; reflexivity].
Qed.

(** [==] on two interface values of different dynamic types is false,
    whatever the values hold. *)
Lemma iface_eq_other_type a v :
  type_of a ≠ type_of v → iface_eq a v = Some false.
Proof. by destruct a, v. Qed.

(** C10, amended.  The comparison of [FindByAttribute] is a panic for
    every registry state in which some registered twin holds under the
    queried key a value without [==] (a slice or a map) of the same
    dynamic type as the query value; so the call returns only in states
    where no value stored under the key has the dynamic type of a query
    value without [==].  A stored value of another dynamic type than
    the query is compared without a panic and found unequal: when no
    value under the key has the dynamic type of the query, the call
    returns, and returns no twin. *)
Theorem FindByAttribute_same_type_panics (h : Heap) (r : Registry)
    (key : string) (value : Value) :
  registry_live h r →
  ((∃ id dt a, holds_attribute h r id dt key a
               ∧ comparable (type_of a) = false
               ∧ type_of a = type_of value) →
   Registry.FindByAttribute r key value h = None)
  ∧ (is_Some (Registry.FindByAttribute r key value h) →
     ∀ id dt a, holds_attribute h r id dt key a →
                type_of a = type_of value → comparable (type_of a) = true)
  ∧ ((∀ id dt a, holds_attribute h r id dt key a →
                 type_of a ≠ type_of value) →
     Registry.FindByAttribute r key value h = Some ([], h)).
Proof.
  intros Hlive.
  assert (Hpanic : ∀ id dt a,
            holds_attribute h r id dt key a → comparable (type_of a) = false →
            type_of a = type_of value →
            Registry.FindByAttribute r key value h = None).
  { intros id dt a Ha Hcmp Hty. unfold Registry.FindByAttribute.
    apply (scan_None _ (attr_test h key value) h
             (λ dt, attr_matches_run h key value dt)).
    assert (Hid : twins r !! id = Some dt) by (by destruct Ha as (t & ? & _)).
    exists (id, dt). split; [by apply elem_of_map_to_list|].
    apply (attr_test_None h r key value id dt Hlive Hid).
    exists a. rewrite <- Hty. done. }
  split; [|split].
  - intros (id & dt & a & Ha & Hcmp & Hty). by apply (Hpanic id dt a).
  - intros Hret id dt a Ha Hty.
    destruct (comparable (type_of a)) eqn:Hcmp; [done|].
    rewrite (Hpanic id dt a Ha Hcmp Hty) in Hret. by destruct Hret.
  - intros Hother. unfold Registry.FindByAttribute.
    assert (Htest : ∀ e, e ∈ map_to_list (twins r) →
                         attr_test h key value e.2 = Some false).
    { intros [id dt] He. apply elem_of_map_to_list in He. simpl.
      destruct (Hlive _ _ He) as [t Ht]. unfold attr_test. rewrite Ht.
      destruct (vmap_contents h (Attributes t) !! key) as [a|] eqn:Ha; [|done].
      apply iface_eq_other_type, (Hother id dt). by exists t. }
    rewrite (scan_total _ (attr_test h key value) h
               (λ dt, attr_matches_run h key value dt));
      [|intros e He; rewrite (Htest e He); eauto].
    do 2 f_equal. simpl.
    induction (map_to_list (twins r)) as [|e l IH]; [done|].
    rewrite filter_cons, decide_False.
    + apply IH. intros e' He'. apply Htest. by right.
    + rewrite Htest by left. done.
Qed.

Lemma FindByAttribute_same_type_panics_witness :
  Registry.FindByAttribute tagged_registry "tags" (VSlice []) tagged_heap = None
  ∧ Registry.FindByAttribute tagged_registry "tags" (VString "a") tagged_heap
    = Some ([], tagged_heap).
Proof.
  split.
  - apply (FindByAttribute_same_type_panics tagged_heap tagged_registry "tags"
             (VSlice []) tagged_registry_live).
    exists "t1", 1%positive, (VSlice [VString "a"]).
    split; [|split; reflexivity].
    exists tagged_twin. repeat split; vm_compute; reflexivity.
  - apply (FindByAttribute_same_type_panics tagged_heap tagged_registry "tags"
             (VString "a") tagged_registry_live).
    intros id dt a (t & Hid & Ht & Ha).
    unfold tagged_registry in Hid. simpl in Hid.
    apply lookup_singleton_Some in Hid as [_ <-].
    vm_compute in Ht. injection Ht as <-.
    vm_compute in Ha. injection Ha as <-. discriminate.
Defined.

(* ================================================================== *)
(** * The bus: publishing *)
(* ================================================================== *)

Lemma send_open msg ch cs c :
  cs !! ch = Some c → closed c = false →
  PubSub.send msg ch cs = Some (<[ch := deliver msg c]> cs).
Proof.
  intros Hc Hopen. unfold PubSub.send, deliver. rewrite Hc, Hopen.
  case_bool_decide; [done|]. by rewrite insert_id.
Qed.

Lemma deliver_closed msg c : closed c = false → closed (deliver msg c) = false.
Proof. intros Hc. unfold deliver. by case_bool_decide. Qed.

Lemma open_in_insert cs ch c x :
  closed c = false → open_in cs x → open_in (<[ch := c]> cs) x.
Proof.
  intros Hc (c' & Hx & Hc'). destruct (decide (ch = x)) as [->|Hne].
  - exists c. by rewrite lookup_insert_eq.
  - exists c'. by rewrite lookup_insert_ne.
Qed.

Lemma send_all_open msg subs cs :
  Forall (open_in cs) subs →
  ∃ cs', PubSub.send_all msg subs cs = Some cs'
         ∧ (∀ x, open_in cs x → open_in cs' x)
         ∧ (∀ x, x ∉ subs → cs' !! x = cs !! x).
Proof.
  revert cs. induction subs as [|ch rest IH]; intros cs Hall; simpl.
  - by exists cs.
  - apply Forall_cons in Hall as [(c & Hc & Hopen) Hrest].
    rewrite (send_open msg ch cs c Hc Hopen). simpl.
    assert (Hkeep : ∀ x, open_in cs x → open_in (<[ch := deliver msg c]> cs) x).
    { intros x. apply open_in_insert. by apply deliver_closed. }
    destruct (IH (<[ch := deliver msg c]> cs)) as (cs' & Hrun & Hopen' & Hframe).
    { eapply Forall_impl; [exact Hrest | exact Hkeep]. }
    exists cs'. split; [exact Hrun|]. split.
    + intros x Hx. by apply Hopen', Hkeep.
    + intros x Hx. apply not_elem_of_cons in Hx as [Hne Hx].
      rewrite (Hframe x Hx). by rewrite lookup_insert_ne.
Qed.

Lemma send_all_app msg l1 l2 cs :
  PubSub.send_all msg (l1 ++ l2) cs
  = PubSub.send_all msg l1 cs ≫= PubSub.send_all msg l2.
Proof.
  revert cs. induction l1 as [|ch l1 IH]; intros cs; simpl; [done|].
  destruct (PubSub.send msg ch cs) as [cs'|]; simpl; [apply IH | done].
Qed.

(** One [Publish] to a topic whose last subscriber is [ch]. *)
Lemma Publish_last_subscriber ps topic payload others ch c :
  subscribers ps !! topic = Some (others ++ [ch]) →
  ch ∉ others →
  Forall (open_in (channels ps)) others →
  channels ps !! ch = Some c → closed c = false →
  ∃ ps', PubSub.Publish ps topic payload = Some ps'
         ∧ subscribers ps' = subscribers ps
         ∧ Forall (open_in (channels ps')) others
         ∧ channels ps' !! ch = Some (deliver (mkMessage topic payload) c).
Proof.
  intros Hsubs Hfresh Hothers Hc Hopen.
  unfold PubSub.Publish. rewrite Hsubs, send_all_app.
  destruct (send_all_open (mkMessage topic payload) others (channels ps) Hothers)
    as (cs1 & Hrun & Hkeep & Hframe).
  rewrite Hrun. simpl.
  assert (Hc1 : cs1 !! ch = Some c) by (by rewrite (Hframe ch Hfresh)).
  rewrite (send_open _ ch cs1 c Hc1 Hopen). simpl.
  eexists. split; [reflexivity|]. simpl. split; [done|]. split.
  - eapply Forall_impl; [exact Hothers|]. intros x Hx.
    apply open_in_insert; [by apply deliver_closed | by apply Hkeep].
  - by rewrite lookup_insert_eq.
Qed.

Lemma deliver_all msgs q n :
  (length q ≤ n)%nat →
  foldl (λ c m, deliver m c) (mkChan q n false) msgs
  = mkChan (take n (q ++ msgs)) n false.
Proof.
  revert q. induction msgs as [|m msgs IH]; intros q Hq; simpl.
  - by rewrite app_nil_r, take_ge.
  - unfold deliver at 2. simpl. case_bool_decide as Hlt.
    + rewrite IH by (rewrite length_app; simpl; lia).
      by rewrite <- app_assoc.
    + rewrite IH by done.
      rewrite !take_app_le by lia. done.
Qed.

Lemma publish_each_last_subscriber payloads ps topic others ch c :
  subscribers ps !! topic = Some (others ++ [ch]) →
  ch ∉ others →
  Forall (open_in (channels ps)) others →
  channels ps !! ch = Some c → closed c = false →
  ∃ ps', PubSub.publish_each ps topic payloads = Some ps'
         ∧ subscribers ps' = subscribers ps
         ∧ channels ps' !! ch
           = Some (foldl (λ c m, deliver m c) c (mkMessage topic <$> payloads)).
Proof.
  revert ps c. induction payloads as [|p rest IH];
    intros ps c Hsubs Hfresh Hothers Hc Hopen; simpl.
  - by exists ps.
  - destruct (Publish_last_subscriber ps topic p others ch c
                Hsubs Hfresh Hothers Hc Hopen)
      as (ps1 & Hrun & Hsame & Hothers1 & Hc1).
    rewrite Hrun. simpl.
    destruct (IH ps1 (deliver (mkMessage topic p) c)) as (ps' & Hrun' & Hsame' & Hc');
      [by rewrite Hsame | done | done | done | by apply deliver_closed |].
    exists ps'. split; [done|]. split; [congruence | done].
Qed.

Lemma subscribed_not_fresh ps topic subs :
  channels_open ps →
  subscribers ps !! topic = Some subs →
  alloc_loc (channels ps) ∉ subs.
Proof.
  intros Hopen Hsubs Hin.
  destruct (Hopen topic subs _ Hsubs Hin) as (c & Hc & _).
  by rewrite alloc_loc_fresh in Hc.
Qed.

(** C2.  After [Subscribe(topic)], any sequence of [Publish(topic, p)]
    calls returns, none of them waiting for a consumer, and leaves in
    the new subscription's buffer the first ten messages in publish
    order: all of them when there are at most ten, the excess dropped
    otherwise. *)
Theorem publish_after_subscribe (ps : PubSub) (topic : string)
    (payloads : list Value) :
  channels_open ps →
  ∃ ps',
    PubSub.publish_each (PubSub.Subscribe ps topic).2 topic payloads = Some ps'
    ∧ queue <$> channels ps' !! (PubSub.Subscribe ps topic).1
      = Some (take 10 (mkMessage topic <$> payloads))
    ∧ ((length payloads ≤ 10)%nat →
       queue <$> channels ps' !! (PubSub.Subscribe ps topic).1
       = Some (mkMessage topic <$> payloads)).
Proof.
  intros Hopen. simpl.
  set (ch := alloc_loc (channels ps)).
  set (others := default [] (subscribers ps !! topic)).
  assert (Hfresh : ch ∉ others).
  { subst others. destruct (subscribers ps !! topic) as [subs|] eqn:Hsubs; simpl.
    - by eapply subscribed_not_fresh.
    - apply not_elem_of_nil. }
  assert (Hothers : Forall (open_in (<[ch := mkChan [] 10 false]> (channels ps)))
                      others).
  { subst others. destruct (subscribers ps !! topic) as [subs|] eqn:Hsubs; simpl;
      [|constructor].
    apply Forall_forall. intros x Hx. apply open_in_insert; [done|].
    by eapply Hopen. }
  destruct (publish_each_last_subscriber payloads
              (mkPubSub (<[topic := others ++ [ch]]> (subscribers ps))
                        (<[ch := mkChan [] 10 false]> (channels ps)))
              topic others ch (mkChan [] 10 false))
    as (ps' & Hrun & _ & Hch); simpl;
    [by rewrite lookup_insert_eq | done | done | by rewrite lookup_insert_eq
    | done |].
  exists ps'. split; [exact Hrun|].
  rewrite Hch, deliver_all by (simpl; lia). simpl.
  split; [done|]. intros Hlen. by rewrite take_ge by (by rewrite length_fmap).
Qed.

(* ================================================================== *)
(** * The bus: the subscriptions map *)
(* ================================================================== *)

Lemma PubSub_eta ps : mkPubSub (subscribers ps) (channels ps) = ps.
Proof. by destruct ps. Qed.

Lemma NewPubSub_topics_nonempty : topics_nonempty PubSub.NewPubSub.
Proof.
  unfold topics_nonempty, PubSub.NewPubSub. simpl.
  intros topic subs Hsubs. by rewrite lookup_empty in Hsubs.
Qed.

Lemma NewPubSub_channels_open : channels_open PubSub.NewPubSub.
Proof.
  unfold channels_open, PubSub.NewPubSub. simpl.
  intros topic subs ch Hsubs. by rewrite lookup_empty in Hsubs.
Qed.

Lemma Subscribe_lookup ps topic t :
  subscribers (PubSub.Subscribe ps topic).2 !! t
  = if decide (topic = t)
    then Some (default [] (subscribers ps !! topic)
               ++ [(PubSub.Subscribe ps topic).1])
    else subscribers ps !! t.
Proof. simpl. by rewrite lookup_insert. Qed.

Lemma Subscribe_topics_nonempty ps topic :
  topics_nonempty ps → topics_nonempty (PubSub.Subscribe ps topic).2.
Proof.
  intros Hinv t subs. rewrite Subscribe_lookup. case_decide.
  - intros [= <-]. intros Hnil. by apply app_eq_nil in Hnil as [_ ?].
  - apply Hinv.
Qed.

Lemma Subscribe_channels_open ps topic :
  channels_open ps → channels_open (PubSub.Subscribe ps topic).2.
Proof.
  intros Hopen t subs ch. rewrite Subscribe_lookup.
  change (channels (PubSub.Subscribe ps topic).2)
    with (<[alloc_loc (channels ps) := mkChan [] 10 false]> (channels ps)).
  change ((PubSub.Subscribe ps topic).1) with (alloc_loc (channels ps)).
  case_decide as Ht.
  - intros [= <-]. rewrite elem_of_app, list_elem_of_singleton.
    intros [Hch | ->].
    + apply open_in_insert; [done|].
      destruct (subscribers ps !! topic) as [old|] eqn:Hold; simpl in Hch.
      * by eapply Hopen.
      * by apply elem_of_nil in Hch.
    + eexists. by rewrite lookup_insert_eq.
  - intros Hsubs Hch. apply open_in_insert; [done|]. by eapply Hopen.
Qed.

(** [Unsubscribe] when the handle is found at its first index [i]. *)
Lemma Unsubscribe_found ps topic ch subs i :
  subscribers ps !! topic = Some subs →
  list_find (λ sub, sub = ch) subs = Some (i, ch) →
  PubSub.Unsubscribe ps topic ch
  = if decide (delete i subs = [])
    then mkPubSub (delete topic (subscribers ps)) (channels ps)
    else mkPubSub (<[topic := delete i subs]> (subscribers ps)) (channels ps).
Proof.
  intros Hsubs Hfind. unfold PubSub.Unsubscribe. rewrite Hsubs, Hfind.
  rewrite lookup_insert_eq. simpl. rewrite <- delete_take_drop.
  case_bool_decide as Hlen; case_decide as Hnil.
  - by rewrite delete_insert_eq.
  - by apply length_zero_iff_nil in Hlen.
  - by rewrite Hnil in Hlen.
  - done.
Qed.

Lemma Unsubscribe_not_found ps topic ch subs :
  subscribers ps !! topic = Some subs →
  ch ∉ subs → subs ≠ [] →
  PubSub.Unsubscribe ps topic ch = ps.
Proof.
  intros Hsubs Hnot Hne. unfold PubSub.Unsubscribe. rewrite Hsubs.
  assert (Hfind : list_find (λ sub, sub = ch) subs = None).
  { apply list_find_None, Forall_forall. intros x Hx ->. done. }
  rewrite Hfind, Hsubs. simpl.
  rewrite bool_decide_eq_false_2; [apply PubSub_eta|].
  intros Hlen. by apply length_zero_iff_nil in Hlen.
Qed.

Lemma list_find_eq_elem (ch : loc) (subs : list loc) :
  ch ∈ subs → ∃ i, list_find (λ sub, sub = ch) subs = Some (i, ch).
Proof.
  intros Hin.
  destruct (list_find (λ sub, sub = ch) subs) as [[i x]|] eqn:Hfind.
  - apply list_find_Some in Hfind as Hs. destruct Hs as (_ & -> & _). by exists i.
  - apply list_find_None in Hfind. rewrite Forall_forall in Hfind.
    by destruct (Hfind ch Hin).
Qed.

Lemma Unsubscribe_topics_nonempty ps topic ch :
  topics_nonempty ps → topics_nonempty (PubSub.Unsubscribe ps topic ch).
Proof.
  intros Hinv.
  destruct (subscribers ps !! topic) as [subs|] eqn:Hsubs;
    [|unfold PubSub.Unsubscribe; by rewrite Hsubs].
  destruct (decide (ch ∈ subs)) as [Hin|Hnot].
  - destruct (list_find_eq_elem ch subs Hin) as [i Hfind].
    rewrite (Unsubscribe_found ps topic ch subs i Hsubs Hfind).
    case_decide as Hnil; intros t l; simpl.
    + rewrite lookup_delete_Some. intros [_ Hl]. by eapply Hinv.
    + rewrite lookup_insert_Some. intros [[_ <-] | [_ Hl]]; [done|].
      by eapply Hinv.
  - rewrite (Unsubscribe_not_found ps topic ch subs); [done..|].
    by eapply Hinv.
Qed.

Lemma Publish_subscribers ps topic payload ps' :
  PubSub.Publish ps topic payload = Some ps' →
  subscribers ps' = subscribers ps.
Proof.
  unfold PubSub.Publish. destruct (subscribers ps !! topic) as [subs|].
  - destruct (PubSub.send_all _ subs (channels ps)) as [cs'|]; simpl; [|done].
    by intros [= <-].
  - by intros [= <-].
Qed.

Lemma Publish_total ps topic payload :
  channels_open ps → is_Some (PubSub.Publish ps topic payload).
Proof.
  intros Hopen. unfold PubSub.Publish.
  destruct (subscribers ps !! topic) as [subs|] eqn:Hsubs; [|done].
  destruct (send_all_open (mkMessage topic payload) subs (channels ps))
    as (cs' & Hrun & _).
  { apply Forall_forall. intros x Hx. by eapply Hopen. }
  rewrite Hrun. done.
Qed.

(** [Unsubscribe] and [Publish] keep the subscribed channels open. *)
Lemma Unsubscribe_channels_open ps topic ch :
  channels_open ps → channels_open (PubSub.Unsubscribe ps topic ch).
Proof.
  intros Hopen. unfold PubSub.Unsubscribe.
  destruct (subscribers ps !! topic) as [subs|] eqn:Hsubs; [|done].
  assert (Hsub : ∀ (m : gmap string (list loc)) t l x,
            (m = subscribers ps
             ∨ ∃ i, m = <[topic := take i subs ++ drop (S i) subs]> (subscribers ps)) →
            m !! t = Some l → x ∈ l → open_in (channels ps) x).
  { intros m t l x [->|[i ->]] Hl Hx; [by eapply Hopen|].
    apply lookup_insert_Some in Hl as [[_ <-]|[_ Hl]]; [|by eapply Hopen].
    apply (Hopen topic subs x Hsubs).
    apply elem_of_app in Hx as [Hx|Hx].
    - by eapply subseteq_take.
    - by eapply subseteq_drop. }
  destruct (list_find (λ sub, sub = ch) subs) as [[i x]|];
    case_bool_decide; intros t l y; simpl.
  - rewrite lookup_delete_Some. intros [_ Hl]. eapply Hsub; [|exact Hl]. eauto.
  - apply Hsub. eauto.
  - rewrite lookup_delete_Some. intros [_ Hl]. eapply Hsub; [|exact Hl]. eauto.
  - apply Hsub. eauto.
Qed.

Lemma Publish_channels_open ps topic payload ps' :
  channels_open ps →
  PubSub.Publish ps topic payload = Some ps' → channels_open ps'.
Proof.
  intros Hopen. unfold PubSub.Publish.
  destruct (subscribers ps !! topic) as [subs|] eqn:Hsubs; [|by intros [= <-]].
  destruct (send_all_open (mkMessage topic payload) subs (channels ps))
    as (cs' & Hrun & Hkeep & _).
  { apply Forall_forall. intros x Hx. by eapply Hopen. }
  rewrite Hrun. simpl. intros [= <-] t l x Hl Hx. simpl in *.
  apply Hkeep. by eapply Hopen.
Qed.

Lemma close_all_ok subs cs :
  NoDup subs → Forall (open_in cs) subs →
  ∃ cs', PubSub.close_all subs cs = Some cs'
         ∧ (∀ x, x ∈ subs → ∃ c, cs' !! x = Some c ∧ closed c = true)
         ∧ (∀ x, x ∉ subs → cs' !! x = cs !! x).
Proof.
  revert cs. induction subs as [|ch rest IH]; intros cs Hnd Hall; simpl.
  - exists cs. split; [done|]. split; [|done].
    intros x Hx. by apply elem_of_nil in Hx.
  - apply NoDup_cons in Hnd as [Hch Hnd].
    apply Forall_cons in Hall as [(c & Hc & Hopen) Hrest].
    unfold PubSub.close_chan. rewrite Hc, Hopen. simpl.
    destruct (IH (<[ch := mkChan (queue c) (cap c) true]> cs) Hnd)
      as (cs' & Hrun & Hclosed & Hframe).
    { apply Forall_forall. intros x Hx.
      rewrite Forall_forall in Hrest. destruct (Hrest x Hx) as (c' & Hc' & Ho).
      exists c'. split; [|done]. rewrite lookup_insert_ne; [done|].
      intros ->. done. }
    exists cs'. split; [exact Hrun|]. split.
    + intros x Hx. apply elem_of_cons in Hx as [->|Hx]; [|by apply Hclosed].
      rewrite (Hframe ch Hch), lookup_insert_eq. by eexists.
    + intros x Hx. apply not_elem_of_cons in Hx as [Hne Hx].
      rewrite (Hframe x Hx). by rewrite lookup_insert_ne.
Qed.

Lemma close_topics_subscribers entries ps ps' :
  PubSub.close_topics entries ps = Some ps' →
  ∀ t, subscribers ps' !! t
       = if decide (t ∈ entries.*1) then None else subscribers ps !! t.
Proof.
  revert ps. induction entries as [|[topic subs] rest IH]; intros ps Hrun t;
    simpl in Hrun.
  - injection Hrun as <-.
    destruct (decide (t ∈ ([] : list (string * list loc)).*1)) as [Hin|_];
      [by apply elem_of_nil in Hin | done].
  - destruct (PubSub.close_all subs (channels ps)) as [cs'|]; simpl in Hrun;
      [|done].
    rewrite (IH _ Hrun t), fmap_cons. cbn [fst subscribers].
    destruct (decide (t ∈ rest.*1)) as [Hin|Hnin];
      destruct (decide (t ∈ topic :: rest.*1)) as [Hin'|Hnin']; try done.
    + destruct Hnin'. by right.
    + apply elem_of_cons in Hin' as [->|?]; [|done]. apply lookup_delete_eq.
    + apply lookup_delete_ne. intros ->. destruct Hnin'. left.
Qed.

Lemma close_topics_ok entries ps :
  NoDup (mjoin entries.*2) →
  Forall (open_in (channels ps)) (mjoin entries.*2) →
  ∃ ps', PubSub.close_topics entries ps = Some ps'
         ∧ (∀ x, x ∈ mjoin entries.*2 →
                 ∃ c, channels ps' !! x = Some c ∧ closed c = true)
         ∧ (∀ x, x ∉ mjoin entries.*2 → channels ps' !! x = channels ps !! x).
Proof.
  revert ps. induction entries as [|[topic subs] rest IH]; intros ps Hnd Hall.
  - exists ps. split; [done|]. split; [|done].
    intros x Hx. by apply elem_of_nil in Hx.
  - change (mjoin ((topic, subs) :: rest).*2) with (subs ++ mjoin rest.*2) in *.
    apply NoDup_app in Hnd as (Hnd1 & Hdisj & Hnd2).
    apply Forall_app in Hall as [Hall1 Hall2].
    destruct (close_all_ok subs (channels ps) Hnd1 Hall1)
      as (cs1 & Hrun1 & Hclosed1 & Hframe1).
    simpl. rewrite Hrun1. simpl.
    destruct (IH (mkPubSub (delete topic (subscribers ps)) cs1) Hnd2)
      as (ps' & Hrun & Hclosed & Hframe).
    { simpl. apply Forall_forall. intros x Hx.
      rewrite Forall_forall in Hall2. destruct (Hall2 x Hx) as (c & Hc & Ho).
      exists c. split; [|done]. rewrite Hframe1; [done|].
      intros Hin. by apply (Hdisj x Hin). }
    exists ps'. split; [exact Hrun|]. split.
    + intros x Hx. apply elem_of_app in Hx as [Hx|Hx]; [|by apply Hclosed].
      rewrite (Hframe x) by (by apply Hdisj). simpl. by apply Hclosed1.
    + intros x Hx. apply not_elem_of_app in Hx as [Hx1 Hx2].
      rewrite (Hframe x Hx2). simpl. by apply Hframe1.
Qed.

Lemma Close_subscribers ps ps' :
  PubSub.Close ps = Some ps' → subscribers ps' = ∅.
Proof.
  intros Hrun. apply map_empty. intros t.
  rewrite (close_topics_subscribers _ _ _ Hrun t).
  case_decide as Hin; [done|].
  destruct (subscribers ps !! t) as [subs|] eqn:Hsubs; [|done].
  destruct Hin. apply list_elem_of_fmap. exists (t, subs).
  split; [done | by apply elem_of_map_to_list].
Qed.

Lemma all_subscribed_open ps :
  channels_open ps → Forall (open_in (channels ps)) (all_subscribed ps).
Proof.
  intros Hopen. apply Forall_forall. intros x Hx.
  unfold all_subscribed in Hx. apply list_elem_of_join in Hx as (subs & Hx & Hsubs).
  apply list_elem_of_fmap in Hsubs as ([t subs'] & -> & Hin).
  apply elem_of_map_to_list in Hin. by eapply Hopen.
Qed.

Lemma empty_topics_nonempty ps : subscribers ps = ∅ → topics_nonempty ps.
Proof. intros Hemp t subs Hsubs. by rewrite Hemp, lookup_empty in Hsubs. Qed.

(** C5.  "A topic is in the subscriptions map only with at least one
    subscriber queue" is kept by the four bus operations.  [Subscribe]
    leaves the topic with its former queues and the new one.
    [Unsubscribe] takes out the first queue equal to the handle and
    drops the topic entry when no queue is left; on an unknown topic or
    a handle that is not subscribed it changes nothing.  [Publish]
    returns the map as it found it.  [Close] returns the empty map, and
    has then closed every subscribed channel. *)
Theorem topic_entries_invariant (ps : PubSub) (topic : string) (ch : loc)
    (payload : Value) :
  topics_nonempty ps →
  (topics_nonempty (PubSub.Subscribe ps topic).2
   ∧ subscribers (PubSub.Subscribe ps topic).2 !! topic
     = Some (default [] (subscribers ps !! topic)
             ++ [(PubSub.Subscribe ps topic).1]))
  ∧ (topics_nonempty (PubSub.Unsubscribe ps topic ch)
     ∧ (subscribers ps !! topic = None → PubSub.Unsubscribe ps topic ch = ps)
     ∧ (∀ subs, subscribers ps !! topic = Some subs → ch ∉ subs →
                PubSub.Unsubscribe ps topic ch = ps)
     ∧ (∀ subs i, subscribers ps !! topic = Some subs →
                  list_find (λ sub, sub = ch) subs = Some (i, ch) →
                  subscribers (PubSub.Unsubscribe ps topic ch) !! topic
                  = if decide (delete i subs = []) then None
                    else Some (delete i subs))
     ∧ (subscribers ps !! topic = Some [ch] →
        subscribers (PubSub.Unsubscribe ps topic ch) !! topic = None))
  ∧ ((∀ ps', PubSub.Publish ps topic payload = Some ps' →
             subscribers ps' = subscribers ps ∧ topics_nonempty ps')
     ∧ (channels_open ps → is_Some (PubSub.Publish ps topic payload)))
  ∧ ((∀ ps', PubSub.Close ps = Some ps' →
             subscribers ps' = ∅ ∧ topics_nonempty ps')
     ∧ (channels_open ps → NoDup (all_subscribed ps) →
        ∃ ps', PubSub.Close ps = Some ps'
               ∧ subscribers ps' = ∅
               ∧ ∀ x, x ∈ all_subscribed ps →
                      ∃ c, channels ps' !! x = Some c ∧ closed c = true)).
Proof.
  intros Hinv.
  assert (Hfound : ∀ subs i, subscribers ps !! topic = Some subs →
            list_find (λ sub, sub = ch) subs = Some (i, ch) →
            subscribers (PubSub.Unsubscribe ps topic ch) !! topic
            = if decide (delete i subs = []) then None else Some (delete i subs)).
  { intros subs i Hsubs Hfind.
    rewrite (Unsubscribe_found ps topic ch subs i Hsubs Hfind).
    case_decide; simpl; [apply lookup_delete_eq | apply lookup_insert_eq]. }
  split; [|split; [|split]].
  - split; [by apply Subscribe_topics_nonempty|].
    rewrite Subscribe_lookup. by rewrite decide_True.
  - split; [by apply Unsubscribe_topics_nonempty|].
    split; [intros Hnone; unfold PubSub.Unsubscribe; by rewrite Hnone|].
    split; [|split; [exact Hfound|]].
    + intros subs Hsubs Hnot.
      apply (Unsubscribe_not_found ps topic ch subs Hsubs Hnot).
      by eapply Hinv.
    + intros Hsubs. rewrite (Hfound [ch] 0%nat Hsubs); [done|].
      simpl. by rewrite decide_True.
  - split; [|apply Publish_total].
    intros ps' Hrun. pose proof (Publish_subscribers _ _ _ _ Hrun) as Hsame.
    split; [done|]. intros t subs. rewrite Hsame. apply Hinv.
  - split.
    + intros ps' Hrun. pose proof (Close_subscribers _ _ Hrun) as Hemp.
      split; [done | by apply empty_topics_nonempty].
    + intros Hopen Hnd.
      destruct (close_topics_ok (map_to_list (subscribers ps)) ps Hnd
                  (all_subscribed_open ps Hopen)) as (ps' & Hrun & Hclosed & _).
      exists ps'. split; [exact Hrun|].
      split; [by eapply Close_subscribers | exact Hclosed].
Qed.

Lemma events_bus_topics_nonempty : topics_nonempty events_bus.
Proof. apply Subscribe_topics_nonempty, NewPubSub_topics_nonempty. Qed.

Lemma events_bus_channels_open : channels_open events_bus.
Proof. apply Subscribe_channels_open, NewPubSub_channels_open. Qed.

Lemma publish_after_subscribe_witness :
  ∃ ps',
    PubSub.publish_each (PubSub.Subscribe events_bus "events").2 "events"
      [VInt 1; VString "two"; VBool true] = Some ps'
    ∧ queue <$> channels ps' !! (PubSub.Subscribe events_bus "events").1
      = Some (take 10 (mkMessage "events" <$> [VInt 1; VString "two"; VBool true]))
    ∧ ((length [VInt 1; VString "two"; VBool true] ≤ 10)%nat →
       queue <$> channels ps' !! (PubSub.Subscribe events_bus "events").1
       = Some (mkMessage "events" <$> [VInt 1; VString "two"; VBool true])).
Proof.
  apply (publish_after_subscribe events_bus "events"
           [VInt 1; VString "two"; VBool true]).
  apply events_bus_channels_open.
Defined.

Lemma topic_entries_invariant_witness :
  topics_nonempty events_bus
  ∧ topics_nonempty (PubSub.Subscribe events_bus "events").2
  ∧ topics_nonempty (PubSub.Unsubscribe events_bus "events" 1%positive)
  ∧ subscribers (PubSub.Unsubscribe events_bus "events" 1%positive) !! "events"
    = None
  ∧ is_Some (PubSub.Publish events_bus "events" (VInt 1))
  ∧ ∃ ps', PubSub.Close events_bus = Some ps'
           ∧ subscribers ps' = ∅
           ∧ ∀ x, x ∈ all_subscribed events_bus →
                  ∃ c, channels ps' !! x = Some c ∧ closed c = true.
Proof.
  destruct (topic_entries_invariant events_bus "events" 1%positive (VInt 1)
              events_bus_topics_nonempty)
    as ([Hsub _] & (Hunsub & _ & _ & _ & Hlast) & [_ Hpub] & [_ Hclose]).
  split; [apply events_bus_topics_nonempty|].
  split; [exact Hsub|]. split; [exact Hunsub|].
  split; [apply Hlast; vm_compute; reflexivity|].
  split; [apply Hpub, events_bus_channels_open|].
  apply Hclose; [apply events_bus_channels_open|].
  assert (Hall : all_subscribed events_bus = [1%positive])
    by (vm_compute; reflexivity).
  rewrite Hall. apply NoDup_singleton.
Defined.

(* ================================================================== *)
(** * FeatureState: property maps *)
(* ================================================================== *)

Lemma vmap_get_contents r key h :
  vmap_get r key h
  = Some (match vmap_contents h r !! key with
          | Some v => (v, true)
          | None => (VNil, false)
          end, h).
Proof. unfold vmap_get. by destruct (vmap_contents h r !! key). Qed.

Lemma vmap_contents_ext h1 h2 r :
  h_vmaps h1 = h_vmaps h2 → vmap_contents h1 r = vmap_contents h2 r.
Proof. intros Heq. unfold vmap_contents. by rewrite Heq. Qed.

Lemma fmap_contents_ext h1 h2 r :
  h_fmaps h1 = h_fmaps h2 → fmap_contents h1 r = fmap_contents h2 r.
Proof. intros Heq. unfold fmap_contents. by rewrite Heq. Qed.

Lemma vmap_set_contents r key value h u h' :
  vmap_set r key value h = Some (u, h') →
  vmap_contents h' r = <[key := value]> (vmap_contents h r)
  ∧ (∀ r', r' ≠ r → vmap_contents h' r' = vmap_contents h r')
  ∧ h_fmaps h' = h_fmaps h ∧ h_twins h' = h_twins h.
Proof.
  unfold vmap_set. destruct r as [l|]; [|done].
  destruct (h_vmaps h !! l) as [m|] eqn:Hm; [|done].
  intros [= <- <-]. unfold vmap_contents. simpl.
  rewrite lookup_insert_eq, Hm. split; [done|]. split; [|done].
  intros [l'|] Hne; simpl; [|done].
  rewrite lookup_insert_ne; [done | congruence].
Qed.

Lemma vmap_delete_contents r key h :
  ∃ h', vmap_delete r key h = Some (tt, h')
        ∧ vmap_contents h' r = delete key (vmap_contents h r)
        ∧ (∀ r', r' ≠ r → vmap_contents h' r' = vmap_contents h r')
        ∧ h_fmaps h' = h_fmaps h ∧ h_twins h' = h_twins h.
Proof.
  unfold vmap_delete. destruct r as [l|].
  - eexists. split; [reflexivity|]. unfold vmap_contents. simpl.
    rewrite lookup_alter_eq. split.
    + destruct (h_vmaps h !! l); simpl; [done | by rewrite delete_empty].
    + split; [|done]. intros [l'|] Hne; simpl; [|done].
      rewrite lookup_alter_ne; [done | congruence].
  - exists h. split; [done|]. unfold vmap_contents. simpl.
    by rewrite delete_empty.
Qed.

(** X1.  [SetProperty] on a feature state with a made property map
    returns; the property then reads back with the flag [true], every
    other property and every desired property reads as before. *)
Theorem SetProperty_GetProperty (h : Heap) (fs : FeatureState) (now : Time)
    (key : string) (value : Value) :
  vmap_live h (Properties fs) →
  Properties fs ≠ DesiredProps fs →
  ∃ fs' h',
    FeatureState.SetProperty fs now key value h = Some (fs', h')
    ∧ FeatureState.GetProperty fs' key h' = Some ((value, true), h')
    ∧ (∀ k, k ≠ key →
         fst <$> FeatureState.GetProperty fs' k h'
         = fst <$> FeatureState.GetProperty fs k h)
    ∧ (∀ k, fst <$> FeatureState.GetDesiredProperty fs' k h'
            = fst <$> FeatureState.GetDesiredProperty fs k h).
Proof.
  intros (l & m & Hl & Hm) Hne.
  unfold FeatureState.SetProperty, bind, ret.
  destruct (vmap_set (Properties fs) key value h) as [[u h']|] eqn:Hset.
  - destruct (vmap_set_contents _ _ _ _ _ _ Hset) as (Hc & Hframe & _).
    eexists _, _. split; [reflexivity|].
    unfold FeatureState.GetProperty, FeatureState.GetDesiredProperty. simpl.
    split; [|split]; intros; rewrite !vmap_get_contents; simpl.
    + by rewrite Hc, lookup_insert_eq.
    + by rewrite Hc, lookup_insert_ne.
    + by rewrite (Hframe (DesiredProps fs)).
  - unfold vmap_set in Hset. by rewrite Hl, Hm in Hset.
Qed.

Lemma SetProperty_GetProperty_witness :
  ∃ fs' h',
    FeatureState.SetProperty sample_feature 7 "power" (VBool true)
      sample_feature_heap = Some (fs', h')
    ∧ FeatureState.GetProperty fs' "power" h' = Some ((VBool true, true), h')
    ∧ (∀ k, k ≠ "power" →
         fst <$> FeatureState.GetProperty fs' k h'
         = fst <$> FeatureState.GetProperty sample_feature k sample_feature_heap)
    ∧ (∀ k, fst <$> FeatureState.GetDesiredProperty fs' k h'
            = fst <$> FeatureState.GetDesiredProperty sample_feature k
                        sample_feature_heap).
Proof.
  apply (SetProperty_GetProperty sample_feature_heap sample_feature 7 "power"
           (VBool true)).
  - apply sample_feature_live.
  - discriminate.
Defined.

(** X2.  [RemoveProperty] always returns, also on a nil map and for a
    key that is not there; afterwards the key reads as absent, the
    other properties read as before, and [LastModified] is the instant
    read even when nothing was removed. *)
Theorem RemoveProperty_GetProperty (h : Heap) (fs : FeatureState) (now : Time)
    (key : string) :
  ∃ fs' h',
    FeatureState.RemoveProperty fs now key h = Some (fs', h')
    ∧ LastModified fs' = now
    ∧ FeatureState.GetProperty fs' key h' = Some ((VNil, false), h')
    ∧ (∀ k, k ≠ key →
         fst <$> FeatureState.GetProperty fs' k h'
         = fst <$> FeatureState.GetProperty fs k h)
    ∧ (Properties fs ≠ DesiredProps fs →
       ∀ k, fst <$> FeatureState.GetDesiredProperty fs' k h'
            = fst <$> FeatureState.GetDesiredProperty fs k h).
Proof.
  destruct (vmap_delete_contents (Properties fs) key h)
    as (h' & Hdel & Hc & Hframe & _).
  unfold FeatureState.RemoveProperty, bind, ret. rewrite Hdel.
  eexists _, _. split; [reflexivity|]. split; [done|].
  unfold FeatureState.GetProperty, FeatureState.GetDesiredProperty. simpl.
  split; [|split]; intros; rewrite !vmap_get_contents; simpl.
  - by rewrite Hc, lookup_delete_eq.
  - by rewrite Hc, lookup_delete_ne.
  - by rewrite (Hframe (DesiredProps fs)).
Qed.

(** X3.  Current and desired properties are kept apart: after
    [SetProperty key v1] and [SetDesiredProperty key v2] the two getters
    return [v1] and [v2]; removing the desired one leaves the current
    one in place. *)
Theorem current_and_desired_apart (h : Heap) (fs : FeatureState)
    (now1 now2 now3 : Time) (key : string) (v1 v2 : Value) :
  feature_live h fs →
  Properties fs ≠ DesiredProps fs →
  ∃ fs1 h1 fs2 h2 fs3 h3,
    FeatureState.SetProperty fs now1 key v1 h = Some (fs1, h1)
    ∧ FeatureState.SetDesiredProperty fs1 now2 key v2 h1 = Some (fs2, h2)
    ∧ FeatureState.GetProperty fs2 key h2 = Some ((v1, true), h2)
    ∧ FeatureState.GetDesiredProperty fs2 key h2 = Some ((v2, true), h2)
    ∧ FeatureState.RemoveDesiredProperty fs2 now3 key h2 = Some (fs3, h3)
    ∧ FeatureState.GetProperty fs3 key h3 = Some ((v1, true), h3)
    ∧ FeatureState.GetDesiredProperty fs3 key h3 = Some ((VNil, false), h3).
Proof.
  intros [(lp & mp & Hlp & Hmp) (ld & md & Hld & Hmd)] Hne.
  assert (Hne' : DesiredProps fs ≠ Properties fs) by congruence.
  unfold FeatureState.SetProperty, FeatureState.SetDesiredProperty,
    FeatureState.RemoveDesiredProperty, bind, ret.
  destruct (vmap_set (Properties fs) key v1 h) as [[u1 h1]|] eqn:Hset1;
    [|unfold vmap_set in Hset1; by rewrite Hlp, Hmp in Hset1].
  destruct (vmap_set_contents _ _ _ _ _ _ Hset1) as (Hc1 & Hf1 & _).
  simpl.
  destruct (vmap_set (DesiredProps fs) key v2 h1) as [[u2 h2]|] eqn:Hset2.
  2:{ unfold vmap_set in Hset2. rewrite Hld in Hset2.
      pose proof (vmap_set_live _ _ _ _ _ _ (DesiredProps fs) Hset1) as Hlive.
      destruct Hlive as (l & m & Hl & Hm); [by exists ld, md|].
      rewrite Hld in Hl. simplify_eq. by rewrite Hm in Hset2. }
  destruct (vmap_set_contents _ _ _ _ _ _ Hset2) as (Hc2 & Hf2 & _).
  destruct (vmap_delete_contents (DesiredProps fs) key h2)
    as (h3 & Hdel & Hc3 & Hf3 & _).
  exists (mkFeatureState (Properties fs) (DesiredProps fs) (FeatureDefinition fs) now1),
    h1,
    (mkFeatureState (Properties fs) (DesiredProps fs) (FeatureDefinition fs) now2),
    h2,
    (mkFeatureState (Properties fs) (DesiredProps fs) (FeatureDefinition fs) now3),
    h3.
  split; [reflexivity|]. simpl. rewrite Hset2.
  split; [reflexivity|]. simpl. rewrite Hdel.
  unfold FeatureState.GetProperty, FeatureState.GetDesiredProperty. simpl.
  rewrite !vmap_get_contents. simpl.
  rewrite Hc3, (Hf3 _ Hne), Hc2, (Hf2 _ Hne), Hc1.
  rewrite !lookup_insert_eq, lookup_delete_eq. simpl.
  repeat (split; [reflexivity|]). reflexivity.
Qed.

Lemma current_and_desired_apart_witness :
  ∃ fs1 h1 fs2 h2 fs3 h3,
    FeatureState.SetProperty sample_feature 2 "temperature" (VInt 22)
      sample_feature_heap = Some (fs1, h1)
    ∧ FeatureState.SetDesiredProperty fs1 3 "temperature" (VInt 23) h1
      = Some (fs2, h2)
    ∧ FeatureState.GetProperty fs2 "temperature" h2 = Some ((VInt 22, true), h2)
    ∧ FeatureState.GetDesiredProperty fs2 "temperature" h2
      = Some ((VInt 23, true), h2)
    ∧ FeatureState.RemoveDesiredProperty fs2 4 "temperature" h2 = Some (fs3, h3)
    ∧ FeatureState.GetProperty fs3 "temperature" h3 = Some ((VInt 22, true), h3)
    ∧ FeatureState.GetDesiredProperty fs3 "temperature" h3
      = Some ((VNil, false), h3).
Proof.
  apply (current_and_desired_apart sample_feature_heap sample_feature 2 3 4
           "temperature" (VInt 22) (VInt 23)).
  - apply sample_feature_live.
  - discriminate.
Defined.

Lemma vmap_copy_spec r h :
  ∃ l h1,
    vmap_copy r h = Some (Some l, h1)
    ∧ h_vmaps h !! l = None
    ∧ vmap_contents h1 (Some l) = vmap_contents h r
    ∧ (∀ r', ref_ok h r' → r' ≠ Some l ∧ vmap_contents h1 r' = vmap_contents h r')
    ∧ h_fmaps h1 = h_fmaps h ∧ h_twins h1 = h_twins h.
Proof.
  unfold vmap_copy. eexists _, _. split; [reflexivity|].
  pose proof (alloc_loc_fresh (h_vmaps h)) as Hfresh.
  split; [exact Hfresh|]. unfold vmap_contents at 1. simpl.
  rewrite lookup_insert_eq. split; [done|]. split; [|done].
  intros r' Hok.
  assert (Hne : r' ≠ Some (alloc_loc (h_vmaps h))).
  { intros ->. destruct (Hok _ eq_refl) as [m Hm]. congruence. }
  split; [exact Hne|]. unfold vmap_contents. destruct r' as [l'|]; simpl; [|done].
  rewrite lookup_insert_ne; [done | congruence].
Qed.

(** X4.  [GetAllProperties] returns a map of its own with the
    properties of the feature state: later [SetProperty] and
    [RemoveProperty] calls on the feature state do not reach the copy,
    and an assignment to the copy does not reach the feature state. *)
Theorem GetAllProperties_independent (h : Heap) (fs : FeatureState) :
  ref_ok h (Properties fs) →
  ∃ c h1,
    FeatureState.GetAllProperties fs h = Some (c, h1)
    ∧ c ≠ Properties fs
    ∧ vmap_contents h1 c = vmap_contents h (Properties fs)
    ∧ vmap_contents h1 (Properties fs) = vmap_contents h (Properties fs)
    ∧ (∀ now key value fs' h2,
         FeatureState.SetProperty fs now key value h1 = Some (fs', h2) →
         vmap_contents h2 c = vmap_contents h (Properties fs))
    ∧ (∀ now key fs' h2,
         FeatureState.RemoveProperty fs now key h1 = Some (fs', h2) →
         vmap_contents h2 c = vmap_contents h (Properties fs))
    ∧ (∀ key value u h2,
         vmap_set c key value h1 = Some (u, h2) →
         vmap_contents h2 (Properties fs) = vmap_contents h (Properties fs)).
Proof.
  intros Hok.
  destruct (vmap_copy_spec (Properties fs) h) as (l & h1 & Hrun & _ & Hc & Hold & _).
  destruct (Hold _ Hok) as [Hne Hsame].
  exists (Some l), h1. unfold FeatureState.GetAllProperties.
  split; [exact Hrun|]. split; [congruence|]. split; [exact Hc|].
  split; [exact Hsame|]. split; [|split].
  - intros now key value fs' h2. unfold FeatureState.SetProperty, bind, ret.
    destruct (vmap_set (Properties fs) key value h1) as [[u h2']|] eqn:Hset;
      [|done].
    intros [= <- <-].
    destruct (vmap_set_contents _ _ _ _ _ _ Hset) as (_ & Hf & _).
    rewrite (Hf (Some l)) by congruence. exact Hc.
  - intros now key fs' h2. unfold FeatureState.RemoveProperty, bind, ret.
    destruct (vmap_delete_contents (Properties fs) key h1)
      as (h2' & Hdel & _ & Hf & _).
    rewrite Hdel. intros [= <- <-].
    rewrite (Hf (Some l)) by congruence. exact Hc.
  - intros key value u h2 Hset.
    destruct (vmap_set_contents _ _ _ _ _ _ Hset) as (_ & Hf & _).
    rewrite (Hf (Properties fs)) by congruence. exact Hsame.
Qed.

Lemma sample_feature_ref_ok : ref_ok sample_feature_heap (Properties sample_feature).
Proof. intros l [= <-]. exists ∅. vm_compute. reflexivity. Qed.

Lemma GetAllProperties_independent_witness :
  ∃ c h1,
    FeatureState.GetAllProperties sample_feature sample_feature_heap = Some (c, h1)
    ∧ c ≠ Properties sample_feature
    ∧ vmap_contents h1 c
      = vmap_contents sample_feature_heap (Properties sample_feature)
    ∧ vmap_contents h1 (Properties sample_feature)
      = vmap_contents sample_feature_heap (Properties sample_feature)
    ∧ (∀ now key value fs' h2,
         FeatureState.SetProperty sample_feature now key value h1 = Some (fs', h2) →
         vmap_contents h2 c
         = vmap_contents sample_feature_heap (Properties sample_feature))
    ∧ (∀ now key fs' h2,
         FeatureState.RemoveProperty sample_feature now key h1 = Some (fs', h2) →
         vmap_contents h2 c
         = vmap_contents sample_feature_heap (Properties sample_feature))
    ∧ (∀ key value u h2,
         vmap_set c key value h1 = Some (u, h2) →
         vmap_contents h2 (Properties sample_feature)
         = vmap_contents sample_feature_heap (Properties sample_feature)).
Proof.
  apply (GetAllProperties_independent sample_feature_heap sample_feature).
  apply sample_feature_ref_ok.
Defined.

(** X5.  [NewFeatureState] returns a feature state with two made,
    empty and distinct maps, no definition and [LastModified] at the
    instant read; what was in the store before is as it was. *)
Theorem NewFeatureState_fresh (h : Heap) (now : Time) :
  ∃ fs h',
    FeatureState.NewFeatureState now h = Some (fs, h')
    ∧ feature_live h' fs
    ∧ Properties fs ≠ DesiredProps fs
    ∧ vmap_contents h' (Properties fs) = ∅
    ∧ vmap_contents h' (DesiredProps fs) = ∅
    ∧ FeatureDefinition fs = [] ∧ LastModified fs = now
    ∧ (∀ key, FeatureState.GetProperty fs key h' = Some ((VNil, false), h'))
    ∧ (∀ r, ref_ok h r →
            r ≠ Properties fs ∧ r ≠ DesiredProps fs
            ∧ vmap_contents h' r = vmap_contents h r)
    ∧ h_fmaps h' = h_fmaps h ∧ h_twins h' = h_twins h.
Proof.
  unfold FeatureState.NewFeatureState, bind, ret, vmap_make. simpl.
  set (l1 := alloc_loc (h_vmaps h)).
  set (l2 := alloc_loc (<[l1 := ∅]> (h_vmaps h))).
  assert (H1 : h_vmaps h !! l1 = None) by apply alloc_loc_fresh.
  assert (H2 : (<[l1 := ∅]> (h_vmaps h)) !! l2 = None) by apply alloc_loc_fresh.
  assert (Hne : l2 ≠ l1).
  { intros Heq. rewrite Heq, lookup_insert_eq in H2. done. }
  assert (H2' : h_vmaps h !! l2 = None).
  { by rewrite lookup_insert_ne in H2. }
  eexists _, _. split; [reflexivity|]. simpl.
  assert (Hc1 : vmap_contents
            (mkHeap (<[l2 := ∅]> (<[l1 := ∅]> (h_vmaps h))) (h_fmaps h) (h_twins h))
            (Some l1) = ∅).
  { unfold vmap_contents. simpl.
    by rewrite lookup_insert_ne, lookup_insert_eq. }
  assert (Hc2 : vmap_contents
            (mkHeap (<[l2 := ∅]> (<[l1 := ∅]> (h_vmaps h))) (h_fmaps h) (h_twins h))
            (Some l2) = ∅).
  { unfold vmap_contents. simpl. by rewrite lookup_insert_eq. }
  split.
  { split; simpl.
    - exists l1, ∅. split; [done|]. simpl.
      by rewrite lookup_insert_ne, lookup_insert_eq.
    - exists l2, ∅. split; [done|]. simpl. by rewrite lookup_insert_eq. }
  split; [congruence|]. split; [exact Hc1|]. split; [exact Hc2|].
  split; [done|]. split; [done|]. split.
  { intros key. unfold FeatureState.GetProperty. simpl.
    rewrite vmap_get_contents, Hc1, lookup_empty. done. }
  split; [|done].
  intros r Hok.
  assert (Hr1 : r ≠ Some l1).
  { intros ->. destruct (Hok _ eq_refl) as [m Hm]. congruence. }
  assert (Hr2 : r ≠ Some l2).
  { intros ->. destruct (Hok _ eq_refl) as [m Hm]. congruence. }
  split; [exact Hr1|]. split; [exact Hr2|].
  unfold vmap_contents. destruct r as [l|]; simpl; [|done].
  rewrite !lookup_insert_ne by congruence. done.
Qed.

(** X6.  What [GetFeature] returns for a feature the twin does not have
    is the zero struct with the flag [false]; its maps are nil, so
    [SetProperty] and [SetDesiredProperty] on it panic, while the
    getters report absence and [RemoveProperty] returns. *)
Theorem absent_feature_is_zero (h : Heap) (dt : loc) (t : DigitalTwin)
    (id : string) (now : Time) (key : string) (value : Value) :
  h_twins h !! dt = Some t →
  fmap_contents h (Features t) !! id = None →
  ∃ f,
    DigitalTwin.GetFeature dt id h = Some ((f, false), h)
    ∧ FeatureState.SetProperty f now key value h = None
    ∧ FeatureState.SetDesiredProperty f now key value h = None
    ∧ FeatureState.GetProperty f key h = Some ((VNil, false), h)
    ∧ FeatureState.GetDesiredProperty f key h = Some ((VNil, false), h)
    ∧ ∃ f', FeatureState.RemoveProperty f now key h = Some (f', h)
            ∧ LastModified f' = now.
Proof.
  intros Ht Hid. exists zero_FeatureState.
  rewrite (GetFeature_stored _ _ _ _ Ht), Hid.
  split; [done|]. split; [done|]. split; [done|].
  unfold FeatureState.GetProperty, FeatureState.GetDesiredProperty. simpl.
  rewrite !vmap_get_contents. unfold vmap_contents. simpl.
  rewrite lookup_empty. split; [done|]. split; [done|].
  by eexists.
Qed.

Lemma absent_feature_is_zero_witness :
  ∃ f,
    DigitalTwin.GetFeature 1%positive "humidity" shared_heap
    = Some ((f, false), shared_heap)
    ∧ FeatureState.SetProperty f 9 "value" (VInt 1) shared_heap = None
    ∧ FeatureState.SetDesiredProperty f 9 "value" (VInt 1) shared_heap = None
    ∧ FeatureState.GetProperty f "value" shared_heap
      = Some ((VNil, false), shared_heap)
    ∧ FeatureState.GetDesiredProperty f "value" shared_heap
      = Some ((VNil, false), shared_heap)
    ∧ ∃ f', FeatureState.RemoveProperty f 9 "value" shared_heap
            = Some (f', shared_heap)
            ∧ LastModified f' = 9.
Proof.
  apply (absent_feature_is_zero shared_heap 1%positive shared_twin "humidity" 9
           "value" (VInt 1)); vm_compute; reflexivity.
Defined.

(* ================================================================== *)
(** * DigitalTwin: attributes, definition, identity *)
(* ================================================================== *)

Lemma GetAttribute_stored h dt t key :
  h_twins h !! dt = Some t →
  DigitalTwin.GetAttribute dt key h = vmap_get (Attributes t) key h.
Proof.
  intros Ht. unfold DigitalTwin.GetAttribute, bind, load_twin. by rewrite Ht.
Qed.

Lemma store_twin_run h dt t t' :
  h_twins h !! dt = Some t →
  store_twin dt t' h
  = Some (tt, mkHeap (h_vmaps h) (h_fmaps h) (<[dt := t']> (h_twins h))).
Proof. intros Ht. unfold store_twin. by rewrite Ht. Qed.

(** The store [SetAttribute] leaves. *)
Lemma SetAttribute_store h dt t now key value l m :
  h_twins h !! dt = Some t →
  Attributes t = Some l → h_vmaps h !! l = Some m →
  DigitalTwin.SetAttribute dt now key value h
  = Some (tt, mkHeap (<[l := <[key := value]> m]> (h_vmaps h)) (h_fmaps h)
                     (<[dt := touch t now]> (h_twins h))).
Proof.
  intros Ht Hl Hm.
  unfold DigitalTwin.SetAttribute, bind, load_twin, vmap_set, store_twin.
  rewrite Ht, Hl, Hm. simpl. by rewrite Ht.
Qed.

(** X7.  [SetAttribute] on a twin with a made attribute map returns;
    the attribute then reads back with the flag [true], the other
    attributes read as before, the twin's [ModifiedAt] is the instant
    read, and no other twin and no feature map is touched. *)
Theorem SetAttribute_GetAttribute (h : Heap) (dt : loc) (t : DigitalTwin)
    (now : Time) (key : string) (value : Value) :
  h_twins h !! dt = Some t →
  vmap_live h (Attributes t) →
  ∃ h',
    DigitalTwin.SetAttribute dt now key value h = Some (tt, h')
    ∧ DigitalTwin.GetAttribute dt key h' = Some ((value, true), h')
    ∧ (∀ k, k ≠ key →
         fst <$> DigitalTwin.GetAttribute dt k h'
         = fst <$> DigitalTwin.GetAttribute dt k h)
    ∧ h_twins h' !! dt = Some (touch t now)
    ∧ (∀ p, p ≠ dt → h_twins h' !! p = h_twins h !! p)
    ∧ h_fmaps h' = h_fmaps h.
Proof.
  intros Ht (l & m & Hl & Hm).
  rewrite (SetAttribute_store h dt t now key value l m Ht Hl Hm).
  eexists. split; [reflexivity|].
  set (h' := mkHeap (<[l := <[key := value]> m]> (h_vmaps h)) (h_fmaps h)
                    (<[dt := touch t now]> (h_twins h))).
  assert (Ht' : h_twins h' !! dt = Some (touch t now)) by apply lookup_insert_eq.
  assert (Hc : vmap_contents h' (Attributes t) = <[key := value]> m).
  { unfold vmap_contents. rewrite Hl. simpl. by rewrite lookup_insert_eq. }
  assert (Hc0 : vmap_contents h (Attributes t) = m).
  { unfold vmap_contents. rewrite Hl. simpl. by rewrite Hm. }
  split; [|split; [|split; [exact Ht'|split; [|done]]]].
  - rewrite (GetAttribute_stored h' dt (touch t now) _ Ht'), vmap_get_contents.
    simpl. by rewrite Hc, lookup_insert_eq.
  - intros k Hk.
    rewrite (GetAttribute_stored h' dt (touch t now) _ Ht').
    rewrite (GetAttribute_stored h dt t _ Ht), !vmap_get_contents. simpl.
    by rewrite Hc, Hc0, lookup_insert_ne.
  - intros p Hp. simpl. by rewrite lookup_insert_ne.
Qed.

Lemma shared_twin_live : h_twins shared_heap !! 1%positive = Some shared_twin.
Proof. vm_compute. reflexivity. Qed.

Lemma shared_twin_attributes_live : vmap_live shared_heap (Attributes shared_twin).
Proof. exists 3%positive, ∅. split; [reflexivity | vm_compute; reflexivity]. Qed.

Lemma SetAttribute_GetAttribute_witness :
  ∃ h',
    DigitalTwin.SetAttribute 1%positive 6 "location" (VString "kitchen") shared_heap
    = Some (tt, h')
    ∧ DigitalTwin.GetAttribute 1%positive "location" h'
      = Some ((VString "kitchen", true), h')
    ∧ (∀ k, k ≠ "location" →
         fst <$> DigitalTwin.GetAttribute 1%positive k h'
         = fst <$> DigitalTwin.GetAttribute 1%positive k shared_heap)
    ∧ h_twins h' !! 1%positive = Some (touch shared_twin 6)
    ∧ (∀ p, p ≠ 1%positive → h_twins h' !! p = h_twins shared_heap !! p)
    ∧ h_fmaps h' = h_fmaps shared_heap.
Proof.
  apply (SetAttribute_GetAttribute shared_heap 1%positive shared_twin 6
           "location" (VString "kitchen")).
  - apply shared_twin_live.
  - apply shared_twin_attributes_live.
Defined.

(** X8.  [RemoveAttribute] on a twin returns whether or not the key is
    there; afterwards the key reads as absent, the other attributes
    read as before, and [ModifiedAt] is the instant read even when
    nothing was removed. *)
Theorem RemoveAttribute_GetAttribute (h : Heap) (dt : loc) (t : DigitalTwin)
    (now : Time) (key : string) :
  h_twins h !! dt = Some t →
  ∃ h',
    DigitalTwin.RemoveAttribute dt now key h = Some (tt, h')
    ∧ DigitalTwin.GetAttribute dt key h' = Some ((VNil, false), h')
    ∧ (∀ k, k ≠ key →
         fst <$> DigitalTwin.GetAttribute dt k h'
         = fst <$> DigitalTwin.GetAttribute dt k h)
    ∧ h_twins h' !! dt = Some (touch t now).
Proof.
  intros Ht.
  unfold DigitalTwin.RemoveAttribute, bind, load_twin. rewrite Ht.
  destruct (vmap_delete_contents (Attributes t) key h)
    as (h1 & Hdel & Hc & _ & _ & Htw).
  rewrite Hdel, (store_twin_run h1 dt t) by (by rewrite Htw).
  eexists. split; [reflexivity|].
  split; [|split]; simpl.
  - rewrite (GetAttribute_stored _ dt (touch t now)) by apply lookup_insert_eq.
    rewrite vmap_get_contents. simpl.
    rewrite (vmap_contents_ext _ h1) by done.
    by rewrite Hc, lookup_delete_eq.
  - intros k Hk.
    rewrite (GetAttribute_stored _ dt (touch t now)) by apply lookup_insert_eq.
    rewrite (GetAttribute_stored h dt t _ Ht), !vmap_get_contents. simpl.
    rewrite (vmap_contents_ext _ h1) by done.
    by rewrite Hc, lookup_delete_ne.
  - apply lookup_insert_eq.
Qed.

Lemma RemoveAttribute_GetAttribute_witness :
  ∃ h',
    DigitalTwin.RemoveAttribute 1%positive 6 "location" shared_heap = Some (tt, h')
    ∧ DigitalTwin.GetAttribute 1%positive "location" h' = Some ((VNil, false), h')
    ∧ (∀ k, k ≠ "location" →
         fst <$> DigitalTwin.GetAttribute 1%positive k h'
         = fst <$> DigitalTwin.GetAttribute 1%positive k shared_heap)
    ∧ h_twins h' !! 1%positive = Some (touch shared_twin 6).
Proof.
  apply (RemoveAttribute_GetAttribute shared_heap 1%positive shared_twin 6
           "location").
  apply shared_twin_live.
Defined.

(** X9.  [GetAllAttributes] returns a map of its own with the twin's
    attributes: a later [SetAttribute] or [RemoveAttribute] on the twin
    does not reach the copy, and an assignment to the copy does not
    reach the twin. *)
Theorem GetAllAttributes_independent (h : Heap) (dt : loc) (t : DigitalTwin) :
  h_twins h !! dt = Some t →
  ref_ok h (Attributes t) →
  ∃ c h1,
    DigitalTwin.GetAllAttributes dt h = Some (c, h1)
    ∧ c ≠ Attributes t
    ∧ vmap_contents h1 c = vmap_contents h (Attributes t)
    ∧ h_twins h1 = h_twins h
    ∧ (∀ now key value u h2,
         DigitalTwin.SetAttribute dt now key value h1 = Some (u, h2) →
         vmap_contents h2 c = vmap_contents h (Attributes t))
    ∧ (∀ now key u h2,
         DigitalTwin.RemoveAttribute dt now key h1 = Some (u, h2) →
         vmap_contents h2 c = vmap_contents h (Attributes t))
    ∧ (∀ key value u h2,
         vmap_set c key value h1 = Some (u, h2) →
         ∀ k, DigitalTwin.GetAttribute dt k h2
              = (λ res, (res.1, h2)) <$> DigitalTwin.GetAttribute dt k h).
Proof.
  intros Ht Hok.
  destruct (vmap_copy_spec (Attributes t) h)
    as (l & h1 & Hrun & _ & Hc & Hold & _ & Htw).
  destruct (Hold _ Hok) as [Hne Hsame].
  assert (Ht1 : h_twins h1 !! dt = Some t) by (by rewrite Htw).
  exists (Some l), h1.
  unfold DigitalTwin.GetAllAttributes, bind, load_twin. rewrite Ht.
  split; [exact Hrun|]. split; [congruence|]. split; [exact Hc|].
  split; [exact Htw|]. split; [|split].
  - intros now key value u h2.
    unfold DigitalTwin.SetAttribute, bind, load_twin. rewrite Ht1.
    destruct (vmap_set (Attributes t) key value h1) as [[[] h2']|] eqn:Hset;
      [|done].
    destruct (vmap_set_contents _ _ _ _ _ _ Hset) as (_ & Hf & _ & Htw2).
    rewrite (store_twin_run h2' dt t) by (by rewrite Htw2).
    intros [= <- <-]. rewrite (vmap_contents_ext _ h2') by done.
    rewrite (Hf (Some l)) by congruence. exact Hc.
  - intros now key u h2.
    unfold DigitalTwin.RemoveAttribute, bind, load_twin. rewrite Ht1.
    destruct (vmap_delete_contents (Attributes t) key h1)
      as (h2' & Hdel & _ & Hf & _ & Htw2).
    rewrite Hdel, (store_twin_run h2' dt t) by (by rewrite Htw2).
    intros [= <- <-]. rewrite (vmap_contents_ext _ h2') by done.
    rewrite (Hf (Some l)) by congruence. exact Hc.
  - intros key value u h2 Hset k.
    destruct (vmap_set_contents _ _ _ _ _ _ Hset) as (_ & Hf & _ & Htw2).
    rewrite (GetAttribute_stored h2 dt t) by (by rewrite Htw2).
    rewrite (GetAttribute_stored h dt t _ Ht), !vmap_get_contents. simpl.
    rewrite (Hf (Attributes t)) by congruence. by rewrite Hsame.
Qed.

Lemma GetAllAttributes_independent_witness :
  ∃ c h1,
    DigitalTwin.GetAllAttributes 1%positive shared_heap = Some (c, h1)
    ∧ c ≠ Attributes shared_twin
    ∧ vmap_contents h1 c = vmap_contents shared_heap (Attributes shared_twin)
    ∧ h_twins h1 = h_twins shared_heap
    ∧ (∀ now key value u h2,
         DigitalTwin.SetAttribute 1%positive now key value h1 = Some (u, h2) →
         vmap_contents h2 c = vmap_contents shared_heap (Attributes shared_twin))
    ∧ (∀ now key u h2,
         DigitalTwin.RemoveAttribute 1%positive now key h1 = Some (u, h2) →
         vmap_contents h2 c = vmap_contents shared_heap (Attributes shared_twin))
    ∧ (∀ key value u h2,
         vmap_set c key value h1 = Some (u, h2) →
         ∀ k, DigitalTwin.GetAttribute 1%positive k h2
              = (λ res, (res.1, h2)) <$> DigitalTwin.GetAttribute 1%positive k
                                           shared_heap).
Proof.
  apply (GetAllAttributes_independent shared_heap 1%positive shared_twin).
  - apply shared_twin_live.
  - intros l [= <-]. exists ∅. vm_compute. reflexivity.
Defined.

Lemma fmap_get_contents r id h :
  fmap_get r id h
  = Some (match fmap_contents h r !! id with
          | Some f => (f, true)
          | None => (zero_FeatureState, false)
          end, h).
Proof. unfold fmap_get. by destruct (fmap_contents h r !! id). Qed.

Lemma fmap_set_contents r id f h u h' :
  fmap_set r id f h = Some (u, h') →
  fmap_contents h' r = <[id := f]> (fmap_contents h r)
  ∧ (∀ r', r' ≠ r → fmap_contents h' r' = fmap_contents h r')
  ∧ h_vmaps h' = h_vmaps h ∧ h_twins h' = h_twins h.
Proof.
  unfold fmap_set. destruct r as [l|]; [|done].
  destruct (h_fmaps h !! l) as [m|] eqn:Hm; [|done].
  intros [= <- <-]. unfold fmap_contents. simpl.
  rewrite lookup_insert_eq, Hm. split; [done|]. split; [|done].
  intros [l'|] Hne; simpl; [|done].
  rewrite lookup_insert_ne; [done | congruence].
Qed.

Lemma fmap_delete_contents r id h :
  ∃ h', fmap_delete r id h = Some (tt, h')
        ∧ fmap_contents h' r = delete id (fmap_contents h r)
        ∧ (∀ r', r' ≠ r → fmap_contents h' r' = fmap_contents h r')
        ∧ h_vmaps h' = h_vmaps h ∧ h_twins h' = h_twins h.
Proof.
  unfold fmap_delete. destruct r as [l|].
  - eexists. split; [reflexivity|]. unfold fmap_contents. simpl.
    rewrite lookup_alter_eq. split.
    + destruct (h_fmaps h !! l); simpl; [done | by rewrite delete_empty].
    + split; [|done]. intros [l'|] Hne; simpl; [|done].
      rewrite lookup_alter_ne; [done | congruence].
  - exists h. split; [done|]. unfold fmap_contents. simpl.
    by rewrite delete_empty.
Qed.

(** X10.  Whatever mutating method is called on a twin, and whether it
    succeeds or fails, the twin keeps its [ID], [Type], [CreatedAt] and
    its two maps, and no other twin is touched.  [ModifiedAt] becomes
    the instant read when the call returns no error; a call that
    returns an error leaves the whole store as it was. *)
Theorem twin_identity_kept (h : Heap) (dt : loc) (t : DigitalTwin) (now : Time)
    (c : TwinCall) (e : option TwinError) (h' : Heap) :
  h_twins h !! dt = Some t →
  twin_call dt now c h = Some (e, h') →
  (∃ t', h_twins h' !! dt = Some t'
         ∧ ID t' = ID t ∧ TwinType t' = TwinType t
         ∧ CreatedAt t' = CreatedAt t
         ∧ Attributes t' = Attributes t ∧ Features t' = Features t
         ∧ ModifiedAt t' = match e with Some _ => ModifiedAt t | None => now end)
  ∧ (∀ p, p ≠ dt → h_twins h' !! p = h_twins h !! p)
  ∧ (is_Some e → h' = h).
Proof.
  intros Ht.
  assert (Hdone : ∀ h1 t', h_twins h1 = h_twins h →
            ID t' = ID t → TwinType t' = TwinType t → CreatedAt t' = CreatedAt t →
            Attributes t' = Attributes t → Features t' = Features t →
            ModifiedAt t' = now →
            ∀ h2, store_twin dt t' h1 = Some (tt, h2) →
            (∃ t'', h_twins h2 !! dt = Some t''
               ∧ ID t'' = ID t ∧ TwinType t'' = TwinType t
               ∧ CreatedAt t'' = CreatedAt t
               ∧ Attributes t'' = Attributes t ∧ Features t'' = Features t
               ∧ ModifiedAt t'' = now)
            ∧ (∀ p, p ≠ dt → h_twins h2 !! p = h_twins h !! p)
            ∧ (is_Some (@None TwinError) → h2 = h)).
  { intros h1 t' Htw ????? Hmod h2.
    rewrite (store_twin_run h1 dt t) by (by rewrite Htw). intros [= <-]. simpl.
    split; [|split].
    - exists t'. rewrite lookup_insert_eq. done.
    - intros p Hp. rewrite lookup_insert_ne by done. by rewrite Htw.
    - by intros [? ?]. }
  assert (Hfail : ∀ err,
            (∃ t', h_twins h !! dt = Some t'
               ∧ ID t' = ID t ∧ TwinType t' = TwinType t
               ∧ CreatedAt t' = CreatedAt t
               ∧ Attributes t' = Attributes t ∧ Features t' = Features t
               ∧ ModifiedAt t' = ModifiedAt t)
            ∧ (∀ p, p ≠ dt → h_twins h !! p = h_twins h !! p)
            ∧ (is_Some (Some err : option TwinError) → h = h)).
  { intros err. split; [by exists t | done]. }
  destruct c as [d|key value|key|id f|id f|id]; simpl;
    unfold DigitalTwin.SetDefinition, DigitalTwin.SetAttribute,
      DigitalTwin.RemoveAttribute, DigitalTwin.AddFeature,
      DigitalTwin.UpdateFeature, DigitalTwin.RemoveFeature, bind, ret, load_twin;
    rewrite Ht.
  - destruct (store_twin dt _ h) as [[[] h2]|] eqn:Hst; [|done].
    intros [= <- <-]. by eapply (Hdone h); [| | | | | | |exact Hst].
  - destruct (vmap_set (Attributes t) key value h) as [[[] h1]|] eqn:Hset; [|done].
    destruct (vmap_set_contents _ _ _ _ _ _ Hset) as (_ & _ & _ & Htw).
    destruct (store_twin dt _ h1) as [[[] h2]|] eqn:Hst; [|done].
    intros [= <- <-]. by eapply (Hdone h1); [| | | | | | |exact Hst].
  - destruct (vmap_delete_contents (Attributes t) key h) as (h1 & Hdel & _ & _ & _ & Htw).
    rewrite Hdel.
    destruct (store_twin dt _ h1) as [[[] h2]|] eqn:Hst; [|done].
    intros [= <- <-]. by eapply (Hdone h1); [| | | | | | |exact Hst].
  - rewrite fmap_get_contents.
    destruct (fmap_contents h (Features t) !! id) as [old|].
    + intros [= <- <-]. apply Hfail.
    + destruct (fmap_set (Features t) id f h) as [[[] h1]|] eqn:Hset; [|done].
      destruct (fmap_set_contents _ _ _ _ _ _ Hset) as (_ & _ & _ & Htw).
      destruct (store_twin dt _ h1) as [[[] h2]|] eqn:Hst; [|done].
      intros [= <- <-]. by eapply (Hdone h1); [| | | | | | |exact Hst].
  - rewrite fmap_get_contents.
    destruct (fmap_contents h (Features t) !! id) as [old|]; simpl.
    + destruct (fmap_set (Features t) id f h) as [[[] h1]|] eqn:Hset; [|done].
      destruct (fmap_set_contents _ _ _ _ _ _ Hset) as (_ & _ & _ & Htw).
      destruct (store_twin dt _ h1) as [[[] h2]|] eqn:Hst; [|done].
      intros [= <- <-]. by eapply (Hdone h1); [| | | | | | |exact Hst].
    + intros [= <- <-]. apply Hfail.
  - rewrite fmap_get_contents.
    destruct (fmap_contents h (Features t) !! id) as [old|]; simpl.
    + destruct (fmap_delete_contents (Features t) id h) as (h1 & Hdel & _ & _ & _ & Htw).
      rewrite Hdel.
      destruct (store_twin dt _ h1) as [[[] h2]|] eqn:Hst; [|done].
      intros [= <- <-]. by eapply (Hdone h1); [| | | | | | |exact Hst].
    + intros [= <- <-]. apply Hfail.
Qed.

Lemma twin_identity_kept_witness :
  ∃ h',
    twin_call 1%positive 9 (TSetAttribute "location" (VString "kitchen"))
      shared_heap = Some (None, h')
    ∧ (∃ t', h_twins h' !! 1%positive = Some t'
             ∧ ID t' = ID shared_twin ∧ TwinType t' = TwinType shared_twin
             ∧ CreatedAt t' = CreatedAt shared_twin
             ∧ Attributes t' = Attributes shared_twin
             ∧ Features t' = Features shared_twin
             ∧ ModifiedAt t' = 9)
    ∧ (∀ p, p ≠ 1%positive → h_twins h' !! p = h_twins shared_heap !! p)
    ∧ (is_Some (@None TwinError) → h' = shared_heap).
Proof.
  eexists. split; [vm_compute; reflexivity|].
  eapply (twin_identity_kept shared_heap 1%positive shared_twin 9
            (TSetAttribute "location" (VString "kitchen")) None).
  - apply shared_twin_live.
  - vm_compute. reflexivity.
Defined.

(* ================================================================== *)
(** * DigitalTwin: the feature map *)
(* ================================================================== *)

Lemma GetFeature_touched h1 dt t now id :
  DigitalTwin.GetFeature dt id
    (mkHeap (h_vmaps h1) (h_fmaps h1) (<[dt := touch t now]> (h_twins h1)))
  = Some (match fmap_contents h1 (Features t) !! id with
          | Some f => (f, true)
          | None => (zero_FeatureState, false)
          end,
          mkHeap (h_vmaps h1) (h_fmaps h1) (<[dt := touch t now]> (h_twins h1))).
Proof.
  rewrite (GetFeature_stored _ dt (touch t now)) by apply lookup_insert_eq.
  simpl. by rewrite (fmap_contents_ext _ h1) by done.
Qed.

Lemma GetAttribute_touched h1 dt t now key :
  DigitalTwin.GetAttribute dt key
    (mkHeap (h_vmaps h1) (h_fmaps h1) (<[dt := touch t now]> (h_twins h1)))
  = Some (match vmap_contents h1 (Attributes t) !! key with
          | Some v => (v, true)
          | None => (VNil, false)
          end,
          mkHeap (h_vmaps h1) (h_fmaps h1) (<[dt := touch t now]> (h_twins h1))).
Proof.
  rewrite (GetAttribute_stored _ dt (touch t now)) by apply lookup_insert_eq.
  rewrite vmap_get_contents. simpl. by rewrite (vmap_contents_ext _ h1) by done.
Qed.

(** X11.  [AddFeature] of a feature the twin does not have, on a twin
    with a made feature map, returns no error; [GetFeature] then
    returns that feature with the flag [true], and the other features
    and the attributes read as before. *)
Theorem AddFeature_GetFeature (h : Heap) (dt : loc) (t : DigitalTwin)
    (now : Time) (id : string) (feature : FeatureState) :
  h_twins h !! dt = Some t →
  fmap_live h (Features t) →
  fmap_contents h (Features t) !! id = None →
  ∃ h',
    DigitalTwin.AddFeature dt now id feature h = Some (None, h')
    ∧ DigitalTwin.GetFeature dt id h' = Some ((feature, true), h')
    ∧ (∀ id', id' ≠ id →
         fst <$> DigitalTwin.GetFeature dt id' h'
         = fst <$> DigitalTwin.GetFeature dt id' h)
    ∧ (∀ key, fst <$> DigitalTwin.GetAttribute dt key h'
              = fst <$> DigitalTwin.GetAttribute dt key h).
Proof.
  intros Ht (l & m & Hl & Hm) Hid.
  unfold DigitalTwin.AddFeature, bind, ret, load_twin. rewrite Ht.
  rewrite fmap_get_contents, Hid.
  destruct (fmap_set (Features t) id feature h) as [[[] h1]|] eqn:Hset;
    [|unfold fmap_set in Hset; by rewrite Hl, Hm in Hset].
  destruct (fmap_set_contents _ _ _ _ _ _ Hset) as (Hc & _ & Hv & Htw).
  rewrite (store_twin_run h1 dt t) by (by rewrite Htw).
  eexists. split; [reflexivity|]. split; [|split].
  - by rewrite GetFeature_touched, Hc, lookup_insert_eq.
  - intros id' Hne.
    rewrite GetFeature_touched, Hc, lookup_insert_ne by done.
    by rewrite (GetFeature_stored h dt t id' Ht).
  - intros key. rewrite GetAttribute_touched.
    rewrite (GetAttribute_stored h dt t _ Ht), vmap_get_contents.
    by rewrite (vmap_contents_ext h1 h).
Qed.

Lemma shared_twin_features_live : fmap_live shared_heap (Features shared_twin).
Proof.
  exists 1%positive, {["temp" := shared_copy]}.
  split; [reflexivity | vm_compute; reflexivity].
Qed.

Lemma AddFeature_GetFeature_witness :
  ∃ h',
    DigitalTwin.AddFeature 1%positive 8 "humidity" sample_feature shared_heap
    = Some (None, h')
    ∧ DigitalTwin.GetFeature 1%positive "humidity" h'
      = Some ((sample_feature, true), h')
    ∧ (∀ id', id' ≠ "humidity" →
         fst <$> DigitalTwin.GetFeature 1%positive id' h'
         = fst <$> DigitalTwin.GetFeature 1%positive id' shared_heap)
    ∧ (∀ key, fst <$> DigitalTwin.GetAttribute 1%positive key h'
              = fst <$> DigitalTwin.GetAttribute 1%positive key shared_heap).
Proof.
  apply (AddFeature_GetFeature shared_heap 1%positive shared_twin 8 "humidity"
           sample_feature).
  - apply shared_twin_live.
  - apply shared_twin_features_live.
  - vm_compute. reflexivity.
Defined.

(** X12.  [UpdateFeature] of a feature the twin has returns no error
    and replaces it: [GetFeature] returns the new feature state, the
    other features read as before, and the twin's [ModifiedAt] is the
    instant read. *)
Theorem UpdateFeature_GetFeature (h : Heap) (dt : loc) (t : DigitalTwin)
    (now : Time) (id : string) (old feature : FeatureState) :
  h_twins h !! dt = Some t →
  fmap_contents h (Features t) !! id = Some old →
  ∃ h',
    DigitalTwin.UpdateFeature dt now id feature h = Some (None, h')
    ∧ DigitalTwin.GetFeature dt id h' = Some ((feature, true), h')
    ∧ (∀ id', id' ≠ id →
         fst <$> DigitalTwin.GetFeature dt id' h'
         = fst <$> DigitalTwin.GetFeature dt id' h)
    ∧ h_twins h' !! dt = Some (touch t now).
Proof.
  intros Ht Hid.
  destruct (fmap_contents_Some _ _ _ _ Hid) as (l & Hl & Hm).
  unfold DigitalTwin.UpdateFeature, bind, ret, load_twin. rewrite Ht.
  rewrite fmap_get_contents, Hid. simpl.
  destruct (fmap_set (Features t) id feature h) as [[[] h1]|] eqn:Hset;
    [|unfold fmap_set in Hset; by rewrite Hl, Hm in Hset].
  destruct (fmap_set_contents _ _ _ _ _ _ Hset) as (Hc & _ & Hv & Htw).
  rewrite (store_twin_run h1 dt t) by (by rewrite Htw).
  eexists. split; [reflexivity|]. split; [|split].
  - by rewrite GetFeature_touched, Hc, lookup_insert_eq.
  - intros id' Hne.
    rewrite GetFeature_touched, Hc, lookup_insert_ne by done.
    by rewrite (GetFeature_stored h dt t id' Ht).
  - simpl. apply lookup_insert_eq.
Qed.

Lemma UpdateFeature_GetFeature_witness :
  ∃ h',
    DigitalTwin.UpdateFeature 1%positive 8 "temp" sample_feature shared_heap
    = Some (None, h')
    ∧ DigitalTwin.GetFeature 1%positive "temp" h'
      = Some ((sample_feature, true), h')
    ∧ (∀ id', id' ≠ "temp" →
         fst <$> DigitalTwin.GetFeature 1%positive id' h'
         = fst <$> DigitalTwin.GetFeature 1%positive id' shared_heap)
    ∧ h_twins h' !! 1%positive = Some (touch shared_twin 8).
Proof.
  apply (UpdateFeature_GetFeature shared_heap 1%positive shared_twin 8 "temp"
           shared_copy sample_feature).
  - apply shared_twin_live.
  - vm_compute. reflexivity.
Defined.

(** X13.  [RemoveFeature] of a feature the twin has returns no error;
    the feature is then gone ([GetFeature] gives the flag [false], a
    second [RemoveFeature] gives [ErrFeatureNotFound]), the other
    features read as before, and the same id can be added again. *)
Theorem RemoveFeature_GetFeature (h : Heap) (dt : loc) (t : DigitalTwin)
    (now now2 : Time) (id : string) (old feature : FeatureState) :
  h_twins h !! dt = Some t →
  fmap_contents h (Features t) !! id = Some old →
  ∃ h',
    DigitalTwin.RemoveFeature dt now id h = Some (None, h')
    ∧ DigitalTwin.GetFeature dt id h' = Some ((zero_FeatureState, false), h')
    ∧ (∀ id', id' ≠ id →
         fst <$> DigitalTwin.GetFeature dt id' h'
         = fst <$> DigitalTwin.GetFeature dt id' h)
    ∧ DigitalTwin.RemoveFeature dt now2 id h' = Some (Some ErrFeatureNotFound, h')
    ∧ ∃ h'', DigitalTwin.AddFeature dt now2 id feature h' = Some (None, h'')
             ∧ DigitalTwin.GetFeature dt id h'' = Some ((feature, true), h'').
Proof.
  intros Ht Hid.
  destruct (fmap_contents_Some _ _ _ _ Hid) as (l & Hl & Hm).
  unfold DigitalTwin.RemoveFeature at 1. unfold bind, ret, load_twin. rewrite Ht.
  rewrite fmap_get_contents, Hid. simpl.
  destruct (fmap_delete_contents (Features t) id h) as (h1 & Hdel & Hc & _ & Hv & Htw).
  rewrite Hdel, (store_twin_run h1 dt t) by (by rewrite Htw).
  set (h' := mkHeap (h_vmaps h1) (h_fmaps h1) (<[dt := touch t now]> (h_twins h1))).
  assert (Ht' : h_twins h' !! dt = Some (touch t now)) by apply lookup_insert_eq.
  assert (Hc' : fmap_contents h' (Features (touch t now)) !! id = None).
  { simpl. rewrite (fmap_contents_ext h' h1) by done.
    by rewrite Hc, lookup_delete_eq. }
  exists h'. split; [reflexivity|]. split; [|split; [|split]].
  - subst h'. by rewrite GetFeature_touched, Hc, lookup_delete_eq.
  - intros id' Hne. subst h'.
    rewrite GetFeature_touched, Hc, lookup_delete_ne by done.
    by rewrite (GetFeature_stored h dt t id' Ht).
  - by apply (feature_absent h' dt (touch t now) id Ht' Hc' now2 feature).
  - destruct (AddFeature_absent h' dt (touch t now) id now2 feature Ht')
      as (h'' & Hadd & Ht'' & Hf''); [|exact Hc'|].
    { exists l. unfold fmap_delete in Hdel. rewrite Hl in Hdel.
      injection Hdel as <-. simpl. eexists. split; [exact Hl|].
      rewrite lookup_alter_eq, Hm. reflexivity. }
    exists h''. split; [exact Hadd|].
    rewrite (GetFeature_stored _ _ _ _ Ht''). simpl. simpl in Hf''.
    by rewrite Hf''.
Qed.

Lemma RemoveFeature_GetFeature_witness :
  ∃ h',
    DigitalTwin.RemoveFeature 1%positive 8 "temp" shared_heap = Some (None, h')
    ∧ DigitalTwin.GetFeature 1%positive "temp" h'
      = Some ((zero_FeatureState, false), h')
    ∧ (∀ id', id' ≠ "temp" →
         fst <$> DigitalTwin.GetFeature 1%positive id' h'
         = fst <$> DigitalTwin.GetFeature 1%positive id' shared_heap)
    ∧ DigitalTwin.RemoveFeature 1%positive 9 "temp" h'
      = Some (Some ErrFeatureNotFound, h')
    ∧ ∃ h'', DigitalTwin.AddFeature 1%positive 9 "temp" sample_feature h'
             = Some (None, h'')
             ∧ DigitalTwin.GetFeature 1%positive "temp" h''
               = Some ((sample_feature, true), h'').
Proof.
  apply (RemoveFeature_GetFeature shared_heap 1%positive shared_twin 8 9 "temp"
           shared_copy sample_feature).
  - apply shared_twin_live.
  - vm_compute. reflexivity.
Defined.

Lemma store_twin_frame dt t' h u h' :
  store_twin dt t' h = Some (u, h') →
  h_vmaps h' = h_vmaps h ∧ h_fmaps h' = h_fmaps h.
Proof.
  unfold store_twin. destruct (h_twins h !! dt); [|done]. by intros [= <- <-].
Qed.

Lemma twin_call_maps h dt t now c e h' :
  h_twins h !! dt = Some t →
  twin_call dt now c h = Some (e, h') →
  (∀ r, r ≠ Attributes t → vmap_contents h' r = vmap_contents h r)
  ∧ (∀ r, r ≠ Features t → fmap_contents h' r = fmap_contents h r).
Proof.
  intros Ht.
  assert (Hst : ∀ h1 t' h2,
            (∀ r, r ≠ Attributes t → vmap_contents h1 r = vmap_contents h r) →
            (∀ r, r ≠ Features t → fmap_contents h1 r = fmap_contents h r) →
            store_twin dt t' h1 = Some (tt, h2) →
            (∀ r, r ≠ Attributes t → vmap_contents h2 r = vmap_contents h r)
            ∧ (∀ r, r ≠ Features t → fmap_contents h2 r = fmap_contents h r)).
  { intros h1 t' h2 Hv Hf Hrun.
    destruct (store_twin_frame _ _ _ _ _ Hrun) as [Hv2 Hf2]. split; intros r Hr.
    - rewrite (vmap_contents_ext h2 h1) by done. by apply Hv.
    - rewrite (fmap_contents_ext h2 h1) by done. by apply Hf. }
  destruct c as [d|key value|key|id f|id f|id]; simpl;
    unfold DigitalTwin.SetDefinition, DigitalTwin.SetAttribute,
      DigitalTwin.RemoveAttribute, DigitalTwin.AddFeature,
      DigitalTwin.UpdateFeature, DigitalTwin.RemoveFeature, bind, ret, load_twin;
    rewrite Ht.
  - destruct (store_twin dt _ h) as [[[] h2]|] eqn:Hrun; [|done].
    intros [= <- <-]. by eapply Hst; [| |exact Hrun].
  - destruct (vmap_set (Attributes t) key value h) as [[[] h1]|] eqn:Hset; [|done].
    destruct (vmap_set_contents _ _ _ _ _ _ Hset) as (_ & Hv & Hf & _).
    destruct (store_twin dt _ h1) as [[[] h2]|] eqn:Hrun; [|done].
    intros [= <- <-]. eapply Hst; [exact Hv| |exact Hrun].
    intros r _. by apply fmap_contents_ext.
  - destruct (vmap_delete_contents (Attributes t) key h) as (h1 & Hdel & _ & Hv & Hf & _).
    rewrite Hdel.
    destruct (store_twin dt _ h1) as [[[] h2]|] eqn:Hrun; [|done].
    intros [= <- <-]. eapply Hst; [exact Hv| |exact Hrun].
    intros r _. by apply fmap_contents_ext.
  - rewrite fmap_get_contents.
    destruct (fmap_contents h (Features t) !! id) as [old|]; [by intros [= <- <-]|].
    destruct (fmap_set (Features t) id f h) as [[[] h1]|] eqn:Hset; [|done].
    destruct (fmap_set_contents _ _ _ _ _ _ Hset) as (_ & Hf & Hv & _).
    destruct (store_twin dt _ h1) as [[[] h2]|] eqn:Hrun; [|done].
    intros [= <- <-]. eapply Hst; [|exact Hf|exact Hrun].
    intros r _. by apply vmap_contents_ext.
  - rewrite fmap_get_contents.
    destruct (fmap_contents h (Features t) !! id) as [old|]; simpl;
      [|by intros [= <- <-]].
    destruct (fmap_set (Features t) id f h) as [[[] h1]|] eqn:Hset; [|done].
    destruct (fmap_set_contents _ _ _ _ _ _ Hset) as (_ & Hf & Hv & _).
    destruct (store_twin dt _ h1) as [[[] h2]|] eqn:Hrun; [|done].
    intros [= <- <-]. eapply Hst; [|exact Hf|exact Hrun].
    intros r _. by apply vmap_contents_ext.
  - rewrite fmap_get_contents.
    destruct (fmap_contents h (Features t) !! id) as [old|]; simpl;
      [|by intros [= <- <-]].
    destruct (fmap_delete_contents (Features t) id h) as (h1 & Hdel & _ & Hf & Hv & _).
    rewrite Hdel.
    destruct (store_twin dt _ h1) as [[[] h2]|] eqn:Hrun; [|done].
    intros [= <- <-]. eapply Hst; [|exact Hf|exact Hrun].
    intros r _. by apply vmap_contents_ext.
Qed.

(** X14.  No mutating method of a twin changes a property or a
    desired property of a feature state: whatever the call, and whether
    it succeeds or fails, [GetProperty] and [GetDesiredProperty] on any
    feature state whose maps are not the twin's attribute map return
    afterwards what they returned before. *)
Theorem twin_call_keeps_properties (h : Heap) (dt : loc) (t : DigitalTwin)
    (now : Time) (c : TwinCall) (e : option TwinError) (h' : Heap) :
  h_twins h !! dt = Some t →
  twin_call dt now c h = Some (e, h') →
  ∀ f key,
    (Properties f ≠ Attributes t →
     fst <$> FeatureState.GetProperty f key h'
     = fst <$> FeatureState.GetProperty f key h)
    ∧ (DesiredProps f ≠ Attributes t →
       fst <$> FeatureState.GetDesiredProperty f key h'
       = fst <$> FeatureState.GetDesiredProperty f key h).
Proof.
  intros Ht Hcall f key.
  destruct (twin_call_maps h dt t now c e h' Ht Hcall) as [Hv _].
  unfold FeatureState.GetProperty, FeatureState.GetDesiredProperty.
  split; intros Hne; rewrite !vmap_get_contents; simpl; by rewrite (Hv _ Hne).
Qed.

Lemma twin_call_keeps_properties_witness :
  ∃ h',
    twin_call 1%positive 9 (TSetAttribute "value" (VString "kitchen"))
      shared_heap = Some (None, h')
    ∧ ∀ f key,
        (Properties f ≠ Attributes shared_twin →
         fst <$> FeatureState.GetProperty f key h'
         = fst <$> FeatureState.GetProperty f key shared_heap)
        ∧ (DesiredProps f ≠ Attributes shared_twin →
           fst <$> FeatureState.GetDesiredProperty f key h'
           = fst <$> FeatureState.GetDesiredProperty f key shared_heap).
Proof.
  eexists. split; [vm_compute; reflexivity|].
  eapply (twin_call_keeps_properties shared_heap 1%positive shared_twin 9
            (TSetAttribute "value" (VString "kitchen")) None).
  - apply shared_twin_live.
  - vm_compute. reflexivity.
Defined.

Lemma fmap_copy_spec r h :
  ∃ l h1,
    fmap_copy r h = Some (Some l, h1)
    ∧ fmap_contents h1 (Some l) = fmap_contents h r
    ∧ (∀ r', fref_ok h r' → r' ≠ Some l ∧ fmap_contents h1 r' = fmap_contents h r')
    ∧ h_vmaps h1 = h_vmaps h ∧ h_twins h1 = h_twins h.
Proof.
  unfold fmap_copy. eexists _, _. split; [reflexivity|].
  pose proof (alloc_loc_fresh (h_fmaps h)) as Hfresh.
  unfold fmap_contents at 1. simpl.
  rewrite lookup_insert_eq. split; [done|]. split; [|done].
  intros r' Hok.
  assert (Hne : r' ≠ Some (alloc_loc (h_fmaps h))).
  { intros ->. destruct (Hok _ eq_refl) as [m Hm]. congruence. }
  split; [exact Hne|]. unfold fmap_contents. destruct r' as [l'|]; simpl; [|done].
  rewrite lookup_insert_ne; [done | congruence].
Qed.

(** X15.  [GetAllFeatures] returns a map of its own with the twin's
    features; no later mutating call on the twin changes what that copy
    holds.  The feature states in it are the stored structs, so they
    still share their property maps with the twin: a property set
    through a feature state taken from the copy is read back through
    the twin. *)
Theorem GetAllFeatures_copy (h : Heap) (dt : loc) (t : DigitalTwin) :
  h_twins h !! dt = Some t →
  fref_ok h (Features t) →
  ∃ c h1,
    DigitalTwin.GetAllFeatures dt h = Some (c, h1)
    ∧ c ≠ Features t
    ∧ fmap_contents h1 c = fmap_contents h (Features t)
    ∧ (∀ now call e h2,
         twin_call dt now call h1 = Some (e, h2) →
         fmap_contents h2 c = fmap_contents h (Features t))
    ∧ (∀ id f now key value f' h2,
         fmap_contents h1 c !! id = Some f →
         FeatureState.SetProperty f now key value h1 = Some (f', h2) →
         stored_property dt id key h2 = Some ((value, true), h2)).
Proof.
  intros Ht Hok.
  destruct (fmap_copy_spec (Features t) h) as (l & h1 & Hrun & Hc & Hold & Hv & Htw).
  destruct (Hold _ Hok) as [Hne Hsame].
  assert (Ht1 : h_twins h1 !! dt = Some t) by (by rewrite Htw).
  exists (Some l), h1.
  unfold DigitalTwin.GetAllFeatures, bind, load_twin. rewrite Ht.
  split; [exact Hrun|]. split; [congruence|]. split; [exact Hc|]. split.
  - intros now call e h2 Hcall.
    destruct (twin_call_maps _ _ _ _ _ _ _ Ht1 Hcall) as [_ Hf].
    rewrite (Hf (Some l)) by congruence. exact Hc.
  - intros id f now key value f' h2 Hf Hset. rewrite Hc in Hf.
    unfold FeatureState.SetProperty, bind, ret in Hset.
    destruct (vmap_set (Properties f) key value h1) as [[[] h2']|] eqn:Hvs; [|done].
    injection Hset as <- <-.
    destruct (vmap_set_contents _ _ _ _ _ _ Hvs) as (Hcv & _ & Hfm & Htw2).
    unfold stored_property, bind.
    rewrite (GetFeature_stored h2' dt t) by (by rewrite Htw2).
    rewrite (fmap_contents_ext h2' h1) by done. rewrite Hsame, Hf.
    unfold FeatureState.GetProperty. rewrite vmap_get_contents.
    by rewrite Hcv, lookup_insert_eq.
Qed.

Lemma GetAllFeatures_copy_witness :
  ∃ c h1,
    DigitalTwin.GetAllFeatures 1%positive shared_heap = Some (c, h1)
    ∧ c ≠ Features shared_twin
    ∧ fmap_contents h1 c = fmap_contents shared_heap (Features shared_twin)
    ∧ (∀ now call e h2,
         twin_call 1%positive now call h1 = Some (e, h2) →
         fmap_contents h2 c = fmap_contents shared_heap (Features shared_twin))
    ∧ (∀ id f now key value f' h2,
         fmap_contents h1 c !! id = Some f →
         FeatureState.SetProperty f now key value h1 = Some (f', h2) →
         stored_property 1%positive id key h2 = Some ((value, true), h2)).
Proof.
  apply (GetAllFeatures_copy shared_heap 1%positive shared_twin).
  - apply shared_twin_live.
  - intros l [= <-]. eexists. vm_compute. reflexivity.
Defined.

(** X16.  [NewDigitalTwin] returns a pointer that was not in use, to a
    twin with the given id and type, an empty definition, no attribute
    and no feature, both maps made; the twins already in the store and
    the maps they refer to are as they were. *)
Theorem NewDigitalTwin_fresh (h : Heap) (now : Time) (id twinType : string) :
  ∃ dt h' t,
    DigitalTwin.NewDigitalTwin now id twinType h = Some (dt, h')
    ∧ h_twins h !! dt = None
    ∧ h_twins h' !! dt = Some t
    ∧ ID t = id ∧ TwinType t = twinType ∧ TwinDefinition t = ""
    ∧ CreatedAt t = now ∧ ModifiedAt t = now
    ∧ vmap_live h' (Attributes t) ∧ fmap_live h' (Features t)
    ∧ (∀ key, DigitalTwin.GetAttribute dt key h' = Some ((VNil, false), h'))
    ∧ (∀ fid, DigitalTwin.GetFeature dt fid h'
              = Some ((zero_FeatureState, false), h'))
    ∧ (∀ p, p ≠ dt → h_twins h' !! p = h_twins h !! p)
    ∧ (∀ r, ref_ok h r → r ≠ Attributes t ∧ vmap_contents h' r = vmap_contents h r)
    ∧ (∀ r, fref_ok h r → r ≠ Features t ∧ fmap_contents h' r = fmap_contents h r).
Proof.
  unfold DigitalTwin.NewDigitalTwin, bind, vmap_make, fmap_make, new_twin. simpl.
  set (la := alloc_loc (h_vmaps h)).
  set (lf := alloc_loc (h_fmaps h)).
  set (p0 := alloc_loc (h_twins h)).
  set (t0 := mkDigitalTwin id twinType "" (Some la) (Some lf) now now).
  set (h' := mkHeap (<[la := ∅]> (h_vmaps h)) (<[lf := ∅]> (h_fmaps h))
                    (<[p0 := t0]> (h_twins h))).
  assert (Hla : h_vmaps h !! la = None) by apply alloc_loc_fresh.
  assert (Hlf : h_fmaps h !! lf = None) by apply alloc_loc_fresh.
  assert (Hp0 : h_twins h !! p0 = None) by apply alloc_loc_fresh.
  assert (Ht0 : h_twins h' !! p0 = Some t0) by apply lookup_insert_eq.
  assert (Hva : vmap_contents h' (Some la) = ∅).
  { unfold vmap_contents. simpl. by rewrite lookup_insert_eq. }
  assert (Hfa : fmap_contents h' (Some lf) = ∅).
  { unfold fmap_contents. simpl. by rewrite lookup_insert_eq. }
  exists p0, h', t0. split; [reflexivity|]. split; [exact Hp0|].
  split; [exact Ht0|]. do 5 (split; [reflexivity|]).
  split. { exists la, ∅. split; [done|]. simpl. apply lookup_insert_eq. }
  split. { exists lf, ∅. split; [done|]. simpl. apply lookup_insert_eq. }
  split.
  { intros key. rewrite (GetAttribute_stored h' p0 t0 _ Ht0), vmap_get_contents.
    simpl. by rewrite Hva, lookup_empty. }
  split.
  { intros fid. rewrite (GetFeature_stored h' p0 t0 _ Ht0). simpl.
    by rewrite Hfa, lookup_empty. }
  split. { intros p Hp. simpl. by rewrite lookup_insert_ne. }
  split.
  - intros r Hok.
    assert (Hne : r ≠ Some la).
    { intros ->. destruct (Hok _ eq_refl) as [m Hm]. congruence. }
    split; [exact Hne|]. unfold vmap_contents. destruct r as [l|]; simpl; [|done].
    rewrite lookup_insert_ne; [done | congruence].
  - intros r Hok.
    assert (Hne : r ≠ Some lf).
    { intros ->. destruct (Hok _ eq_refl) as [m Hm]. congruence. }
    split; [exact Hne|]. unfold fmap_contents. destruct r as [l|]; simpl; [|done].
    rewrite lookup_insert_ne; [done | congruence].
Qed.

(** X17.  [SetDefinition] on a twin returns; [GetDefinition] then
    returns the definition set, and the attributes and features read as
    before. *)
Theorem SetDefinition_GetDefinition (h : Heap) (dt : loc) (t : DigitalTwin)
    (now : Time) (definition : string) :
  h_twins h !! dt = Some t →
  ∃ h',
    DigitalTwin.SetDefinition dt now definition h = Some (tt, h')
    ∧ DigitalTwin.GetDefinition dt h' = Some (definition, h')
    ∧ (∀ key, fst <$> DigitalTwin.GetAttribute dt key h'
              = fst <$> DigitalTwin.GetAttribute dt key h)
    ∧ (∀ id, fst <$> DigitalTwin.GetFeature dt id h'
             = fst <$> DigitalTwin.GetFeature dt id h).
Proof.
  intros Ht.
  unfold DigitalTwin.SetDefinition, bind, load_twin. rewrite Ht.
  rewrite (store_twin_run h dt t) by done.
  eexists. split; [reflexivity|].
  set (t' := mkDigitalTwin (ID t) (TwinType t) definition (Attributes t)
                           (Features t) (CreatedAt t) now).
  set (h' := mkHeap (h_vmaps h) (h_fmaps h) (<[dt := t']> (h_twins h))).
  assert (Ht' : h_twins h' !! dt = Some t') by apply lookup_insert_eq.
  split; [|split].
  - unfold DigitalTwin.GetDefinition, bind, ret, load_twin. by rewrite Ht'.
  - intros key. rewrite (GetAttribute_stored h' dt t' _ Ht').
    rewrite (GetAttribute_stored h dt t _ Ht), !vmap_get_contents. simpl.
    by rewrite (vmap_contents_ext h' h).
  - intros id. rewrite (GetFeature_stored h' dt t' _ Ht').
    rewrite (GetFeature_stored h dt t _ Ht). simpl.
    by rewrite (fmap_contents_ext h' h).
Qed.

Lemma SetDefinition_GetDefinition_witness :
  ∃ h',
    DigitalTwin.SetDefinition 1%positive 9 "org.example:device:2.0.0" shared_heap
    = Some (tt, h')
    ∧ DigitalTwin.GetDefinition 1%positive h'
      = Some ("org.example:device:2.0.0", h')
    ∧ (∀ key, fst <$> DigitalTwin.GetAttribute 1%positive key h'
              = fst <$> DigitalTwin.GetAttribute 1%positive key shared_heap)
    ∧ (∀ id, fst <$> DigitalTwin.GetFeature 1%positive id h'
             = fst <$> DigitalTwin.GetFeature 1%positive id shared_heap).
Proof.
  apply (SetDefinition_GetDefinition shared_heap 1%positive shared_twin 9
           "org.example:device:2.0.0").
  apply shared_twin_live.
Defined.

(* ================================================================== *)
(** * Registry: round trips *)
(* ================================================================== *)

Lemma Registry_eta r : mkRegistry (twins r) = r.
Proof. by destruct r. Qed.

(** X18.  [Create] of a twin whose id is free returns no error and
    stores the pointer under that id only; [Delete] of the id then
    returns no error and gives back the registry as it was before, on
    which [Get] reports [ErrTwinNotFound]. *)
Theorem Create_Delete_round_trip (r : Registry) (h : Heap) (dt : loc)
    (t : DigitalTwin) :
  h_twins h !! dt = Some t →
  twins r !! ID t = None →
  ∃ r1,
    Registry.Create r dt h = Some ((None, r1), h)
    ∧ Registry.Get r1 (ID t) h = Some ((Some dt, None), h)
    ∧ (∀ id, id ≠ ID t → twins r1 !! id = twins r !! id)
    ∧ Registry.Delete r1 (ID t) h = Some ((None, r), h)
    ∧ Registry.Get r (ID t) h = Some ((None, Some ErrTwinNotFound), h).
Proof.
  intros Ht Hfree.
  exists (mkRegistry (<[ID t := dt]> (twins r))).
  unfold Registry.Create, Registry.Get, Registry.Delete, bind, ret, load_twin.
  rewrite Ht, Hfree. simpl. rewrite lookup_insert_eq.
  split; [done|]. split; [done|]. split.
  - intros id Hne. by rewrite lookup_insert_ne.
  - split; [|done]. rewrite delete_insert_id by done. by rewrite Registry_eta.
Qed.

Lemma Create_Delete_round_trip_witness :
  ∃ r1,
    Registry.Create Registry.NewRegistry 1%positive shared_heap
    = Some ((None, r1), shared_heap)
    ∧ Registry.Get r1 (ID shared_twin) shared_heap
      = Some ((Some 1%positive, None), shared_heap)
    ∧ (∀ id, id ≠ ID shared_twin →
             twins r1 !! id = twins Registry.NewRegistry !! id)
    ∧ Registry.Delete r1 (ID shared_twin) shared_heap
      = Some ((None, Registry.NewRegistry), shared_heap)
    ∧ Registry.Get Registry.NewRegistry (ID shared_twin) shared_heap
      = Some ((None, Some ErrTwinNotFound), shared_heap).
Proof.
  apply (Create_Delete_round_trip Registry.NewRegistry shared_heap 1%positive
           shared_twin).
  - apply shared_twin_live.
  - vm_compute. reflexivity.
Defined.

(** X19.  [Update] of a twin whose id is registered returns no error
    and puts the pointer handed in under that id, every other entry
    staying; when that pointer is the one already registered, the
    registry is left exactly as it was. *)
Theorem Update_replaces (r : Registry) (h : Heap) (dt old : loc)
    (t : DigitalTwin) :
  h_twins h !! dt = Some t →
  twins r !! ID t = Some old →
  ∃ r1,
    Registry.Update r dt h = Some ((None, r1), h)
    ∧ Registry.Get r1 (ID t) h = Some ((Some dt, None), h)
    ∧ (∀ id, id ≠ ID t → twins r1 !! id = twins r !! id)
    ∧ (old = dt → r1 = r).
Proof.
  intros Ht Hold.
  exists (mkRegistry (<[ID t := dt]> (twins r))).
  unfold Registry.Update, Registry.Get, bind, ret, load_twin.
  rewrite Ht, Hold. simpl. rewrite lookup_insert_eq.
  split; [done|]. split; [done|]. split.
  - intros id Hne. by rewrite lookup_insert_ne.
  - intros ->. rewrite insert_id by done. apply Registry_eta.
Qed.

Lemma Update_replaces_witness :
  ∃ r1,
    Registry.Update shared_registry 1%positive shared_heap
    = Some ((None, r1), shared_heap)
    ∧ Registry.Get r1 (ID shared_twin) shared_heap
      = Some ((Some 1%positive, None), shared_heap)
    ∧ (∀ id, id ≠ ID shared_twin → twins r1 !! id = twins shared_registry !! id)
    ∧ (1%positive = 1%positive → r1 = shared_registry).
Proof.
  apply (Update_replaces shared_registry shared_heap 1%positive 1%positive
           shared_twin).
  - apply shared_twin_live.
  - vm_compute. reflexivity.
Defined.

(** X20.  [Delete] of a registered id returns no error and removes that
    entry only: [Get] and a second [Delete] of the id report
    [ErrTwinNotFound], every other entry stays, and the twin behind the
    removed pointer is still in the store. *)
Theorem Delete_removes_one (r : Registry) (h : Heap) (id : string) (dt : loc) :
  twins r !! id = Some dt →
  ∃ r1,
    Registry.Delete r id h = Some ((None, r1), h)
    ∧ Registry.Get r1 id h = Some ((None, Some ErrTwinNotFound), h)
    ∧ Registry.Delete r1 id h = Some ((Some ErrTwinNotFound, r1), h)
    ∧ (∀ id', id' ≠ id → twins r1 !! id' = twins r !! id').
Proof.
  intros Hid. exists (mkRegistry (delete id (twins r))).
  unfold Registry.Delete, Registry.Get, ret. rewrite Hid. simpl.
  rewrite lookup_delete_eq. split; [done|]. split; [done|]. split; [done|].
  intros id' Hne. by rewrite lookup_delete_ne.
Qed.

Lemma Delete_removes_one_witness :
  ∃ r1,
    Registry.Delete shared_registry "t1" shared_heap = Some ((None, r1), shared_heap)
    ∧ Registry.Get r1 "t1" shared_heap
      = Some ((None, Some ErrTwinNotFound), shared_heap)
    ∧ Registry.Delete r1 "t1" shared_heap
      = Some ((Some ErrTwinNotFound, r1), shared_heap)
    ∧ (∀ id', id' ≠ "t1" → twins r1 !! id' = twins shared_registry !! id').
Proof.
  apply (Delete_removes_one shared_registry shared_heap "t1" 1%positive).
  vm_compute. reflexivity.
Defined.

(** X21.  [List] returns one pointer per registered id and nothing
    else: as many as there are entries, none for a new registry, and
    one more after a [Create] that returns no error. *)
Theorem List_entries (r : Registry) (h : Heap) :
  ∃ l,
    Registry.List r h = Some (l, h)
    ∧ length l = size (twins r)
    ∧ (∀ dt, dt ∈ l ↔ ∃ id, twins r !! id = Some dt)
    ∧ Registry.List Registry.NewRegistry h = Some ([], h)
    ∧ (∀ dt r1 l1,
         Registry.Create r dt h = Some ((None, r1), h) →
         Registry.List r1 h = Some (l1, h) →
         length l1 = S (length l)).
Proof.
  exists ((map_to_list (twins r)).*2). unfold Registry.List, ret.
  split; [done|]. split; [by rewrite length_fmap, length_map_to_list|].
  split; [|split].
  - intros dt. rewrite list_elem_of_fmap. split.
    + intros ([id dt'] & -> & Hin). exists id. by apply elem_of_map_to_list.
    + intros [id Hid]. exists (id, dt). split; [done|].
      by apply elem_of_map_to_list.
  - simpl. by rewrite map_to_list_empty.
  - intros dt r1 l1. unfold Registry.Create, bind, ret, load_twin.
    destruct (h_twins h !! dt) as [t|]; [|done].
    destruct (twins r !! ID t) as [old|] eqn:Hold; [done|].
    intros [= <-] [= <-]. simpl.
    rewrite !length_fmap, !length_map_to_list.
    by apply map_size_insert_None.
Qed.

(** X22.  The registry holds the pointer, not a copy of the twin: an
    attribute set through the pointer after registration is found by
    [FindByAttribute] without any [Update], for every value that is
    naturally equal to itself. *)
Theorem SetAttribute_then_FindByAttribute (r : Registry) (h : Heap)
    (id : string) (dt : loc) (t : DigitalTwin) (now : Time) (key : string)
    (value : Value) :
  registry_live h r →
  twins r !! id = Some dt →
  h_twins h !! dt = Some t →
  vmap_live h (Attributes t) →
  natural_eq value value →
  ∃ h' found,
    DigitalTwin.SetAttribute dt now key value h = Some (tt, h')
    ∧ Registry.FindByAttribute r key value h' = Some (found.*2, h')
    ∧ (id, dt) ∈ found.
Proof.
  intros Hlive Hid Ht (l & m & Hl & Hm) Hnat.
  set (h' := mkHeap (<[l := <[key := value]> m]> (h_vmaps h)) (h_fmaps h)
                    (<[dt := touch t now]> (h_twins h))).
  assert (Ht' : h_twins h' !! dt = Some (touch t now)) by apply lookup_insert_eq.
  assert (Hlive' : registry_live h' r).
  { intros id' p Hp. destruct (decide (p = dt)) as [->|Hne]; [by eexists|].
    simpl. rewrite lookup_insert_ne by done. by eapply Hlive. }
  assert (Hcmp : comparable (type_of value) = true) by (by destruct Hnat).
  destruct (scan_registry (Registry.attr_matches key value)
              (attr_test h' key value) h' r) as (found & Hrun & _ & Hin).
  { intros p. apply attr_matches_run. }
  { intros id' p Hp.
    destruct (attr_test h' key value p) as [b|] eqn:Htest; [by exists b|].
    apply (attr_test_None h' r key value id' p Hlive' Hp) in Htest
      as (a & _ & _ & Hcmp').
    congruence. }
  exists h', found.
  split; [exact (SetAttribute_store h dt t now key value l m Ht Hl Hm)|].
  split; [exact Hrun|].
  apply Hin. split; [exact Hid|].
  apply (attr_test_true h' r key value id dt Hid).
  exists value. split; [|exact Hnat].
  exists (touch t now). split; [exact Hid|]. split; [exact Ht'|].
  unfold vmap_contents. simpl. rewrite Hl. simpl.
  rewrite lookup_insert_eq. simpl. apply lookup_insert_eq.
Qed.

Lemma SetAttribute_then_FindByAttribute_witness :
  ∃ h' found,
    DigitalTwin.SetAttribute 1%positive 6 "location" (VString "kitchen")
      shared_heap = Some (tt, h')
    ∧ Registry.FindByAttribute shared_registry "location" (VString "kitchen") h'
      = Some (found.*2, h')
    ∧ ("t1", 1%positive) ∈ found.
Proof.
  apply (SetAttribute_then_FindByAttribute shared_registry shared_heap "t1"
           1%positive shared_twin 6 "location" (VString "kitchen")).
  - intros id dt Hid. unfold shared_registry in Hid. simpl in Hid.
    apply lookup_singleton_Some in Hid as [_ <-].
    exists shared_twin. apply shared_twin_live.
  - vm_compute. reflexivity.
  - apply shared_twin_live.
  - apply shared_twin_attributes_live.
  - constructor.
Defined.

(* ================================================================== *)
(** * The bus: subscribing, fan-out, unsubscribing, closing *)
(* ================================================================== *)

(** X23.  [Subscribe] returns a channel that was not in use, empty,
    open and of capacity 10; it leaves every other channel and the
    subscriber lists of the other topics as they were, and the next
    [Subscribe] returns another channel. *)
Theorem Subscribe_fresh_channel (ps : PubSub) (topic topic2 : string) :
  channels ps !! (PubSub.Subscribe ps topic).1 = None
  ∧ channels (PubSub.Subscribe ps topic).2 !! (PubSub.Subscribe ps topic).1
    = Some (mkChan [] 10 false)
  ∧ (∀ x, x ≠ (PubSub.Subscribe ps topic).1 →
          channels (PubSub.Subscribe ps topic).2 !! x = channels ps !! x)
  ∧ (∀ t, t ≠ topic →
          subscribers (PubSub.Subscribe ps topic).2 !! t = subscribers ps !! t)
  ∧ (PubSub.Subscribe (PubSub.Subscribe ps topic).2 topic2).1
    ≠ (PubSub.Subscribe ps topic).1.
Proof.
  simpl. split; [apply alloc_loc_fresh|]. split; [apply lookup_insert_eq|].
  split; [|split].
  - intros x Hx. by rewrite lookup_insert_ne.
  - intros t Ht. by rewrite lookup_insert_ne.
  - intros Heq.
    pose proof (alloc_loc_fresh
                  (<[alloc_loc (channels ps) := mkChan [] 10 false]> (channels ps)))
      as Hfresh.
    rewrite Heq, lookup_insert_eq in Hfresh. done.
Qed.

Lemma send_lookup msg ch cs cs' :
  PubSub.send msg ch cs = Some cs' →
  (∀ x, x ≠ ch → cs' !! x = cs !! x)
  ∧ (∀ x, closed <$> cs' !! x = closed <$> cs !! x)
  ∧ cs' !! ch = deliver msg <$> cs !! ch.
Proof.
  unfold PubSub.send, deliver. destruct (cs !! ch) as [c|] eqn:Hc.
  - destruct (closed c) eqn:Hcl; [done|].
    case_bool_decide; intros [= <-].
    + split; [|split].
      * intros x Hx. by rewrite lookup_insert_ne.
      * intros x. destruct (decide (x = ch)) as [->|Hx].
        -- rewrite lookup_insert_eq, Hc. simpl. by rewrite Hcl.
        -- by rewrite lookup_insert_ne.
      * rewrite lookup_insert_eq. simpl. by rewrite bool_decide_eq_true_2.
    + rewrite Hc. split; [done|]. split; [done|]. simpl.
      by rewrite bool_decide_eq_false_2.
  - intros [= <-]. by rewrite Hc.
Qed.

Lemma send_None msg ch cs :
  PubSub.send msg ch cs = None ↔ ∃ c, cs !! ch = Some c ∧ closed c = true.
Proof.
  unfold PubSub.send. destruct (cs !! ch) as [c|].
  - destruct (closed c) eqn:Hcl.
    + split; [by exists c | done].
    + case_bool_decide; (split; [done|]); intros (c' & [= <-] & ?); congruence.
  - split; [done|]. by intros (c & ? & _).
Qed.

Lemma send_all_lookup msg subs cs cs' :
  PubSub.send_all msg subs cs = Some cs' →
  (∀ x, x ∉ subs → cs' !! x = cs !! x)
  ∧ (∀ x, closed <$> cs' !! x = closed <$> cs !! x)
  ∧ (NoDup subs → ∀ x, x ∈ subs → cs' !! x = deliver msg <$> cs !! x).
Proof.
  revert cs. induction subs as [|ch rest IH]; intros cs; simpl.
  - intros [= <-]. split; [done|]. split; [done|].
    intros _ x Hx. by apply elem_of_nil in Hx.
  - destruct (PubSub.send msg ch cs) as [cs1|] eqn:Hsend; simpl; [|done].
    intros Hrun. destruct (send_lookup _ _ _ _ Hsend) as (Hf1 & Hc1 & Hd1).
    destruct (IH _ Hrun) as (Hf & Hc & Hd). split; [|split].
    + intros x Hx. apply not_elem_of_cons in Hx as [Hne Hx].
      by rewrite (Hf x Hx), (Hf1 x Hne).
    + intros x. by rewrite Hc, Hc1.
    + intros Hnd x Hx. apply NoDup_cons in Hnd as [Hch Hnd].
      apply elem_of_cons in Hx as [->|Hx].
      * by rewrite (Hf ch Hch), Hd1.
      * rewrite (Hd Hnd x Hx), (Hf1 x); [done|]. intros ->. done.
Qed.

Lemma send_all_None msg subs cs :
  PubSub.send_all msg subs cs = None
  ↔ ∃ ch c, ch ∈ subs ∧ cs !! ch = Some c ∧ closed c = true.
Proof.
  revert cs. induction subs as [|ch rest IH]; intros cs; simpl.
  - split; [done|]. intros (ch & c & Hin & _). by apply elem_of_nil in Hin.
  - destruct (PubSub.send msg ch cs) as [cs1|] eqn:Hsend; simpl.
    + destruct (send_lookup _ _ _ _ Hsend) as (_ & Hc1 & _).
      assert (Hsame : ∀ x, (∃ c, cs1 !! x = Some c ∧ closed c = true)
                           ↔ (∃ c, cs !! x = Some c ∧ closed c = true)).
      { intros x. specialize (Hc1 x).
        destruct (cs1 !! x) as [c1|], (cs !! x) as [c0|]; simpl in Hc1;
          simplify_eq; split; intros (c & [= <-] & Hcl); eexists; split;
          try done; congruence. }
      rewrite IH. split.
      * intros (x & c & Hin & Hx). destruct (proj1 (Hsame x)) as (c0 & ? & ?);
          [by exists c|]. exists x, c0. split; [by right | done].
      * intros (x & c & Hin & Hx & Hcl).
        apply elem_of_cons in Hin as [->|Hin].
        -- assert (Hn : PubSub.send msg ch cs = None)
             by (apply send_None; by exists c).
           congruence.
        -- destruct (proj2 (Hsame x)) as (c1 & ? & ?); [by exists c|].
           by exists x, c1.
    + split; [|done]. intros _. apply send_None in Hsend as (c & Hc & Hcl).
      exists ch, c. split; [left | done].
Qed.

Lemma Publish_other_channels ps topic payload ps' :
  PubSub.Publish ps topic payload = Some ps' →
  ∀ x, x ∉ default [] (subscribers ps !! topic) →
       channels ps' !! x = channels ps !! x.
Proof.
  unfold PubSub.Publish. destruct (subscribers ps !! topic) as [subs|]; simpl.
  - destruct (PubSub.send_all _ subs (channels ps)) as [cs'|] eqn:Hrun; [|done].
    simpl. intros [= <-]. simpl. by destruct (send_all_lookup _ _ _ _ Hrun).
  - by intros [= <-].
Qed.

(** What the sends of one [Publish] leave in a buffer: the old content,
    then copies of the message, at least one for a listed channel with
    room. *)
Lemma send_all_queue msg subs cs cs' :
  PubSub.send_all msg subs cs = Some cs' →
  ∀ x c, cs !! x = Some c →
    ∃ c' k, cs' !! x = Some c'
            ∧ cap c' = cap c
            ∧ queue c' = queue c ++ replicate k msg
            ∧ (x ∈ subs → (length (queue c) < cap c)%nat → (0 < k)%nat).
Proof.
  revert cs. induction subs as [|ch rest IH]; intros cs; simpl.
  - intros [= <-] x c Hc. exists c, 0%nat. simpl. rewrite app_nil_r.
    repeat split; [done|]. intros Hx. by apply elem_of_nil in Hx.
  - destruct (PubSub.send msg ch cs) as [cs1|] eqn:Hsend; simpl; [|done].
    intros Hrun x c Hc.
    destruct (send_lookup _ _ _ _ Hsend) as (Hf1 & _ & Hd1).
    destruct (decide (x = ch ∧ (length (queue c) < cap c)%nat)) as [[-> Hroom]|Hno].
    + rewrite Hc in Hd1. simpl in Hd1. unfold deliver in Hd1.
      rewrite bool_decide_eq_true_2 in Hd1 by done.
      destruct (IH cs1 Hrun ch _ Hd1) as (c' & k & Hc' & Hcap & Hq & _).
      exists c', (S k). simpl in Hcap, Hq. split; [done|]. split; [done|].
      split; [|lia]. rewrite Hq, <- app_assoc. done.
    + assert (Hc1 : cs1 !! x = Some c).
      { destruct (decide (x = ch)) as [->|Hne]; [|by rewrite Hf1].
        rewrite Hd1, Hc. simpl. unfold deliver.
        rewrite bool_decide_eq_false_2; [done|]. intros Hroom. by apply Hno. }
      destruct (IH cs1 Hrun x c Hc1) as (c' & k & Hc' & Hcap & Hq & Hk).
      exists c', k. split; [done|]. split; [done|]. split; [done|].
      intros Hx Hroom. apply Hk; [|done].
      apply elem_of_cons in Hx as [->|Hx]; [|done]. by destruct Hno.
Qed.

(** X24.  [Publish] reaches the subscribers of its topic and no other
    channel.  When it returns, the subscriptions are as before; every
    buffer holds what it held, followed by copies of the message made of
    the topic and the payload and by nothing else; the buffer of a
    channel in the topic's list that had room holds at least one such
    copy; a channel that is not in the topic's list holds what it held;
    no channel is closed or reopened and no capacity changes; and with
    no entry for the topic the bus is left exactly as it was. *)
Theorem Publish_exact_topic (ps : PubSub) (topic : string) (payload : Value)
    (ps' : PubSub) :
  PubSub.Publish ps topic payload = Some ps' →
  subscribers ps' = subscribers ps
  ∧ (∀ x c, channels ps !! x = Some c →
       ∃ c' k, channels ps' !! x = Some c'
               ∧ cap c' = cap c
               ∧ queue c' = queue c ++ replicate k (mkMessage topic payload)
               ∧ (x ∈ default [] (subscribers ps !! topic) →
                  (length (queue c) < cap c)%nat → (0 < k)%nat))
  ∧ (∀ x, x ∉ default [] (subscribers ps !! topic) →
          channels ps' !! x = channels ps !! x)
  ∧ (∀ x, closed <$> channels ps' !! x = closed <$> channels ps !! x)
  ∧ (subscribers ps !! topic = None → ps' = ps).
Proof.
  intros Hrun. unfold PubSub.Publish in Hrun.
  destruct (subscribers ps !! topic) as [subs|]; simpl in Hrun.
  - destruct (PubSub.send_all _ subs (channels ps)) as [cs'|] eqn:Hsend; [|done].
    injection Hrun as <-. simpl.
    destruct (send_all_lookup _ _ _ _ Hsend) as (Hf & Hc & _).
    split; [done|]. split; [exact (send_all_queue _ _ _ _ Hsend)|].
    split; [exact Hf|]. split; [exact Hc | done].
  - injection Hrun as <-. split; [done|]. split.
    + intros x c Hc. exists c, 0%nat. simpl. rewrite app_nil_r.
      repeat split; [done|]. intros Hx. by apply elem_of_nil in Hx.
    + done.
Qed.

Lemma Publish_exact_topic_witness :
  ∃ ps',
    PubSub.Publish events_bus "events" (VInt 1) = Some ps'
    ∧ subscribers ps' = subscribers events_bus
    ∧ (∀ x c, channels events_bus !! x = Some c →
         ∃ c' k, channels ps' !! x = Some c'
                 ∧ cap c' = cap c
                 ∧ queue c' = queue c ++ replicate k (mkMessage "events" (VInt 1))
                 ∧ (x ∈ default [] (subscribers events_bus !! "events") →
                    (length (queue c) < cap c)%nat → (0 < k)%nat))
    ∧ (∀ x, x ∉ default [] (subscribers events_bus !! "events") →
            channels ps' !! x = channels events_bus !! x)
    ∧ (∀ x, closed <$> channels ps' !! x = closed <$> channels events_bus !! x)
    ∧ (subscribers events_bus !! "events" = None → ps' = events_bus).
Proof.
  eexists. split; [vm_compute; reflexivity|].
  eapply (Publish_exact_topic events_bus "events" (VInt 1)).
  vm_compute. reflexivity.
Defined.

(** X25.  Fan-out: when the subscribers of a topic are distinct open
    channels, [Publish] returns and each of them gets the message at
    the end of its buffer if the buffer has room, and is left as it was
    if the buffer is full; a full subscriber does not keep the message
    from the others. *)
Theorem Publish_fan_out (ps : PubSub) (topic : string) (payload : Value)
    (subs : list loc) :
  subscribers ps !! topic = Some subs →
  NoDup subs →
  (∀ ch, ch ∈ subs → ∃ c, channels ps !! ch = Some c ∧ closed c = false) →
  ∃ ps',
    PubSub.Publish ps topic payload = Some ps'
    ∧ subscribers ps' = subscribers ps
    ∧ ∀ ch, ch ∈ subs →
        ∃ c, channels ps !! ch = Some c
             ∧ channels ps' !! ch
               = Some (if bool_decide (length (queue c) < cap c)%nat
                       then mkChan (queue c ++ [mkMessage topic payload])
                                   (cap c) false
                       else c).
Proof.
  intros Hsubs Hnd Hopen. unfold PubSub.Publish. rewrite Hsubs.
  destruct (send_all_open (mkMessage topic payload) subs (channels ps))
    as (cs' & Hrun & _).
  { apply Forall_forall. intros x Hx. by apply Hopen. }
  rewrite Hrun. simpl. eexists. split; [reflexivity|]. split; [done|].
  intros ch Hch. destruct (Hopen ch Hch) as (c & Hc & _).
  exists c. split; [exact Hc|]. simpl.
  destruct (send_all_lookup _ _ _ _ Hrun) as (_ & _ & Hd).
  rewrite (Hd Hnd ch Hch), Hc. reflexivity.
Qed.

Lemma Publish_fan_out_witness :
  ∃ ps',
    PubSub.Publish events_bus "events" (VInt 1) = Some ps'
    ∧ subscribers ps' = subscribers events_bus
    ∧ ∀ ch, ch ∈ [1%positive] →
        ∃ c, channels events_bus !! ch = Some c
             ∧ channels ps' !! ch
               = Some (if bool_decide (length (queue c) < cap c)%nat
                       then mkChan (queue c ++ [mkMessage "events" (VInt 1)])
                                   (cap c) false
                       else c).
Proof.
  apply (Publish_fan_out events_bus "events" (VInt 1) [1%positive]).
  - vm_compute. reflexivity.
  - apply NoDup_singleton.
  - intros ch Hch. apply list_elem_of_singleton in Hch as ->.
    eexists. split; [vm_compute; reflexivity | reflexivity].
Defined.

(** X26.  [Publish] panics exactly when one of the topic's subscriber
    channels has been closed: the bus sends on it without a check. *)
Theorem Publish_panics_iff_closed (ps : PubSub) (topic : string)
    (payload : Value) :
  PubSub.Publish ps topic payload = None
  ↔ ∃ subs ch c, subscribers ps !! topic = Some subs ∧ ch ∈ subs
                 ∧ channels ps !! ch = Some c ∧ closed c = true.
Proof.
  unfold PubSub.Publish. destruct (subscribers ps !! topic) as [subs|] eqn:Hs.
  - destruct (PubSub.send_all (mkMessage topic payload) subs (channels ps))
      as [cs'|] eqn:Hrun; simpl.
    + split; [done|]. intros (subs' & ch & c & [= <-] & Hin & Hc & Hcl).
      assert (Hn : PubSub.send_all (mkMessage topic payload) subs (channels ps)
                   = None) by (apply send_all_None; by exists ch, c).
      congruence.
    + split; [|done]. intros _.
      apply send_all_None in Hrun as (ch & c & ? & ? & ?). by exists subs, ch, c.
  - split; [done|]. by intros (subs & ch & c & ? & _).
Qed.

Lemma Unsubscribe_channels ps topic ch :
  channels (PubSub.Unsubscribe ps topic ch) = channels ps.
Proof.
  unfold PubSub.Unsubscribe. destruct (subscribers ps !! topic); [|done].
  by case_bool_decide.
Qed.

Lemma Unsubscribe_lookup ps topic ch t :
  subscribers (PubSub.Unsubscribe ps topic ch) !! t
  = if decide (t = topic)
    then match subscribers ps !! topic with
         | None => None
         | Some subs =>
             match list_find (λ sub, sub = ch) subs with
             | Some (i, _) =>
                 if decide (delete i subs = []) then None
                 else Some (delete i subs)
             | None => if decide (subs = []) then None else Some subs
             end
         end
    else subscribers ps !! t.
Proof.
  unfold PubSub.Unsubscribe.
  destruct (subscribers ps !! topic) as [subs|] eqn:Hsubs.
  - destruct (list_find (λ sub, sub = ch) subs) as [[i x]|] eqn:Hfind.
    + rewrite lookup_insert_eq. simpl. rewrite <- delete_take_drop.
      case_bool_decide as Hlen; simpl.
      * apply length_zero_iff_nil in Hlen. rewrite Hlen.
        case_decide as Ht.
        -- subst t. rewrite lookup_delete_eq. by rewrite decide_True.
        -- by rewrite lookup_delete_ne, lookup_insert_ne.
      * case_decide as Ht.
        -- subst t. rewrite lookup_insert_eq. rewrite decide_False; [done|].
           intros Hnil. by rewrite Hnil in Hlen.
        -- by rewrite lookup_insert_ne.
    + rewrite Hsubs. simpl. case_bool_decide as Hlen; simpl.
      * apply length_zero_iff_nil in Hlen. subst subs.
        case_decide as Ht.
        -- subst t. rewrite lookup_delete_eq. by rewrite decide_True.
        -- by rewrite lookup_delete_ne.
      * case_decide as Ht; [|done]. subst t. rewrite Hsubs.
        rewrite decide_False; [done|]. intros ->. done.
  - case_decide as Ht; [|done]. by subst t.
Qed.

Lemma Unsubscribe_sublist ps topic ch t l' :
  subscribers (PubSub.Unsubscribe ps topic ch) !! t = Some l' →
  ∃ l, subscribers ps !! t = Some l ∧ l' `sublist_of` l.
Proof.
  rewrite Unsubscribe_lookup. case_decide as Ht; [|by exists l'].
  subst t. destruct (subscribers ps !! topic) as [subs|]; [|done].
  destruct (list_find (λ sub, sub = ch) subs) as [[i x]|].
  - case_decide; [done|]. intros [= <-]. exists subs. split; [done|].
    apply sublist_delete.
  - case_decide; [done|]. intros [= <-]. by exists subs.
Qed.

Lemma NoDup_delete_lookup (l : list loc) i x :
  NoDup l → l !! i = Some x → x ∉ delete i l.
Proof.
  intros Hnd Hi. rewrite delete_take_drop.
  rewrite <- (take_drop_middle l i x Hi) in Hnd.
  apply NoDup_app in Hnd as (_ & Hdisj & Hnd2).
  apply NoDup_cons in Hnd2 as [Hx _].
  intros Hin. apply elem_of_app in Hin as [Hin|Hin]; [|done].
  apply (Hdisj x Hin). left.
Qed.

(** X27.  After [Unsubscribe(topic, ch)], for a channel subscribed at
    most once to the topic, a [Publish] to the topic no longer delivers
    to [ch]: the channel holds what it held.  [Unsubscribe] itself
    neither closes the channel nor drops what is queued in it. *)
Theorem Unsubscribe_stops_delivery (ps : PubSub) (topic : string) (ch : loc)
    (subs : list loc) :
  subscribers ps !! topic = Some subs →
  NoDup subs →
  channels (PubSub.Unsubscribe ps topic ch) = channels ps
  ∧ (ch ∉ default [] (subscribers (PubSub.Unsubscribe ps topic ch) !! topic))
  ∧ ∀ payload ps2,
      PubSub.Publish (PubSub.Unsubscribe ps topic ch) topic payload = Some ps2 →
      channels ps2 !! ch = channels ps !! ch.
Proof.
  intros Hsubs Hnd.
  assert (Hnot : ch ∉ default [] (subscribers (PubSub.Unsubscribe ps topic ch)
                                    !! topic)).
  { rewrite Unsubscribe_lookup, decide_True, Hsubs by done.
    destruct (list_find (λ sub, sub = ch) subs) as [[i x]|] eqn:Hfind.
    - apply list_find_Some in Hfind as (Hi & -> & _).
      case_decide; simpl; [apply not_elem_of_nil|].
      by apply NoDup_delete_lookup.
    - apply list_find_None in Hfind. rewrite Forall_forall in Hfind.
      case_decide; simpl; [apply not_elem_of_nil|].
      intros Hin. by apply (Hfind ch Hin). }
  split; [apply Unsubscribe_channels|]. split; [exact Hnot|].
  intros payload ps2 Hpub.
  rewrite (Publish_other_channels _ _ _ _ Hpub ch Hnot).
  by rewrite Unsubscribe_channels.
Qed.

Lemma Unsubscribe_stops_delivery_witness :
  channels (PubSub.Unsubscribe events_bus "events" 1%positive) = channels events_bus
  ∧ (1%positive ∉ default [] (subscribers (PubSub.Unsubscribe events_bus "events"
                                              1%positive) !! "events"))
  ∧ ∀ payload ps2,
      PubSub.Publish (PubSub.Unsubscribe events_bus "events" 1%positive) "events"
        payload = Some ps2 →
      channels ps2 !! 1%positive = channels events_bus !! 1%positive.
Proof.
  apply (Unsubscribe_stops_delivery events_bus "events" 1%positive [1%positive]).
  - vm_compute. reflexivity.
  - apply NoDup_singleton.
Defined.

(** X28.  [Close], when it returns, leaves a bus on which [Publish] to
    any topic and [Unsubscribe] of any handle change nothing, a second
    [Close] changes nothing either, and [Subscribe] works again with a
    channel of its own. *)
Theorem after_Close (ps ps' : PubSub) (topic : string) (payload : Value)
    (ch : loc) :
  PubSub.Close ps = Some ps' →
  PubSub.Publish ps' topic payload = Some ps'
  ∧ PubSub.Unsubscribe ps' topic ch = ps'
  ∧ PubSub.Close ps' = Some ps'
  ∧ subscribers (PubSub.Subscribe ps' topic).2 !! topic
    = Some [(PubSub.Subscribe ps' topic).1]
  ∧ channels ps' !! (PubSub.Subscribe ps' topic).1 = None.
Proof.
  intros Hclose. pose proof (Close_subscribers _ _ Hclose) as Hemp.
  unfold PubSub.Publish, PubSub.Unsubscribe, PubSub.Close.
  rewrite Hemp, lookup_empty, map_to_list_empty. simpl.
  split; [done|]. split; [done|]. split; [done|].
  rewrite Hemp, lookup_insert_eq, lookup_empty. simpl.
  split; [done | apply alloc_loc_fresh].
Qed.

Lemma after_Close_witness :
  ∃ ps',
    PubSub.Close events_bus = Some ps'
    ∧ PubSub.Publish ps' "events" (VInt 1) = Some ps'
    ∧ PubSub.Unsubscribe ps' "events" 1%positive = ps'
    ∧ PubSub.Close ps' = Some ps'
    ∧ subscribers (PubSub.Subscribe ps' "events").2 !! "events"
      = Some [(PubSub.Subscribe ps' "events").1]
    ∧ channels ps' !! (PubSub.Subscribe ps' "events").1 = None.
Proof.
  eexists. split; [vm_compute; reflexivity|].
  eapply (after_Close events_bus _ "events" (VInt 1) 1%positive).
  vm_compute. reflexivity.
Defined.

Lemma NoDup_join_entries (es : list (string * list loc)) :
  NoDup es.*1 →
  (∀ t l, (t, l) ∈ es → NoDup l) →
  (∀ t1 l1 t2 l2 x, (t1, l1) ∈ es → (t2, l2) ∈ es → x ∈ l1 → x ∈ l2 → t1 = t2) →
  NoDup (mjoin es.*2).
Proof.
  induction es as [|[t l] rest IH]; intros Hkeys Hlists Hcross.
  - constructor.
  - change (mjoin ((t, l) :: rest).*2) with (l ++ mjoin rest.*2).
    rewrite fmap_cons in Hkeys. apply NoDup_cons in Hkeys as [Ht Hkeys].
    apply NoDup_app. split; [apply (Hlists t l); left|]. split.
    + intros x Hx Hin. apply list_elem_of_join in Hin as (l' & Hx' & Hl').
      apply list_elem_of_fmap in Hl' as ([t' l''] & -> & Hin'). simpl in Hx'.
      assert (t = t').
      { apply (Hcross t l t' l'' x); [left | by right | done | done]. }
      subst t'. apply Ht. apply list_elem_of_fmap. by exists (t, l'').
    + apply IH; [exact Hkeys | |].
      * intros t' l' Hin. apply (Hlists t' l'). by right.
      * intros t1 l1 t2 l2 x H1 H2. apply Hcross; by right.
Qed.

Lemma subscribed_once_NoDup ps :
  subscribed_once ps → NoDup (all_subscribed ps).
Proof.
  intros [Hlists Hcross]. unfold all_subscribed. apply NoDup_join_entries.
  - apply NoDup_fst_map_to_list.
  - intros t l Hin. apply elem_of_map_to_list in Hin. by eapply Hlists.
  - intros t1 l1 t2 l2 x H1 H2. apply elem_of_map_to_list in H1, H2.
    by eapply Hcross.
Qed.

Lemma Subscribe_subscribed_once ps topic :
  channels_open ps → subscribed_once ps →
  subscribed_once (PubSub.Subscribe ps topic).2.
Proof.
  intros Hopen [Hlists Hcross].
  assert (Hfresh : ∀ t l, subscribers ps !! t = Some l →
                          alloc_loc (channels ps) ∉ l).
  { intros t l Hl. by eapply subscribed_not_fresh. }
  assert (Hold : NoDup (default [] (subscribers ps !! topic))
                 ∧ alloc_loc (channels ps) ∉ default [] (subscribers ps !! topic)).
  { destruct (subscribers ps !! topic) as [l|] eqn:Hl; simpl.
    - split; [by eapply Hlists | by eapply Hfresh].
    - split; [constructor | apply not_elem_of_nil]. }
  destruct Hold as [Hnd Hnew].
  split.
  - intros t l. rewrite Subscribe_lookup. case_decide.
    + intros [= <-]. simpl. apply NoDup_app. split; [done|]. split.
      * intros x Hx Hin. apply list_elem_of_singleton in Hin as ->. done.
      * apply NoDup_singleton.
    + apply Hlists.
  - intros t1 t2 l1 l2 x. rewrite !Subscribe_lookup. simpl.
    destruct (decide (topic = t1)) as [<-|H1], (decide (topic = t2)) as [<-|H2];
      try done.
    + intros [= <-] Hl2 Hx1 Hx2.
      apply elem_of_app in Hx1 as [Hx1|Hx1].
      * destruct (subscribers ps !! topic) as [l|] eqn:Hl; simpl in Hx1.
        -- by eapply (Hcross topic t2 l l2 x).
        -- by apply elem_of_nil in Hx1.
      * apply list_elem_of_singleton in Hx1 as ->.
        by destruct (Hfresh t2 l2 Hl2).
    + intros Hl1 [= <-] Hx1 Hx2.
      apply elem_of_app in Hx2 as [Hx2|Hx2].
      * destruct (subscribers ps !! topic) as [l|] eqn:Hl; simpl in Hx2.
        -- by eapply (Hcross t1 topic l1 l x).
        -- by apply elem_of_nil in Hx2.
      * apply list_elem_of_singleton in Hx2 as ->.
        by destruct (Hfresh t1 l1 Hl1).
    + apply Hcross.
Qed.

Lemma Unsubscribe_subscribed_once ps topic ch :
  subscribed_once ps → subscribed_once (PubSub.Unsubscribe ps topic ch).
Proof.
  intros [Hlists Hcross]. split.
  - intros t l' Hl'. destruct (Unsubscribe_sublist _ _ _ _ _ Hl') as (l & Hl & Hsub).
    eapply sublist_NoDup; [by eapply Hlists | exact Hsub].
  - intros t1 t2 l1' l2' x H1 H2 Hx1 Hx2.
    destruct (Unsubscribe_sublist _ _ _ _ _ H1) as (l1 & Hl1 & Hsub1).
    destruct (Unsubscribe_sublist _ _ _ _ _ H2) as (l2 & Hl2 & Hsub2).
    apply (Hcross t1 t2 l1 l2 x Hl1 Hl2);
      [exact (elem_of_sublist _ _ _ Hx1 Hsub1)
      | exact (elem_of_sublist _ _ _ Hx2 Hsub2)].
Qed.

Lemma bus_call_keeps ps c :
  topics_nonempty ps → channels_open ps → subscribed_once ps →
  ∃ ps', bus_call ps c = Some ps'
         ∧ topics_nonempty ps' ∧ channels_open ps' ∧ subscribed_once ps'.
Proof.
  intros Hne Hopen Honce. destruct c as [topic|topic ch|topic payload|]; simpl.
  - eexists. split; [reflexivity|].
    split; [by apply Subscribe_topics_nonempty|].
    split; [by apply Subscribe_channels_open | by apply Subscribe_subscribed_once].
  - eexists. split; [reflexivity|].
    split; [by apply Unsubscribe_topics_nonempty|].
    split; [by apply Unsubscribe_channels_open
           | by apply Unsubscribe_subscribed_once].
  - destruct (Publish_total ps topic payload Hopen) as [ps' Hrun].
    exists ps'. split; [exact Hrun|].
    pose proof (Publish_subscribers _ _ _ _ Hrun) as Hsame.
    split; [intros t l; rewrite Hsame; apply Hne|].
    split; [by eapply Publish_channels_open|].
    destruct Honce as [Hl Hc]. split.
    + intros t l. rewrite Hsame. apply Hl.
    + intros t1 t2 l1 l2 x. rewrite Hsame. apply Hc.
  - destruct (close_topics_ok (map_to_list (subscribers ps)) ps
                (subscribed_once_NoDup ps Honce) (all_subscribed_open ps Hopen))
      as (ps' & Hrun & _).
    exists ps'. split; [exact Hrun|].
    pose proof (Close_subscribers _ _ Hrun) as Hemp.
    split; [by apply empty_topics_nonempty|]. split; [|split].
    + intros t l x. by rewrite Hemp, lookup_empty.
    + intros t l. by rewrite Hemp, lookup_empty.
    + intros t1 t2 l1 l2 x. by rewrite Hemp, lookup_empty.
Qed.

(** X29.  Left to itself the bus never panics: whatever sequence of
    [Subscribe], [Unsubscribe], [Publish] and [Close] calls is run on a
    new bus, every call returns, and the bus ends with no empty topic,
    every subscribed channel open and none subscribed twice; so one
    more [Publish] or [Close] returns as well. *)
Theorem bus_calls_never_panic (calls : list BusCall) (topic : string)
    (payload : Value) :
  ∃ ps,
    bus_calls PubSub.NewPubSub calls = Some ps
    ∧ topics_nonempty ps ∧ channels_open ps ∧ NoDup (all_subscribed ps)
    ∧ is_Some (PubSub.Publish ps topic payload)
    ∧ is_Some (PubSub.Close ps).
Proof.
  assert (Hgen : ∀ calls ps,
            topics_nonempty ps → channels_open ps → subscribed_once ps →
            ∃ ps', bus_calls ps calls = Some ps'
                   ∧ topics_nonempty ps' ∧ channels_open ps' ∧ subscribed_once ps').
  { clear calls. intros calls. induction calls as [|c rest IH];
      intros ps Hne Hopen Honce; simpl.
    - by exists ps.
    - destruct (bus_call_keeps ps c Hne Hopen Honce)
        as (ps1 & Hrun & Hne1 & Hopen1 & Honce1).
      rewrite Hrun. simpl. by apply IH. }
  destruct (Hgen calls PubSub.NewPubSub) as (ps & Hrun & Hne & Hopen & Honce).
  - apply NewPubSub_topics_nonempty.
  - apply NewPubSub_channels_open.
  - unfold subscribed_once, PubSub.NewPubSub. simpl. split.
    + intros t l Hl. by rewrite lookup_empty in Hl.
    + intros t1 t2 l1 l2 x Hl. by rewrite lookup_empty in Hl.
  - exists ps. split; [exact Hrun|]. split; [exact Hne|]. split; [exact Hopen|].
    split; [by apply subscribed_once_NoDup|].
    split; [by apply Publish_total|].
    destruct (bus_call_keeps ps BClose Hne Hopen Honce) as (ps' & Hclose & _).
    by exists ps'.
Qed.

(* ================================================================== *)
(** * The handler UpdateProperty *)
(* ================================================================== *)

(** X30.  The handler [UpdateProperty], case by case, with all three
    parameters non-empty.  An id that is not registered gives 404; a
    registered pointer that leads to no twin is a panic.  For a
    registered twin: an absent feature gives 404 and an undecodable
    body 400, whatever the rest of the state.  These answers leave the
    server as it was and publish nothing.  With the feature present and
    a decoded value: if the property map of the feature was never made
    the handler panics in [SetProperty]; otherwise the value is
    written, it reads back through the twin, the stored feature carries
    the instant of [SetProperty] and the twin that of [UpdateFeature],
    and then the answer depends on the [ID] field of the twin.  If no
    twin is registered under it, the answer is 500 although the write
    is done, and nothing is published.  If one is, the registry entry
    of that id is set to the twin and the handler publishes on
    [property.updated]: it panics if [Publish] does, and answers 200
    with the bus [Publish] leaves otherwise.  So for a twin registered
    under its own id and a bus whose subscribed channels are all open,
    the answer is 200 and the registry is as it was. *)
Theorem UpdateProperty_handler (s : Server) (now1 now2 : Time)
    (twinID featureID propKey : string) (value : Value) :
  twinID ≠ "" → featureID ≠ "" → propKey ≠ "" →
  (twins (ServerRegistry s) !! twinID = None →
   ∀ body, Server.UpdateProperty s now1 now2 twinID featureID propKey body
           = Some (StatusNotFound, s))
  ∧ (∀ dt,
       twins (ServerRegistry s) !! twinID = Some dt →
       (h_twins (ServerStore s) !! dt = None →
        ∀ body, Server.UpdateProperty s now1 now2 twinID featureID propKey body
                = None)
       ∧ (∀ t,
            h_twins (ServerStore s) !! dt = Some t →
            (fmap_contents (ServerStore s) (Features t) !! featureID = None →
             ∀ body, Server.UpdateProperty s now1 now2 twinID featureID propKey body
                     = Some (StatusNotFound, s))
            ∧ (∀ fs,
                 fmap_contents (ServerStore s) (Features t) !! featureID = Some fs →
                 Server.UpdateProperty s now1 now2 twinID featureID propKey None
                 = Some (StatusBadRequest, s)
                 ∧ (¬ vmap_live (ServerStore s) (Properties fs) →
                    Server.UpdateProperty s now1 now2 twinID featureID propKey
                      (Some value) = None)
                 ∧ (vmap_live (ServerStore s) (Properties fs) →
                    ∃ h3,
                      stored_property dt featureID propKey h3
                      = Some ((value, true), h3)
                      ∧ DigitalTwin.GetFeature dt featureID h3
                        = Some ((mkFeatureState (Properties fs) (DesiredProps fs)
                                   (FeatureDefinition fs) now1, true), h3)
                      ∧ h_twins h3 !! dt = Some (touch t now2)
                      ∧ (twins (ServerRegistry s) !! ID t = None →
                         Server.UpdateProperty s now1 now2 twinID featureID propKey
                           (Some value)
                         = Some (StatusInternalServerError,
                                 mkServer (ServerRegistry s) h3 (ServerPubSub s)))
                      ∧ (is_Some (twins (ServerRegistry s) !! ID t) →
                         Server.UpdateProperty s now1 now2 twinID featureID propKey
                           (Some value)
                         = ps' ← PubSub.Publish (ServerPubSub s) "property.updated"
                                  (VMap [("twinId", VString twinID);
                                         ("featureId", VString featureID);
                                         ("propertyKey", VString propKey);
                                         ("value", value)]);
                           Some (StatusOK,
                                 mkServer
                                   (mkRegistry
                                      (<[ID t := dt]> (twins (ServerRegistry s))))
                                   h3 ps'))
                      ∧ (ID t = twinID → channels_open (ServerPubSub s) →
                         ∃ ps',
                           PubSub.Publish (ServerPubSub s) "property.updated"
                             (VMap [("twinId", VString twinID);
                                    ("featureId", VString featureID);
                                    ("propertyKey", VString propKey);
                                    ("value", value)])
                           = Some ps'
                           ∧ Server.UpdateProperty s now1 now2 twinID featureID
                               propKey (Some value)
                             = Some (StatusOK,
                                     mkServer (ServerRegistry s) h3 ps')))))).
Proof.
  intros Htw Hfe Hpk.
  assert (Hparams : bool_decide (twinID = "" ∨ featureID = "" ∨ propKey = "")
                    = false).
  { apply bool_decide_eq_false. intros [?|[?|?]]; done. }
  split.
  { intros Hnone body. unfold Server.UpdateProperty. rewrite Hparams.
    unfold Registry.Get, ret. by rewrite Hnone. }
  intros dt Hdt. split.
  { intros Hnil body. unfold Server.UpdateProperty. rewrite Hparams.
    unfold Registry.Get, ret. rewrite Hdt.
    unfold DigitalTwin.GetFeature, bind, load_twin. by rewrite Hnil. }
  intros t Ht. split.
  { intros Habs body. unfold Server.UpdateProperty. rewrite Hparams.
    unfold Registry.Get, ret. rewrite Hdt.
    rewrite (GetFeature_stored _ _ _ _ Ht), Habs. done. }
  intros fs Hfs. split; [|split].
  - unfold Server.UpdateProperty. rewrite Hparams.
    unfold Registry.Get, ret. rewrite Hdt.
    rewrite (GetFeature_stored _ _ _ _ Ht), Hfs. done.
  - intros Hdead. unfold Server.UpdateProperty. rewrite Hparams.
    unfold Registry.Get, ret. rewrite Hdt.
    rewrite (GetFeature_stored _ _ _ _ Ht), Hfs. simpl.
    unfold FeatureState.SetProperty, bind, ret, vmap_set.
    destruct (Properties fs) as [l|] eqn:Hl; [|done].
    destruct (h_vmaps (ServerStore s) !! l) as [m|] eqn:Hm; [|done].
    destruct Hdead. by exists l, m.
  - intros (l & m & Hl & Hm).
    destruct (vmap_set (Properties fs) propKey value (ServerStore s))
      as [[[] h2]|] eqn:Hset;
      [|unfold vmap_set in Hset; by rewrite Hl, Hm in Hset].
    destruct (vmap_set_contents _ _ _ _ _ _ Hset) as (Hc & _ & Hfm & Htws).
    assert (Ht2 : h_twins h2 !! dt = Some t) by (by rewrite Htws).
    assert (Hfs2 : fmap_contents h2 (Features t) !! featureID = Some fs).
    { by rewrite (fmap_contents_ext h2 (ServerStore s)). }
    set (fs' := mkFeatureState (Properties fs) (DesiredProps fs)
                               (FeatureDefinition fs) now1).
    destruct (UpdateFeature_present h2 dt t featureID fs now2 fs' Ht2 Hfs2)
      as (h3 & Hupd & Hget3).
    assert (Hupd' := Hupd).
    unfold DigitalTwin.UpdateFeature, bind, ret, load_twin in Hupd'.
    rewrite Ht2, fmap_get_contents, Hfs2 in Hupd'. simpl in Hupd'.
    destruct (fmap_set (Features t) featureID fs' h2) as [[[] h2']|] eqn:Hfset;
      [|done].
    destruct (fmap_set_contents _ _ _ _ _ _ Hfset) as (_ & _ & Hv2' & Htw2').
    rewrite (store_twin_run h2' dt t) in Hupd' by (by rewrite Htw2').
    injection Hupd' as Hh3.
    assert (Ht3 : h_twins h3 !! dt = Some (touch t now2)).
    { rewrite <- Hh3. simpl. apply lookup_insert_eq. }
    assert (Hres :
      Server.UpdateProperty s now1 now2 twinID featureID propKey (Some value)
      = match twins (ServerRegistry s) !! ID t with
        | None => Some (StatusInternalServerError,
                        mkServer (ServerRegistry s) h3 (ServerPubSub s))
        | Some _ =>
            ps' ← PubSub.Publish (ServerPubSub s) "property.updated"
                    (VMap [("twinId", VString twinID);
                           ("featureId", VString featureID);
                           ("propertyKey", VString propKey);
                           ("value", value)]);
            Some (StatusOK,
                  mkServer (mkRegistry (<[ID t := dt]> (twins (ServerRegistry s))))
                           h3 ps')
        end).
    { unfold Server.UpdateProperty. rewrite Hparams.
      unfold Registry.Get, ret. rewrite Hdt.
      rewrite (GetFeature_stored _ _ _ _ Ht), Hfs. simpl.
      unfold FeatureState.SetProperty, bind, ret. rewrite Hset.
      fold fs'. rewrite Hupd.
      unfold Registry.Update, bind, ret, load_twin. rewrite Ht3. simpl.
      destruct (twins (ServerRegistry s) !! ID t); [|done].
      by destruct (PubSub.Publish (ServerPubSub s) "property.updated" _). }
    exists h3. split; [|split; [exact Hget3|split; [exact Ht3|split; [|split]]]].
    + unfold stored_property, bind. rewrite Hget3.
      unfold FeatureState.GetProperty. rewrite vmap_get_contents. simpl.
      rewrite (vmap_contents_ext h3 h2)
        by (rewrite <- Hh3; simpl; congruence).
      by rewrite Hc, lookup_insert_eq.
    + intros Hnone. by rewrite Hres, Hnone.
    + intros [d Hd]. by rewrite Hres, Hd.
    + intros HID Hopen.
      destruct (Publish_total (ServerPubSub s) "property.updated"
                  (VMap [("twinId", VString twinID);
                         ("featureId", VString featureID);
                         ("propertyKey", VString propKey);
                         ("value", value)]) Hopen) as [ps' Hpub].
      exists ps'. split; [exact Hpub|].
      rewrite Hres, HID, Hdt, Hpub. simpl.
      rewrite insert_id by done. by rewrite Registry_eta.
Qed.

Lemma UpdateProperty_handler_witness :
  "t1" ≠ "" ∧ "temp" ≠ "" ∧ "value" ≠ ""
  ∧ ∃ h3 ps',
      stored_property 1%positive "temp" "value" h3 = Some ((VInt 99, true), h3)
      ∧ DigitalTwin.GetFeature 1%positive "temp" h3
        = Some ((mkFeatureState (Properties shared_copy) (DesiredProps shared_copy)
                   (FeatureDefinition shared_copy) 5, true), h3)
      ∧ h_twins h3 !! 1%positive = Some (touch shared_twin 6)
      ∧ PubSub.Publish (ServerPubSub sample_server) "property.updated"
          (VMap [("twinId", VString "t1"); ("featureId", VString "temp");
                 ("propertyKey", VString "value"); ("value", VInt 99)])
        = Some ps'
      ∧ Server.UpdateProperty sample_server 5 6 "t1" "temp" "value" (Some (VInt 99))
        = Some (StatusOK, mkServer (ServerRegistry sample_server) h3 ps').
Proof.
  assert (H1 : "t1" ≠ "") by discriminate.
  assert (H2 : "temp" ≠ "") by discriminate.
  assert (H3 : "value" ≠ "") by discriminate.
  split; [exact H1|]. split; [exact H2|]. split; [exact H3|].
  destruct (UpdateProperty_handler sample_server 5 6 "t1" "temp" "value"
              (VInt 99) H1 H2 H3) as [_ Hreg].
  destruct (Hreg 1%positive) as [_ Htwin]; [vm_compute; reflexivity|].
  destruct (Htwin shared_twin shared_twin_live) as [_ Hfeat].
  destruct (Hfeat shared_copy) as (_ & _ & Hok); [vm_compute; reflexivity|].
  destruct Hok as (h3 & Hprop & Hget & Htouch & _ & _ & Hown).
  { exists 1%positive, {["value" := VInt 22]}.
    split; [reflexivity | vm_compute; reflexivity]. }
  destruct Hown as (ps' & Hpub & Hrun); [reflexivity| |].
  { apply Subscribe_channels_open, NewPubSub_channels_open. }
  exists h3, ps'. repeat split; assumption.
Defined.
